(** * chat-with-youtube: the chat-context subsystem, embedded and verified

    A shallow embedding of [src/lib/chat-context.ts], of the transcript
    formatter of [src/lib/youtube.ts] and of the session mutations of the
    chat route [src/app/api/chat/route.ts].

    Conventions of the embedding.
    - A JavaScript string is a [string]: a sequence of code units, each
      below 256 (Latin-1).  [String.length] is the [.length] of the source.
    - Array lengths, token estimates and counts are [nat]; budgets, ages,
      character ceilings and clock readings (milliseconds) are [Z].
    - A JavaScript number that the source computes with (a start time, a
      duration) is a [JSNumber]: [NaN] or a finite value, held as an exact
      rational.  Infinities and binary64 rounding are outside the model.
    - A call that throws in the source returns [None] here. *)

From Stdlib Require Import ZArith QArith Qround List String Ascii Lia Bool.
From Stdlib Require Import DecimalString Lqa.
From stdpp Require Import gmap strings list fin_maps sorting.

Local Open Scope Z_scope.
Local Open Scope nat_scope.

(** ** JavaScript built-ins used by the sources *)

Module JS.

(** *** Arrays *)

(** [arr.slice(start)]: a negative [start] counts from the end, and the
    index is clamped to the array. *)
Definition slice_from {A} (start : Z) (arr : list A) : list A :=
  let len := Z.of_nat (length arr) in
  let k := if (start <? 0)%Z then Z.max (len + start) 0 else Z.min start len in
  drop (Z.to_nat k) arr.

(** [arr.slice(0, count)] for a count [count >= 0]. *)
Definition slice_to {A} (count : nat) (arr : list A) : list A := take count arr.

(** [arr.sort(compare)].  The sort of the language is stable; with a
    comparator that is a consistent ordering the result is the one of this
    insertion sort: an element goes in front of the first later element
    that does not have to precede it. *)
Fixpoint insertBy {A} (compare : A -> A -> Z) (x : A) (sorted : list A) : list A :=
  match sorted with
  | [] => [x]
  | y :: rest =>
      if (compare x y <=? 0)%Z then x :: y :: rest
      else y :: insertBy compare x rest
  end.

Definition sort {A} (compare : A -> A -> Z) (arr : list A) : list A :=
  foldr (insertBy compare) [] arr.

(** *** Strings *)

Definition toLowerCaseChar (c : ascii) : ascii :=
  let n := nat_of_ascii c in
  if ((65 <=? n) && (n <=? 90))
     || ((192 <=? n) && (n <=? 222) && negb (n =? 215))
  then ascii_of_nat (n + 32)
  else c.

(** [s.toLowerCase()] on Latin-1 code units. *)
Fixpoint toLowerCase (s : string) : string :=
  match s with
  | EmptyString => EmptyString
  | String c s' => String (toLowerCaseChar c) (toLowerCase s')
  end.

(** The class [\s] (white space and line terminators) below 256. *)
Definition isWhiteSpace (c : ascii) : bool :=
  let n := nat_of_ascii c in
  ((9 <=? n) && (n <=? 13)) || (n =? 32) || (n =? 160).

Definition startsWithWhiteSpace (s : string) : bool :=
  match s with
  | EmptyString => false
  | String c _ => isWhiteSpace c
  end.

(** [s.split(/\s+/)]: the pieces between maximal runs of white space; a
    run at either end leaves an empty piece there, and the empty string
    gives one empty piece. *)
Fixpoint splitWhiteSpace (s : string) : list string :=
  match s with
  | EmptyString => [EmptyString]
  | String c s' =>
      if isWhiteSpace c then
        if startsWithWhiteSpace s' then splitWhiteSpace s'
        else EmptyString :: splitWhiteSpace s'
      else
        match splitWhiteSpace s' with
        | [] => [String c EmptyString]
        | piece :: pieces => String c piece :: pieces
        end
  end.

(** [s.includes(search)] *)
Fixpoint includes (s search : string) : bool :=
  String.prefix search s
  || match s with
     | EmptyString => false
     | String _ s' => includes s' search
     end.

(** [s.substring(0, count)] *)
Definition substring0 (count : Z) (s : string) : string :=
  String.substring 0 (Z.to_nat count) s.

(** [arr.join(sep)] on an array of strings. *)
Fixpoint join (sep : string) (arr : list string) : string :=
  match arr with
  | [] => EmptyString
  | x :: rest =>
      match rest with
      | [] => x
      | _ :: _ => x +:+ sep +:+ join sep rest
      end
  end.

Fixpoint repeatChar (n : nat) (c : ascii) : string :=
  match n with
  | O => EmptyString
  | S n' => String c (repeatChar n' c)
  end.

(** [s.padStart(target, fill)] with a one-character [fill]. *)
Definition padStart (target : nat) (fill : ascii) (s : string) : string :=
  repeatChar (target - String.length s) fill +:+ s.

(** [s.replace(from, to)] with one-character strings: the first
    occurrence only. *)
Fixpoint replaceFirst (from to : ascii) (s : string) : string :=
  match s with
  | EmptyString => EmptyString
  | String c s' =>
      if Ascii.eqb c from then String to s'
      else String c (replaceFirst from to s')
  end.

(** [s.replace(/c/g, to)] for a one-character pattern: every occurrence. *)
Fixpoint replaceAll (from to : ascii) (s : string) : string :=
  match s with
  | EmptyString => EmptyString
  | String c s' =>
      String (if Ascii.eqb c from then to else c) (replaceAll from to s')
  end.

Fixpoint trimStart (s : string) : string :=
  match s with
  | EmptyString => EmptyString
  | String c s' => if isWhiteSpace c then trimStart s' else s
  end.

Fixpoint trimEnd (s : string) : string :=
  match s with
  | EmptyString => EmptyString
  | String c s' =>
      match trimEnd s' with
      | EmptyString => if isWhiteSpace c then EmptyString else String c EmptyString
      | String _ _ as kept => String c kept
      end
  end.

(** [s.trim()] *)
Definition trim (s : string) : string := trimEnd (trimStart s).

(** The number of pieces of [s.split(' ')]. *)
Fixpoint splitSpaceCount (s : string) : nat :=
  match s with
  | EmptyString => 1
  | String c s' =>
      (if Ascii.eqb c " "%char then 1 else 0) + splitSpaceCount s'
  end.

Definition newline : string := String (ascii_of_nat 10) EmptyString.

End JS.

(** *** Numbers *)

Inductive JSNumber : Type :=
| NaN
| Fin (value : Q).

Module Num.

(** Rounding towards zero, as in the remainder of the language. *)
Definition truncate (q : Q) : Z :=
  if Qle_bool 0 q then Qfloor q else Qceiling q.

(** [x + y] *)
Definition add (x y : JSNumber) : JSNumber :=
  match x, y with
  | Fin a, Fin b => Fin (a + b)%Q
  | _, _ => NaN
  end.

(** [x / d] for a non-zero constant [d]. *)
Definition divBy (d : Z) (x : JSNumber) : JSNumber :=
  match x with
  | NaN => NaN
  | Fin a => Fin (a / inject_Z d)%Q
  end.

(** [x % d] for a non-zero constant [d]: the remainder has the sign of [x]. *)
Definition remBy (d : Z) (x : JSNumber) : JSNumber :=
  match x with
  | NaN => NaN
  | Fin a => Fin (a - inject_Z (d * truncate (a / inject_Z d)%Q)%Z)%Q
  end.

(** [Math.floor(x)]: an integer, or [None] for [NaN]. *)
Definition floor (x : JSNumber) : option Z :=
  match x with
  | NaN => None
  | Fin a => Some (Qfloor a)
  end.

(** [n > 0] for the result of [Math.floor]; a comparison with [NaN] is
    false. *)
Definition isPositive (n : option Z) : bool :=
  match n with
  | None => false
  | Some z => (0 <? z)%Z
  end.

Definition decimal (z : Z) : string := NilZero.string_of_int (Z.to_int z).

(** [n.toString()] and [`${n}`] for the result of [Math.floor]: the
    decimal digits of the integer, as the source prints an integer below
    10^21 in absolute value (from 10^21 on the source prints an exponent,
    which is outside the model). *)
Definition toString (n : option Z) : string :=
  match n with
  | None => "NaN"
  | Some z => decimal z
  end.

(** The digits of [x.toFixed(3)] for [0 <= x]: the nearest multiple of
    1/1000, the larger one on a tie. *)
Definition toFixed3_nonneg (a : Q) : string :=
  let n := Qfloor (a * 1000 + (1 # 2))%Q in
  decimal (n / 1000)%Z +:+ "." +:+ JS.padStart 3 "0" (decimal (n mod 1000)%Z).

(** [x.toFixed(3)] *)
Definition toFixed3 (x : JSNumber) : string :=
  match x with
  | NaN => "NaN"
  | Fin a =>
      if Qle_bool 0 a then toFixed3_nonneg a
      else "-" +:+ toFixed3_nonneg (- a)%Q
  end.

End Num.

(** ** Data model ([types/index.ts]) *)

Inductive Role : Type := system | user | assistant.

#[global] Instance Role_eq_dec : EqDecision Role.
Proof. solve_decision. Defined.

(** The [{ role, content }] objects handed to the completion service. *)
Module ContextMessage.
Record t : Type := mk { role : Role; content : string }.
End ContextMessage.

#[global] Instance ContextMessage_eq_dec : EqDecision ContextMessage.t.
Proof. solve_decision. Defined.

Module TranscriptItem.
Record t : Type := mk { start : string; dur : string; text : string }.
End TranscriptItem.

#[global] Instance TranscriptItem_eq_dec : EqDecision TranscriptItem.t.
Proof. solve_decision. Defined.

Module ChatMessage.
Record t : Type := mk {
  id : string;
  role : Role;
  content : string;
  timestamp : Z;
  videoId : option string;
  videoTitle : option string
}.
End ChatMessage.

Module ChatSession.
Record t : Type := mk {
  id : string;
  videoId : string;
  videoTitle : string;
  videoUrl : string;
  transcript : list TranscriptItem.t;
  messages : list ChatMessage.t;
  createdAt : Z;
  updatedAt : Z
}.
End ChatSession.

(** ** Transcript formatter ([src/lib/youtube.ts]) *)

Inductive ResponseFormat : Type :=
| DETAILED | SIMPLE | TEXT_ONLY | SRT | VTT | SEGMENTS.

Module FormattedTranscriptItem.
Record t : Type := mk {
  start : JSNumber;
  end_ : JSNumber;
  duration : JSNumber;
  text : string;
  startTime : option string;
  endTime : option string
}.
End FormattedTranscriptItem.

(** [formatTime(seconds)] *)
Definition formatTime (seconds : JSNumber) : string :=
  let hours := Num.floor (Num.divBy 3600 seconds) in
  let minutes := Num.floor (Num.divBy 60 (Num.remBy 3600 seconds)) in
  let secs := Num.remBy 60 seconds in
  if Num.isPositive hours then
    JS.padStart 2 "0" (Num.toString hours) +:+ ":"
    +:+ JS.padStart 2 "0" (Num.toString minutes) +:+ ":"
    +:+ JS.padStart 6 "0" (Num.toFixed3 secs)
  else
    JS.padStart 2 "0" (Num.toString minutes) +:+ ":"
    +:+ JS.padStart 6 "0" (Num.toFixed3 secs).

(** The body of the [map] callback of [formatTranscriptData], after the two
    calls of [parseFloat]. *)
Definition formatItem (start duration : JSNumber) (text : string)
  : FormattedTranscriptItem.t :=
  let end_ := Num.add start duration in
  FormattedTranscriptItem.mk start end_ duration
    (JS.trim (JS.replaceAll (ascii_of_nat 10) " " text))
    (Some (formatTime start)) (Some (formatTime end_)).

(** [formatTranscriptData(rawTranscript)], over the [parseFloat] of the
    language. *)
Definition formatTranscriptData (parseFloat : string -> JSNumber)
    (rawTranscript : list TranscriptItem.t) : list FormattedTranscriptItem.t :=
  map (fun item =>
         formatItem (parseFloat (TranscriptItem.start item))
                    (parseFloat (TranscriptItem.dur item))
                    (TranscriptItem.text item))
      rawTranscript.

(** [item.startTime?.replace('.', ',')] inside a template literal: a
    missing field prints as [undefined]. *)
Definition commaTime (time : option string) : string :=
  match time with
  | None => "undefined"
  | Some s => JS.replaceFirst "." "," s
  end.

Definition plainTime (time : option string) : string :=
  match time with
  | None => "undefined"
  | Some s => s
  end.

Module SimpleItem.
Record t : Type := mk { text : string; start : JSNumber; duration : JSNumber }.
End SimpleItem.

Module SegmentItem.
Record t : Type := mk {
  id : nat;
  start : JSNumber;
  end_ : JSNumber;
  duration : JSNumber;
  text : string;
  wordCount : nat
}.
End SegmentItem.

(** The value returned by [formatTranscriptOutput]: a string for the text
    formats, an array for the others. *)
Inductive Output : Type :=
| OutString (s : string)
| OutSimple (items : list SimpleItem.t)
| OutSegments (items : list SegmentItem.t)
| OutDetailed (items : list FormattedTranscriptItem.t).

Definition srtBlock (index : nat) (item : FormattedTranscriptItem.t) : string :=
  Num.decimal (Z.of_nat (index + 1)) +:+ JS.newline
  +:+ commaTime (FormattedTranscriptItem.startTime item) +:+ " --> "
  +:+ commaTime (FormattedTranscriptItem.endTime item) +:+ JS.newline
  +:+ FormattedTranscriptItem.text item +:+ JS.newline.

Definition vttBlock (item : FormattedTranscriptItem.t) : string :=
  plainTime (FormattedTranscriptItem.startTime item) +:+ " --> "
  +:+ plainTime (FormattedTranscriptItem.endTime item) +:+ JS.newline
  +:+ FormattedTranscriptItem.text item +:+ JS.newline.

(** [formatTranscriptOutput(transcript, format)] *)
Definition formatTranscriptOutput (transcript : list FormattedTranscriptItem.t)
    (format : ResponseFormat) : Output :=
  match format with
  | TEXT_ONLY =>
      OutString (JS.join " " (map FormattedTranscriptItem.text transcript))
  | SIMPLE =>
      OutSimple (map (fun item =>
                        SimpleItem.mk (FormattedTranscriptItem.text item)
                                      (FormattedTranscriptItem.start item)
                                      (FormattedTranscriptItem.duration item))
                     transcript)
  | SRT => OutString (JS.join JS.newline (imap srtBlock transcript))
  | VTT =>
      let vttHeader := "WEBVTT" +:+ JS.newline +:+ JS.newline in
      let vttContent := JS.join JS.newline (map vttBlock transcript) in
      OutString (vttHeader +:+ vttContent)
  | SEGMENTS =>
      OutSegments (imap (fun index item =>
                           SegmentItem.mk (index + 1)
                             (FormattedTranscriptItem.start item)
                             (FormattedTranscriptItem.end_ item)
                             (FormattedTranscriptItem.duration item)
                             (FormattedTranscriptItem.text item)
                             (JS.splitSpaceCount (FormattedTranscriptItem.text item)))
                        transcript)
  | DETAILED => OutDetailed transcript
  end.

(** ** Regular expressions built from a query word

    [new RegExp(word, 'g')] reads [word] as a pattern.  The model covers the
    patterns made of ordinary characters and of the wildcard [.]; a word
    with any other syntax character ([^ $ \ * + ? ( ) [ ] { } |]) is
    outside the fragment and [compile] gives [None] for it. *)

Module RegExp.

Inductive Atom : Type :=
| Char (c : ascii)
| AnyChar.

Definition isSyntaxCharacter (c : ascii) : bool :=
  JS.includes "^$\.*+?()[]{}|" (String c EmptyString).

Definition compileChar (c : ascii) : option Atom :=
  if Ascii.eqb c "." then Some AnyChar
  else if isSyntaxCharacter c then None
  else Some (Char c).

Fixpoint compile (source : string) : option (list Atom) :=
  match source with
  | EmptyString => Some []
  | String c rest =>
      match compileChar c, compile rest with
      | Some a, Some atoms => Some (a :: atoms)
      | _, _ => None
      end
  end.

Definition isLineTerminator (c : ascii) : bool :=
  let n := nat_of_ascii c in (n =? 10) || (n =? 13).

Definition atomMatches (a : Atom) (c : ascii) : bool :=
  match a with
  | Char x => Ascii.eqb x c
  | AnyChar => negb (isLineTerminator c)
  end.

(** The pattern matches at the start of [text]. *)
Fixpoint matchesAt (pattern : list Atom) (text : string) : bool :=
  match pattern, text with
  | [], _ => true
  | _ :: _, EmptyString => false
  | a :: pattern', String c text' => atomMatches a c && matchesAt pattern' text'
  end.

(** The number of matches [text.match(re)] collects with the flag [g]: the
    search resumes where the last match ended ([skip] characters further
    on), one character further after an empty match. *)
Fixpoint countFrom (pattern : list Atom) (text : string) (skip : nat) : nat :=
  match text with
  | EmptyString =>
      match skip with
      | O => if matchesAt pattern EmptyString then 1 else 0
      | S _ => 0
      end
  | String _ text' =>
      match skip with
      | S skip' => countFrom pattern text' skip'
      | O =>
          if matchesAt pattern text
          then S (countFrom pattern text' (length pattern - 1))
          else countFrom pattern text' 0
      end
  end.

(** [(text.match(new RegExp(word, 'g')) || []).length], and [None] for a
    word outside the fragment: on some of these, such as [c++] or [(abc],
    the constructor throws; on the others, such as [rust?], the source
    counts matches that the model does not compute. *)
Definition matchCount (word text : string) : option nat :=
  match compile word with
  | None => None
  | Some pattern => Some (countFrom pattern text 0)
  end.

End RegExp.

(** ** Chat context ([src/lib/chat-context.ts]) *)

Definition MAX_CONTEXT_MESSAGES : Z := 20.
Definition MAX_TRANSCRIPT_CHARS : Z := 50000.

(** [OPENAI_CONFIG.SYSTEM_PROMPT] of [src/lib/openai.ts]. *)
Definition SYSTEM_PROMPT : string :=
  JS.join JS.newline
    [ "You are an AI assistant that helps users understand and discuss YouTube videos based on their transcripts. ";
      "";
      "Your capabilities:";
      "- Answer questions about the video content";
      "- Summarize key points from the transcript";
      "- Explain complex topics mentioned in the video";
      "- Provide timestamps for specific topics when possible";
      "- Help users find relevant information within the video";
      "";
      "Guidelines:";
      "- Base your responses strictly on the provided transcript";
      "- If information isn't in the transcript, clearly state that";
      "- Provide specific quotes when relevant";
      "- Be helpful, accurate, and conversational";
      "- If asked about timestamps, reference the transcript timing when available" ].

Definition truncationMarker : string :=
  JS.newline +:+ JS.newline +:+ "[... transcript truncated for length ...]".

(** The [map] callback of [formatTranscriptContext]. *)
Definition formatTranscriptLine (parseFloat : string -> JSNumber)
    (item : TranscriptItem.t) : string :=
  let startTime := parseFloat (TranscriptItem.start item) in
  let minutes := Num.floor (Num.divBy 60 startTime) in
  let seconds := Num.floor (Num.remBy 60 startTime) in
  let timestamp :=
    Num.toString minutes +:+ ":" +:+ JS.padStart 2 "0" (Num.toString seconds) in
  "[" +:+ timestamp +:+ "] " +:+ TranscriptItem.text item.

(** The transcript before the length test of [formatTranscriptContext]. *)
Definition renderTranscript (parseFloat : string -> JSNumber)
    (transcript : list TranscriptItem.t) : string :=
  JS.join JS.newline (map (formatTranscriptLine parseFloat) transcript).

(** [formatTranscriptContext(transcript)] *)
Definition formatTranscriptContext (parseFloat : string -> JSNumber)
    (transcript : list TranscriptItem.t) : string :=
  let formattedTranscript := renderTranscript parseFloat transcript in
  if (MAX_TRANSCRIPT_CHARS <? Z.of_nat (String.length formattedTranscript))%Z then
    let truncatePoint := (MAX_TRANSCRIPT_CHARS - 100)%Z in
    JS.substring0 truncatePoint formattedTranscript +:+ truncationMarker
  else formattedTranscript.

Definition systemContent (parseFloat : string -> JSNumber)
    (session : ChatSession.t) : string :=
  let transcriptContext :=
    formatTranscriptContext parseFloat (ChatSession.transcript session) in
  SYSTEM_PROMPT +:+ JS.newline +:+ JS.newline
  +:+ "Video Information:" +:+ JS.newline
  +:+ "- Title: " +:+ ChatSession.videoTitle session +:+ JS.newline
  +:+ "- URL: " +:+ ChatSession.videoUrl session +:+ JS.newline
  +:+ "- Video ID: " +:+ ChatSession.videoId session +:+ JS.newline
  +:+ "- Total Segments: "
  +:+ Num.decimal (Z.of_nat (length (ChatSession.transcript session)))
  +:+ JS.newline +:+ JS.newline
  +:+ "Transcript:" +:+ JS.newline
  +:+ transcriptContext.

(** The [{ role, content }] projection of a stored message. *)
Definition toContextMessage (msg : ChatMessage.t) : ContextMessage.t :=
  ContextMessage.mk (ChatMessage.role msg) (ChatMessage.content msg).

(** [buildConversationContext(session, includeSystemPrompt)] *)
Definition buildConversationContext (parseFloat : string -> JSNumber)
    (session : ChatSession.t) (includeSystemPrompt : bool)
  : list ContextMessage.t :=
  let messages :=
    if includeSystemPrompt
    then [ContextMessage.mk system (systemContent parseFloat session)]
    else [] in
  let recentMessages :=
    map toContextMessage
        (JS.slice_from (- MAX_CONTEXT_MESSAGES) (ChatSession.messages session)) in
  messages ++ recentMessages.

(** [estimateTokenCount(content)]: [Math.ceil(content.length / 4)] *)
Definition estimateTokenCount (content : string) : nat :=
  (String.length content + 3) / 4.

(** [calculateContextTokens(messages)]: a [reduce] from 0. *)
Definition calculateContextTokens (messages : list ContextMessage.t) : nat :=
  fold_left
    (fun total msg => total + estimateTokenCount (ContextMessage.content msg))
    messages 0.

(** The [while] loop of [trimContextToTokenLimit]: as long as the total is
    over the budget and more than one conversation message is left, the
    oldest one is shifted out.  [totalTokens] is recomputed from the system
    message and the remaining messages at every test, as in the source. *)
Fixpoint trimLoop (systemMessage : ContextMessage.t) (maxTokens : Z)
    (trimmedMessages : list ContextMessage.t) : list ContextMessage.t :=
  match trimmedMessages with
  | [] => []
  | _ :: shifted =>
      let totalTokens :=
        estimateTokenCount (ContextMessage.content systemMessage)
        + calculateContextTokens trimmedMessages in
      if (maxTokens <? Z.of_nat totalTokens)%Z && (1 <? length trimmedMessages)
      then trimLoop systemMessage maxTokens shifted
      else trimmedMessages
  end.

(** [trimContextToTokenLimit(messages, maxTokens)].  On an empty array that
    is over the budget (a negative budget) the source reads the [content]
    of [messages[0]], which is [undefined], and throws. *)
Definition trimContextToTokenLimit (messages : list ContextMessage.t)
    (maxTokens : Z) : option (list ContextMessage.t) :=
  let totalTokens := calculateContextTokens messages in
  if (Z.of_nat totalTokens <=? maxTokens)%Z then Some messages
  else
    match messages with
    | [] => None
    | systemMessage :: conversationMessages =>
        Some (systemMessage
                :: trimLoop systemMessage maxTokens conversationMessages)
    end.

(** *** Relevance scorer *)

Module ScoredSegment.
Record t : Type := mk { segment : TranscriptItem.t; score : nat; index : nat }.
End ScoredSegment.

(** [query.toLowerCase().split(/\s+/).filter(word => word.length > 2)] *)
Definition queryWordsOf (queryLower : string) : list string :=
  filter (fun word => 2 < String.length word) (JS.splitWhiteSpace queryLower).

(** The [forEach] over the query words: every word adds its number of
    matches to the score.  [regexMatchCount word text] is
    [(text.match(new RegExp(word, 'g')) || []).length], [None] when the
    constructor throws. *)
Fixpoint countKeywordMatches (regexMatchCount : string -> string -> option nat)
    (segmentText : string) (queryWords : list string) (score : nat) : option nat :=
  match queryWords with
  | [] => Some score
  | word :: words =>
      match regexMatchCount word segmentText with
      | None => None
      | Some matches =>
          countKeywordMatches regexMatchCount segmentText words (score + matches)
      end
  end.

(** The score the [map] callback of [findRelevantTranscriptSegments] gives
    to a segment. *)
Definition segmentScore (regexMatchCount : string -> string -> option nat)
    (queryLower : string) (queryWords : list string)
    (segment : TranscriptItem.t) : option nat :=
  let segmentText := JS.toLowerCase (TranscriptItem.text segment) in
  match countKeywordMatches regexMatchCount segmentText queryWords 0 with
  | None => None
  | Some score =>
      Some (if JS.includes segmentText queryLower then score + 5 else score)
  end.

(** [transcript.map((segment, index) => ({ segment, score, index }))], the
    array index counted from [index]. *)
Fixpoint scoreSegments (regexMatchCount : string -> string -> option nat)
    (queryLower : string) (queryWords : list string)
    (index : nat) (transcript : list TranscriptItem.t)
  : option (list ScoredSegment.t) :=
  match transcript with
  | [] => Some []
  | segment :: rest =>
      match segmentScore regexMatchCount queryLower queryWords segment with
      | None => None
      | Some score =>
          match scoreSegments regexMatchCount queryLower queryWords
                  (S index) rest with
          | None => None
          | Some scored => Some (ScoredSegment.mk segment score index :: scored)
          end
      end
  end.

(** [(a, b) => b.score - a.score] *)
Definition byScoreDescending (a b : ScoredSegment.t) : Z :=
  (Z.of_nat (ScoredSegment.score b) - Z.of_nat (ScoredSegment.score a))%Z.

(** [(a, b) => a.index - b.index] *)
Definition byIndex (a b : ScoredSegment.t) : Z :=
  (Z.of_nat (ScoredSegment.index a) - Z.of_nat (ScoredSegment.index b))%Z.

(** The chain [filter], [sort], [slice], [sort], [map] applied to the scored
    segments. *)
Definition selectTopSegments (scoredSegments : list ScoredSegment.t)
    (maxSegments : nat) : list TranscriptItem.t :=
  map ScoredSegment.segment
    (JS.sort byIndex
       (JS.slice_to maxSegments
          (JS.sort byScoreDescending
             (filter (fun item => 0 < ScoredSegment.score item) scoredSegments)))).

(** [findRelevantTranscriptSegments(query, transcript, maxSegments)], with
    [maxSegments] a count. *)
Definition findRelevantTranscriptSegments
    (regexMatchCount : string -> string -> option nat)
    (query : string) (transcript : list TranscriptItem.t) (maxSegments : nat)
  : option (list TranscriptItem.t) :=
  let queryLower := JS.toLowerCase query in
  let queryWords := queryWordsOf queryLower in
  if length queryWords =? 0 then Some (JS.slice_to maxSegments transcript)
  else
    match scoreSegments regexMatchCount queryLower queryWords 0 transcript with
    | None => None
    | Some scoredSegments => Some (selectTopSegments scoredSegments maxSegments)
    end.

(** *** Session validation and clean-up *)

(** [validateChatSession(session)] on a session of the declared type: the
    array and date tests cannot fail there, an empty string is falsy. *)
Definition validateChatSession (session : ChatSession.t) : bool * list string :=
  let errors :=
    (if String.eqb (ChatSession.id session) "" then
       ["Session ID is missing or invalid"%string] else [])
    ++ (if String.eqb (ChatSession.videoId session) "" then
          ["Video ID is missing or invalid"%string] else []) in
  (length errors =? 0, errors).

(** The body of the loop of [cleanupOldSessions] for one entry. *)
Definition cleanupStep (now maxAge : Z) (sessionId : string)
    (session : ChatSession.t) (state : gmap string ChatSession.t * nat)
  : gmap string ChatSession.t * nat :=
  let age := (now - ChatSession.updatedAt session)%Z in
  if (maxAge <? age)%Z then (delete sessionId state.1, S state.2) else state.

(** [cleanupOldSessions(sessions, maxAge)]: the store after the call and
    the number returned.  [now] is the reading of [new Date()]; every entry
    of the map is visited once. *)
Definition cleanupOldSessions (now : Z) (sessions : gmap string ChatSession.t)
    (maxAge : Z) : gmap string ChatSession.t * nat :=
  map_fold (cleanupStep now maxAge) (sessions, 0) sessions.

(** ** A chat turn on a resolved session ([src/app/api/chat/route.ts]) *)

Definition withMessages (session : ChatSession.t) (messages : list ChatMessage.t)
    (updatedAt : Z) : ChatSession.t :=
  ChatSession.mk (ChatSession.id session) (ChatSession.videoId session)
    (ChatSession.videoTitle session) (ChatSession.videoUrl session)
    (ChatSession.transcript session) messages
    (ChatSession.createdAt session) updatedAt.

(** Lines 202-212: the user message is created and pushed. *)
Definition pushUserMessage (session : ChatSession.t) (uuid message : string)
    (now : Z) : ChatSession.t :=
  let userMessage :=
    ChatMessage.mk uuid user message now
      (Some (ChatSession.videoId session)) (Some (ChatSession.videoTitle session)) in
  withMessages session (ChatSession.messages session ++ [userMessage])
    (ChatSession.updatedAt session).

(** Lines 244-255: the assistant message is created and pushed, and
    [updatedAt] is set to a new reading of the clock. *)
Definition pushAssistantMessage (session : ChatSession.t)
    (uuid assistantContent : string) (now now' : Z) : ChatSession.t :=
  let assistantMessage :=
    ChatMessage.mk uuid assistant assistantContent now
      (Some (ChatSession.videoId session)) (Some (ChatSession.videoTitle session)) in
  withMessages session (ChatSession.messages session ++ [assistantMessage]) now'.

Inductive TurnResult : Type :=
| InvalidSession (errors : list string)
| InternalError
| CompletionFailed
| Replied (assistantContent : string).

(** What the environment supplies to one turn: identifiers, clock readings
    and the outcome of the completion call on the trimmed context ([None]:
    the call fails or gives no content). *)
Record TurnEnv : Type := mkTurnEnv {
  userUuid : string;
  userClock : Z;
  complete : list ContextMessage.t -> option string;
  assistantUuid : string;
  assistantClock : Z;
  updateClock : Z
}.

(** The part of [POST] after the session is resolved (lines 201-325): the
    session as the handler leaves it, and the kind of response. *)
Definition chatTurn (parseFloat : string -> JSNumber) (env : TurnEnv)
    (session : ChatSession.t) (message : string) : ChatSession.t * TurnResult :=
  let session1 := pushUserMessage session (userUuid env) message (userClock env) in
  let validation := validateChatSession session1 in
  if negb validation.1 then (session1, InvalidSession validation.2)
  else
    let contextMessages := buildConversationContext parseFloat session1 true in
    match trimContextToTokenLimit contextMessages 12000 with
    | None => (session1, InternalError)
    | Some trimmedMessages =>
        match complete env trimmedMessages with
        | None => (session1, CompletionFailed)
        | Some assistantContent =>
            if String.eqb assistantContent "" then (session1, CompletionFailed)
            else
              (pushAssistantMessage session1 (assistantUuid env) assistantContent
                 (assistantClock env) (updateClock env),
               Replied assistantContent)
        end
    end.

(** ** The claims in the words of the specification *)

(** [removes_non_system messages kept]: [kept] is [messages] with some
    messages whose role is not [system] removed. *)
Inductive removes_non_system
  : list ContextMessage.t -> list ContextMessage.t -> Prop :=
| rns_nil : removes_non_system [] []
| rns_keep m l l' :
    removes_non_system l l' -> removes_non_system (m :: l) (m :: l')
| rns_drop m l l' :
    ContextMessage.role m <> system ->
    removes_non_system l l' -> removes_non_system (m :: l) l'.

(** A total within the budget can be reached by removing only non-system
    messages. *)
Definition achievable (messages : list ContextMessage.t) (maxTokens : Z) : Prop :=
  exists kept,
    removes_non_system messages kept
    /\ (Z.of_nat (calculateContextTokens kept) <= maxTokens)%Z.

(** The guarantee of the token budgeter as the specification words it: when
    the budget is achievable, the returned list is within it. *)
Definition fits_whenever_achievable (messages : list ContextMessage.t)
    (maxTokens : Z) : Prop :=
  achievable messages maxTokens ->
  exists trimmed,
    trimContextToTokenLimit messages maxTokens = Some trimmed
    /\ (Z.of_nat (calculateContextTokens trimmed) <= maxTokens)%Z.

(** The occurrences of [word] in [text] as a plain substring, counted from
    the left without overlap. *)
Fixpoint occurrencesFrom (word text : string) (skip : nat) : nat :=
  match text with
  | EmptyString =>
      match skip with
      | O => if String.prefix word EmptyString then 1 else 0
      | S _ => 0
      end
  | String _ text' =>
      match skip with
      | S skip' => occurrencesFrom word text' skip'
      | O =>
          if String.prefix word text
          then S (occurrencesFrom word text' (String.length word - 1))
          else occurrencesFrom word text' 0
      end
  end.

Definition occurrences (word text : string) : nat := occurrencesFrom word text 0.

(** The occurrences of [word] in [text] as a plain substring, every
    position counted. *)
Fixpoint occurrencesOverlapping (word text : string) : nat :=
  (if String.prefix word text then 1 else 0)
  + match text with
    | EmptyString => 0
    | String _ text' => occurrencesOverlapping word text'
    end.

(** The word has no syntax character of regular expressions. *)
Fixpoint isPlainWord (word : string) : bool :=
  match word with
  | EmptyString => true
  | String c word' => negb (RegExp.isSyntaxCharacter c) && isPlainWord word'
  end.

(** The relevance score of the specification: the sum over the query
    tokens longer than two characters of the case-insensitive substring
    occurrences of the token in the segment text, plus 5 when the lowercased
    query is a substring of the lowercased text.  [count] is the way
    occurrences are counted. *)
Definition spec_relevanceScore (count : string -> string -> nat)
    (query : string) (segment : TranscriptItem.t) : nat :=
  let tokens :=
    filter (fun token => 2 < String.length token) (JS.splitWhiteSpace query) in
  let segmentText := JS.toLowerCase (TranscriptItem.text segment) in
  foldr (fun token total => count (JS.toLowerCase token) segmentText + total)
        0 tokens
  + (if JS.includes segmentText (JS.toLowerCase query) then 5 else 0).

(** The sessions that a clean-up at time [now] has to remove. *)
Definition expired (now maxAge : Z) (session : ChatSession.t) : Prop :=
  (ChatSession.updatedAt session < now - maxAge)%Z.

#[global] Instance expired_dec now maxAge session :
  Decision (expired now maxAge session).
Proof. unfold expired. apply _. Defined.

(** ** Sample data *)

Definition sample_system : ContextMessage.t := ContextMessage.mk system "sys!".

Definition sample_question : ContextMessage.t :=
  ContextMessage.mk user "0123456789012345678901234567890123456789".

Definition sample_reply : ContextMessage.t :=
  ContextMessage.mk assistant "01234567".

(** The transcript of the example of the specification,
    [[{start:0,duration:2,text:"hello"},{start:2,duration:3,text:"world"}]],
    as [formatTranscriptData] builds its items. *)
Definition example_transcript : list FormattedTranscriptItem.t :=
  [ formatItem (Fin 0) (Fin 2) "hello"; formatItem (Fin 2) (Fin 3) "world" ].

(** The same segments with the fields of the example only. *)
Definition example_transcript_untimed : list FormattedTranscriptItem.t :=
  [ FormattedTranscriptItem.mk (Fin 0) (Fin 2) (Fin 2) "hello" None None;
    FormattedTranscriptItem.mk (Fin 2) (Fin 5) (Fin 3) "world" None None ].

Definition sample_session : ChatSession.t :=
  ChatSession.mk "session-1" "dQw4w9WgXcQ" "YouTube Video dQw4w9WgXcQ"
    "https://www.youtube.com/watch?v=dQw4w9WgXcQ" [] [] 1000 1000.

(** A turn at time 5000 whose completion call fails. *)
Definition failing_env : TurnEnv :=
  mkTurnEnv "message-1" 5000 (fun _ => None) "message-2" 6000 6001.

(** A turn at time 5000 whose completion call answers. *)
Definition replying_env : TurnEnv :=
  mkTurnEnv "message-1" 5000 (fun _ => Some "hi"%string) "message-2" 6000 6001.

Definition sample_segment : TranscriptItem.t :=
  TranscriptItem.mk "0" "2" "Version 305 is out".

(** ** Further definitions of [src/lib/chat-context.ts] *)

(** The segment passes [item.score > 0]. *)
Definition hasPositiveScore (regexMatchCount : string -> string -> option nat)
    (queryLower : string) (queryWords : list string)
    (segment : TranscriptItem.t) : Prop :=
  match segmentScore regexMatchCount queryLower queryWords segment with
  | Some score => 0 < score
  | None => False
  end.

#[global] Instance hasPositiveScore_dec regexMatchCount queryLower queryWords segment :
  Decision (hasPositiveScore regexMatchCount queryLower queryWords segment).
Proof. unfold hasPositiveScore. destruct (segmentScore _ _ _ _); apply _. Defined.

Module ChatContext.
Record t : Type := mk {
  transcript : list TranscriptItem.t;
  videoTitle : string;
  videoUrl : string;
  previousMessages : list ChatMessage.t
}.
End ChatContext.

(** [createEnhancedContext(session, userQuery)] *)
Definition createEnhancedContext
    (regexMatchCount : string -> string -> option nat)
    (session : ChatSession.t) (userQuery : string) : option ChatContext.t :=
  match findRelevantTranscriptSegments regexMatchCount userQuery
          (ChatSession.transcript session) 15 with
  | None => None
  | Some relevantSegments =>
      Some (ChatContext.mk
              (if 0 <? length relevantSegments then relevantSegments
               else JS.slice_to 20 (ChatSession.transcript session))
              (ChatSession.videoTitle session)
              (ChatSession.videoUrl session)
              (JS.slice_from (-10) (ChatSession.messages session)))
  end.

Definition sample_transcript : list TranscriptItem.t :=
  [ TranscriptItem.mk "0" "2" "Rust is fast";
    TranscriptItem.mk "2" "3" "Hello world";
    TranscriptItem.mk "5" "2" "rust, Rust and more rust" ].

Module SessionStats.
Record t : Type := mk {
  totalMessages : nat;
  userMessages : nat;
  assistantMessages : nat;
  transcriptSegments : nat;
  totalTranscriptLength : nat;
  sessionDurationMs : Z;
  lastActivity : Z
}.
End SessionStats.

(** [getSessionStats(session)] *)
Definition getSessionStats (session : ChatSession.t) : SessionStats.t :=
  let totalMessages := length (ChatSession.messages session) in
  let userMessages :=
    length (filter (fun m => ChatMessage.role m = user)
                   (ChatSession.messages session)) in
  let assistantMessages :=
    length (filter (fun m => ChatMessage.role m = assistant)
                   (ChatSession.messages session)) in
  let totalTranscriptLength :=
    fold_left (fun sum item => sum + String.length (TranscriptItem.text item))
              (ChatSession.transcript session) 0 in
  let sessionDuration :=
    (ChatSession.updatedAt session - ChatSession.createdAt session)%Z in
  SessionStats.mk totalMessages userMessages assistantMessages
    (length (ChatSession.transcript session)) totalTranscriptLength
    sessionDuration (ChatSession.updatedAt session).

(** ** The session store of the chat route ([src/app/api/chat/route.ts]) *)

(** The user message lines 202-209 create. *)
Definition userMessageOf (session : ChatSession.t) (uuid message : string)
    (now : Z) : ChatMessage.t :=
  ChatMessage.mk uuid user message now
    (Some (ChatSession.videoId session)) (Some (ChatSession.videoTitle session)).

(** The assistant message lines 244-251 create. *)
Definition assistantMessageOf (session : ChatSession.t)
    (uuid assistantContent : string) (now : Z) : ChatMessage.t :=
  ChatMessage.mk uuid assistant assistantContent now
    (Some (ChatSession.videoId session)) (Some (ChatSession.videoTitle session)).

(** [extractVideoTitle(videoId, videoUrl)] *)
Definition extractVideoTitle (videoId videoUrl : string) : string :=
  "YouTube Video " +:+ videoId.

Inductive GetResponse : Type :=
| GetBadRequest (code : string)
| GetNotFound
| GetOk (session : ChatSession.t) (statistics : SessionStats.t).

(** [GET]: [sessionId] is [searchParams.get('sessionId')], [None] for
    [null]. *)
Definition getChat (chatSessions : gmap string ChatSession.t)
    (sessionId : option string) : GetResponse :=
  match sessionId with
  | None => GetBadRequest "MISSING_SESSION_ID"
  | Some key =>
      if String.eqb key "" then GetBadRequest "MISSING_SESSION_ID"
      else if String.length (JS.trim key) =? 0
      then GetBadRequest "INVALID_SESSION_ID"
      else
        match chatSessions !! key with
        | None => GetNotFound
        | Some session => GetOk session (getSessionStats session)
        end
  end.

Inductive DeleteResponse : Type :=
| DeleteBadRequest (code : string)
| DeleteNotFound
| DeleteOk.

(** [DELETE]: the store after the call and the response. *)
Definition deleteChat (chatSessions : gmap string ChatSession.t)
    (sessionId : option string) : gmap string ChatSession.t * DeleteResponse :=
  match sessionId with
  | None => (chatSessions, DeleteBadRequest "MISSING_SESSION_ID")
  | Some key =>
      if String.eqb key "" then (chatSessions, DeleteBadRequest "MISSING_SESSION_ID")
      else if String.length (JS.trim key) =? 0
      then (chatSessions, DeleteBadRequest "INVALID_SESSION_ID")
      else
        match chatSessions !! key with
        | None => (chatSessions, DeleteNotFound)
        | Some _ => (delete key chatSessions, DeleteOk)
        end
  end.


(** ** Fetching a transcript with fallback languages ([src/lib/youtube.ts]) *)

Inductive TranscriptErrorCode : Type :=
| INVALID_URL
| VIDEO_NOT_FOUND
| NO_CAPTIONS_AVAILABLE
| LANGUAGE_NOT_AVAILABLE
| PRIVATE_VIDEO
| REGION_BLOCKED
| NETWORK_ERROR
| RATE_LIMITED
| UNKNOWN_ERROR.

#[global] Instance TranscriptErrorCode_eq_dec : EqDecision TranscriptErrorCode.
Proof. solve_decision. Defined.

Module YouTubeTranscriptError.
Record t : Type := mk {
  message : string;
  code : TranscriptErrorCode;
  videoId : string;
  language : string
}.
End YouTubeTranscriptError.

(** What [getSubtitles] can throw: an [Error] with its message, a string,
    or [null] or [undefined]. *)
Inductive Thrown : Type :=
| ThrownError (message : string)
| ThrownString (text : string)
| ThrownNullish.

(** [error?.message || error?.toString() || 'Unknown error'] *)
Definition thrownMessage (error : Thrown) : string :=
  match error with
  | ThrownError message =>
      if String.eqb message "" then "Error" else message
  | ThrownString text =>
      if String.eqb text "" then "Unknown error" else text
  | ThrownNullish => "Unknown error"
  end.

(** [parseTranscriptError(error, videoId, language)] *)
Definition parseTranscriptError (error : Thrown) (videoId language : string)
  : YouTubeTranscriptError.t :=
  let errorMessage := thrownMessage error in
  let lowerMessage := JS.toLowerCase errorMessage in
  if JS.includes lowerMessage "video unavailable"
     || JS.includes lowerMessage "video not found"
  then YouTubeTranscriptError.mk
         ("Video " +:+ videoId +:+ " is not available or does not exist")
         VIDEO_NOT_FOUND videoId language
  else if JS.includes lowerMessage "no captions"
          || JS.includes lowerMessage "no subtitles"
  then YouTubeTranscriptError.mk
         ("No captions available for video " +:+ videoId)
         NO_CAPTIONS_AVAILABLE videoId language
  else if JS.includes lowerMessage "language not available"
          || JS.includes lowerMessage "lang"
  then YouTubeTranscriptError.mk
         ("Language '" +:+ language +:+ "' not available for video " +:+ videoId)
         LANGUAGE_NOT_AVAILABLE videoId language
  else if JS.includes lowerMessage "private"
          || JS.includes lowerMessage "restricted"
  then YouTubeTranscriptError.mk
         ("Video " +:+ videoId +:+ " is private or restricted")
         PRIVATE_VIDEO videoId language
  else if JS.includes lowerMessage "blocked"
          || JS.includes lowerMessage "region"
  then YouTubeTranscriptError.mk
         ("Video " +:+ videoId +:+ " is blocked in your region")
         REGION_BLOCKED videoId language
  else if JS.includes lowerMessage "network"
          || JS.includes lowerMessage "timeout"
          || JS.includes lowerMessage "fetch"
  then YouTubeTranscriptError.mk
         ("Network error while fetching transcript for video " +:+ videoId)
         NETWORK_ERROR videoId language
  else if JS.includes lowerMessage "rate limit"
          || JS.includes lowerMessage "too many requests"
  then YouTubeTranscriptError.mk
         ("Rate limited while fetching transcript for video " +:+ videoId)
         RATE_LIMITED videoId language
  else YouTubeTranscriptError.mk
         ("Failed to fetch transcript for video " +:+ videoId
          +:+ " in language " +:+ language +:+ ": " +:+ errorMessage)
         UNKNOWN_ERROR videoId language.

(** What a call of [getSubtitles] does: it returns captions, returns
    [null] or [undefined], or throws. *)
Inductive SubtitleOutcome : Type :=
| Captions (captions : list TranscriptItem.t)
| NoCaptions
| Throws (error : Thrown).

(** [fetchTranscript(videoId, lang)] on the outcome of its call of
    [getSubtitles]. *)
Definition fetchTranscript (outcome : SubtitleOutcome) (videoId lang : string)
  : list TranscriptItem.t + YouTubeTranscriptError.t :=
  let noCaptions :=
    YouTubeTranscriptError.mk
      ("No captions found for video " +:+ videoId +:+ " in language " +:+ lang)
      NO_CAPTIONS_AVAILABLE videoId lang in
  match outcome with
  | Captions captions =>
      if length captions =? 0 then inr noCaptions else inl captions
  | NoCaptions => inr noCaptions
  | Throws error => inr (parseTranscriptError error videoId lang)
  end.

(** The codes after which [fetchTranscriptWithFallback] tries no other
    language. *)
Definition isVideoLevel (code : TranscriptErrorCode) : bool :=
  bool_decide (code ∈ [VIDEO_NOT_FOUND; PRIVATE_VIDEO; REGION_BLOCKED;
                       NO_CAPTIONS_AVAILABLE]).

(** [[preferredLang, ...fallbackLangs.filter(lang => lang !== preferredLang)]] *)
Definition langsToTryOf (preferredLang : string) (fallbackLangs : list string)
  : list string :=
  preferredLang :: filter (fun lang => lang <> preferredLang) fallbackLangs.

Fixpoint indexOfFrom (x : string) (arr : list string) (from : Z) : Z :=
  match arr with
  | [] => (-1)%Z
  | y :: rest => if String.eqb y x then from else indexOfFrom x rest (from + 1)%Z
  end.

(** [arr.indexOf(x)] *)
Definition indexOf (x : string) (arr : list string) : Z := indexOfFrom x arr 0.

Inductive FallbackResult : Type :=
| FallbackOk (transcript : list TranscriptItem.t) (language languageName : string)
    (attemptedLanguages : list string)
| FallbackError (error : YouTubeTranscriptError.t).

(** The loop of [fetchTranscriptWithFallback] over the languages still to
    try.  [getSubtitles n lang] is the outcome of the call number [n] of
    [getSubtitles], made for [lang]; the result comes with the number of
    calls made so far.  [languageNameOf lang] is
    [SUPPORTED_LANGUAGES[lang] || lang]. *)
Fixpoint tryLanguages (getSubtitles : nat -> string -> SubtitleOutcome)
    (languageNameOf : string -> string)
    (videoId preferredLang : string) (langsToTry : list string)
    (calls : nat) (remaining : list string) : FallbackResult * nat :=
  match remaining with
  | [] =>
      (FallbackError
         (YouTubeTranscriptError.mk
            ("No transcript available for video " +:+ videoId
             +:+ " in any of the attempted languages: "
             +:+ JS.join ", " langsToTry)
            LANGUAGE_NOT_AVAILABLE videoId preferredLang),
       calls)
  | lang :: rest =>
      match fetchTranscript (getSubtitles calls lang) videoId lang with
      | inl transcript =>
          (FallbackOk transcript lang (languageNameOf lang)
             (JS.slice_to (Z.to_nat (indexOf lang langsToTry + 1)) langsToTry),
           S calls)
      | inr error =>
          if isVideoLevel (YouTubeTranscriptError.code error)
          then (FallbackError error, S calls)
          else tryLanguages getSubtitles languageNameOf videoId preferredLang
                 langsToTry (S calls) rest
      end
  end.

(** [fetchTranscriptWithFallback(videoId, preferredLang, fallbackLangs)]:
    the transcript with its language, or the error thrown, and the number
    of calls of [getSubtitles]. *)
Definition fetchTranscriptWithFallback
    (getSubtitles : nat -> string -> SubtitleOutcome)
    (languageNameOf : string -> string)
    (videoId preferredLang : string) (fallbackLangs : list string)
  : FallbackResult * nat :=
  let langsToTry := langsToTryOf preferredLang fallbackLangs in
  tryLanguages getSubtitles languageNameOf videoId preferredLang langsToTry
    0 langsToTry.

(** [getStatusCodeForError(errorCode)] of the transcript route. *)
Definition getStatusCodeForError (errorCode : TranscriptErrorCode) : Z :=
  match errorCode with
  | INVALID_URL => 400
  | VIDEO_NOT_FOUND | NO_CAPTIONS_AVAILABLE | LANGUAGE_NOT_AVAILABLE => 404
  | PRIVATE_VIDEO | REGION_BLOCKED => 403
  | RATE_LIMITED => 429
  | NETWORK_ERROR => 502
  | UNKNOWN_ERROR => 500
  end.

(** The first language answers with an empty list, the others would have
    captions. *)
Definition sample_getSubtitles (call : nat) (lang : string) : SubtitleOutcome :=
  if String.eqb lang "en" then Captions []
  else Captions [TranscriptItem.mk "0" "2" "hola"].

(** Every call times out. *)
Definition failing_getSubtitles (call : nat) (lang : string) : SubtitleOutcome :=
  Throws (ThrownError "Request timeout").

(** The first language is not available, the second has captions. *)
Definition spanish_getSubtitles (call : nat) (lang : string) : SubtitleOutcome :=
  if String.eqb lang "es" then Captions [TranscriptItem.mk "0" "2" "hola"]
  else Throws (ThrownError "Could not find captions for lang").

(** The call number [call], made for [lang], fails with an error that lets
    the search go on to the next language. *)
Definition languageLevelFailure (getSubtitles : nat -> string -> SubtitleOutcome)
    (videoId : string) (call : nat) (lang : string) : Prop :=
  exists error,
    fetchTranscript (getSubtitles call lang) videoId lang = inr error
    /\ isVideoLevel (YouTubeTranscriptError.code error) = false.

(** ** The [POST] handler of the chat route ([src/app/api/chat/route.ts]) *)

(** A number of the request body: a finite number, or an infinity (the
    reading of a literal too large for a double). *)
Inductive JSONNumber : Type :=
| JFinite (q : Q)
| JInfinity (negative : bool).

(** A field of the request body as [request.json()] gives it.  [JObject]
    stands for every object and every array. *)
Inductive JSValue : Type :=
| JUndefined
| JNull
| JBool (b : bool)
| JNumber (n : JSONNumber)
| JString (s : string)
| JObject.

(** The value counts as true in a condition. *)
Definition truthy (v : JSValue) : bool :=
  match v with
  | JUndefined | JNull => false
  | JBool b => b
  | JNumber (JFinite q) => negb (Qeq_bool q 0)
  | JNumber (JInfinity _) => true
  | JString s => negb (String.eqb s "")
  | JObject => true
  end.

(** [typeof v === 'string'] *)
Definition isString (v : JSValue) : bool :=
  match v with
  | JString _ => true
  | _ => false
  end.

(** [n < bound] *)
Definition numberLt (n : JSONNumber) (bound : Z) : bool :=
  match n with
  | JFinite q => negb (Qle_bool (inject_Z bound) q)
  | JInfinity negative => negative
  end.

(** [n > bound] *)
Definition numberGt (n : JSONNumber) (bound : Z) : bool :=
  match n with
  | JFinite q => negb (Qle_bool q (inject_Z bound))
  | JInfinity negative => negb negative
  end.

(** The fields line 58 reads from the body. *)
Module ChatRequest.
Record t : Type := mk {
  message : JSValue;
  videoId : JSValue;
  sessionId : JSValue;
  model : JSValue;
  temperature : JSValue;
  maxTokens : JSValue
}.
End ChatRequest.

(** What [await request.json()] and the destructuring of line 58 give: the
    body is not JSON ([request.json()] throws a [SyntaxError]), it is
    [null] (the destructuring throws a [TypeError]), or it has the fields
    read from it (a missing field, and every field of a body that is a
    number, a string, a boolean or an array, is [JUndefined]). *)
Inductive RequestBody : Type :=
| BodyInvalidJson
| BodyNull
| BodyValue (body : ChatRequest.t).

(** A character of the class [[a-zA-Z0-9_-]]. *)
Definition isVideoIdChar (c : ascii) : bool :=
  let n := nat_of_ascii c in
  ((97 <=? n) && (n <=? 122)) || ((65 <=? n) && (n <=? 90))
  || ((48 <=? n) && (n <=? 57)) || (n =? 95) || (n =? 45).

(** [/^[a-zA-Z0-9_-]{11}$/.test(videoId)] *)
Definition isVideoIdFormat (videoId : string) : bool :=
  (String.length videoId =? 11)
  && forallb isVideoIdChar (list_ascii_of_string videoId).

(** Lines 60-94: the validation errors of a request, in the order they are
    pushed. *)
Definition validateRequest (body : ChatRequest.t) : list string :=
  (match ChatRequest.message body with
   | JString message =>
       if String.eqb message ""
       then ["Message is required and must be a string"%string]
       else if String.length (JS.trim message) =? 0
       then ["Message cannot be empty"%string]
       else if 4000 <? String.length message
       then ["Message is too long (maximum 4000 characters)"%string]
       else []
   | _ => ["Message is required and must be a string"%string]
   end)
  ++ (match ChatRequest.videoId body with
      | JString videoId =>
          if String.eqb videoId ""
          then ["Video ID is required and must be a string"%string]
          else if negb (isVideoIdFormat videoId)
          then ["Invalid YouTube video ID format"%string]
          else []
      | _ => ["Video ID is required and must be a string"%string]
      end)
  ++ (if truthy (ChatRequest.sessionId body)
         && negb (isString (ChatRequest.sessionId body))
      then ["Session ID must be a string if provided"%string] else [])
  ++ (if truthy (ChatRequest.model body)
         && negb (isString (ChatRequest.model body))
      then ["Model must be a string if provided"%string] else [])
  ++ (match ChatRequest.temperature body with
      | JUndefined => []
      | JNumber n =>
          if numberLt n 0 || numberGt n 2
          then ["Temperature must be a number between 0 and 2"%string] else []
      | _ => ["Temperature must be a number between 0 and 2"%string]
      end)
  ++ (match ChatRequest.maxTokens body with
      | JUndefined => []
      | JNumber n =>
          if numberLt n 1 || numberGt n 8000
          then ["Max tokens must be a number between 1 and 8000"%string] else []
      | _ => ["Max tokens must be a number between 1 and 8000"%string]
      end).

(** The default [maxAge] of [cleanupOldSessions]: 24 hours. *)
Definition DEFAULT_MAX_AGE : Z := 24 * 60 * 60 * 1000.

(** What the environment supplies to one [POST]: whether
    [Math.random() < 0.1] holds, the clock reading of the clean-up, the
    outcomes of the calls of [getSubtitles], the identifier and the two clock
    readings of a new session, and the environment of the turn. *)
Module PostEnv.
Record t : Type := mk {
  sweeps : bool;
  sweepClock : Z;
  getSubtitles : nat -> string -> SubtitleOutcome;
  sessionUuid : string;
  createdClock : Z;
  updatedClock : Z;
  turn : TurnEnv
}.
End PostEnv.

(** Lines 49-55: the store after the periodic clean-up. *)
Definition sweepSessions (env : PostEnv.t)
    (chatSessions : gmap string ChatSession.t) : gmap string ChatSession.t :=
  if PostEnv.sweeps env
  then (cleanupOldSessions (PostEnv.sweepClock env) chatSessions
          DEFAULT_MAX_AGE).1
  else chatSessions.

(** Lines 116-135: the session a successful fetch creates. *)
Definition newSession (env : PostEnv.t) (videoId : string)
    (transcript : list TranscriptItem.t) : ChatSession.t :=
  let videoUrl := "https://www.youtube.com/watch?v=" +:+ videoId in
  let videoTitle := extractVideoTitle videoId videoUrl in
  ChatSession.mk (PostEnv.sessionUuid env) videoId videoTitle videoUrl
    transcript [] (PostEnv.createdClock env) (PostEnv.updatedClock env).

(** The status and code lines 141-197 answer a failed fetch with, from the
    message of the error. *)
Definition transcriptFailure (message : string) : Z * string :=
  let errorMessage := JS.toLowerCase message in
  if JS.includes errorMessage "video unavailable"
     || JS.includes errorMessage "not found"
  then (404%Z, "VIDEO_NOT_FOUND")
  else if JS.includes errorMessage "no captions"
          || JS.includes errorMessage "no subtitles"
  then (400%Z, "NO_CAPTIONS_AVAILABLE")
  else if JS.includes errorMessage "private"
          || JS.includes errorMessage "restricted"
  then (403%Z, "PRIVATE_VIDEO")
  else if JS.includes errorMessage "rate limit"
          || JS.includes errorMessage "too many requests"
  then (429%Z, "RATE_LIMITED")
  else (500%Z, "TRANSCRIPT_FETCH_ERROR").

(** The responses of [POST].  [PostCaught] is a response of the outer
    [catch] (lines 327-372), [PostCompletionFailed] the response of lines
    315-324, whose status and code come from [parseOpenAIError].  Only
    [PostReplied] (lines 258-269) carries a [sessionId]; its [usage] and
    [model], read from the completion, are left out. *)
Inductive PostResponse : Type :=
| PostCaught (status : Z) (code : string)
| PostValidationFailed (details : list string)
| PostFetchFailed (status : Z) (code : string)
| PostInvalidSession (details : list string)
| PostCompletionFailed
| PostReplied (message : ChatMessage.t) (sessionId : string).

(** The [sessionId] of a response, when it has one. *)
Definition responseSessionId (response : PostResponse) : option string :=
  match response with
  | PostReplied _ sessionId => Some sessionId
  | _ => None
  end.

(** The response to a turn on [session]. *)
Definition turnResponse (env : TurnEnv) (session : ChatSession.t)
    (result : TurnResult) : PostResponse :=
  match result with
  | InvalidSession errors => PostInvalidSession errors
  | InternalError => PostCaught 400 "TYPE_ERROR"
  | CompletionFailed => PostCompletionFailed
  | Replied assistantContent =>
      PostReplied
        (assistantMessageOf session (assistantUuid env) assistantContent
           (assistantClock env))
        (ChatSession.id session)
  end.

(** [sessionId ? chatSessions.get(sessionId) : null], with the key the
    session is stored under. *)
Definition findSession (chatSessions : gmap string ChatSession.t)
    (sessionId : JSValue) : option (string * ChatSession.t) :=
  if truthy sessionId
  then match sessionId with
       | JString key =>
           match chatSessions !! key with
           | Some session => Some (key, session)
           | None => None
           end
       | _ => None
       end
  else None.

(** [POST]: the store after the request and the response.  The clean-up
    runs first; the body is read and validated; the session is looked up or
    created from [fetchTranscriptWithFallback(videoId)]; the turn runs on it,
    and the store holds the session as the turn leaves it (the handler
    mutates the object the map holds). *)
Definition postChat (parseFloat : string -> JSNumber)
    (languageNameOf : string -> string) (env : PostEnv.t)
    (chatSessions : gmap string ChatSession.t) (request : RequestBody)
  : gmap string ChatSession.t * PostResponse :=
  let swept := sweepSessions env chatSessions in
  match request with
  | BodyInvalidJson => (swept, PostCaught 400 "INVALID_JSON")
  | BodyNull => (swept, PostCaught 400 "TYPE_ERROR")
  | BodyValue body =>
      let validationErrors := validateRequest body in
      if 0 <? length validationErrors
      then (swept, PostValidationFailed validationErrors)
      else
        match ChatRequest.message body, ChatRequest.videoId body with
        | JString message, JString videoId =>
            match findSession swept (ChatRequest.sessionId body) with
            | Some (key, session) =>
                let turn := chatTurn parseFloat (PostEnv.turn env) session message in
                (<[key := turn.1]> swept,
                 turnResponse (PostEnv.turn env) session turn.2)
            | None =>
                match (fetchTranscriptWithFallback (PostEnv.getSubtitles env)
                         languageNameOf videoId "en" ["en"; "es"; "fr"; "de"]).1 with
                | FallbackError error =>
                    let failure :=
                      transcriptFailure (YouTubeTranscriptError.message error) in
                    (swept, PostFetchFailed failure.1 failure.2)
                | FallbackOk transcript _ _ _ =>
                    let session := newSession env videoId transcript in
                    let turn :=
                      chatTurn parseFloat (PostEnv.turn env) session message in
                    (<[ChatSession.id session := turn.1]> swept,
                     turnResponse (PostEnv.turn env) session turn.2)
                end
            end
        | _, _ =>
            (* not reached: a request without validation errors has strings
               for both *)
            (swept, PostValidationFailed validationErrors)
        end
  end.

(** A valid request for a new chat about a video. *)
Definition sample_request : ChatRequest.t :=
  ChatRequest.mk (JString "hello") (JString "dQw4w9WgXcQ") JUndefined JUndefined
    JUndefined JUndefined.

(** A request that names the session ["session-1"] and another video. *)
Definition sample_followup : ChatRequest.t :=
  ChatRequest.mk (JString "hello") (JString "AAAAAAAAAAA") (JString "session-1")
    JUndefined JUndefined JUndefined.

(** A [POST] at time 4000 without clean-up; Spanish captions are found. *)
Definition sample_post : PostEnv.t :=
  PostEnv.mk false 4000 spanish_getSubtitles "session-9" 4000 4001 replying_env.

(** A [POST] more than 24 hours later, with the clean-up. *)
Definition sweeping_post : PostEnv.t :=
  PostEnv.mk true 100000000 spanish_getSubtitles "session-9" 100000000
    100000001 replying_env.

(** ** The transcript page ([src/app/page.tsx]) *)

(** The [formatTime] of the [srt] download of the page (lines 194-199):
    the hours are always printed, and the comma is put in the seconds. *)
Definition pageFormatTime (seconds : JSNumber) : string :=
  let hours := Num.floor (Num.divBy 3600 seconds) in
  let minutes := Num.floor (Num.divBy 60 (Num.remBy 3600 seconds)) in
  let secs := Num.remBy 60 seconds in
  JS.padStart 2 "0" (Num.toString hours) +:+ ":"
  +:+ JS.padStart 2 "0" (Num.toString minutes) +:+ ":"
  +:+ JS.replaceFirst "." "," (JS.padStart 6 "0" (Num.toFixed3 secs)).

(** The [srt] branch of [downloadTranscript] (lines 187-202). *)
Definition pageSrtBlock (parseFloat : string -> JSNumber) (index : nat)
    (item : TranscriptItem.t) : string :=
  let start := parseFloat (TranscriptItem.start item) in
  let duration := parseFloat (TranscriptItem.dur item) in
  let end_ := Num.add start duration in
  Num.decimal (Z.of_nat (index + 1)) +:+ JS.newline
  +:+ pageFormatTime start +:+ " --> " +:+ pageFormatTime end_ +:+ JS.newline
  +:+ TranscriptItem.text item +:+ JS.newline.

Definition pageSrt (parseFloat : string -> JSNumber)
    (transcript : list TranscriptItem.t) : string :=
  JS.join JS.newline (imap (pageSrtBlock parseFloat) transcript).

(** ** The definitions on small inputs *)

Example splitWhiteSpace_runs :
  JS.splitWhiteSpace " is  it ok " = [""; "is"; "it"; "ok"; ""]%string.
Proof. reflexivity. Qed.

Example toLowerCase_ascii : JS.toLowerCase "What IS Rust?" = "what is rust?"%string.
Proof. reflexivity. Qed.

Example queryWordsOf_short_words : queryWordsOf (JS.toLowerCase "is it ok") = [].
Proof. reflexivity. Qed.

Example queryWordsOf_long_words :
  queryWordsOf (JS.toLowerCase "How is Rust used") = ["how"; "rust"; "used"]%string.
Proof. reflexivity. Qed.

Example slice_from_last_two : JS.slice_from (-2) [1; 2; 3] = [2; 3].
Proof. reflexivity. Qed.

Example slice_from_short : JS.slice_from (-20) [1; 2; 3] = [1; 2; 3].
Proof. reflexivity. Qed.

(** Equal keys keep their order, greater scores come first. *)
Example sort_is_stable :
  JS.sort (fun a b => (Z.of_nat b.1 - Z.of_nat a.1)%Z)
          [(1, "a"); (3, "b"); (1, "c"); (3, "d"); (2, "e")]%string
  = [(3, "b"); (3, "d"); (2, "e"); (1, "a"); (1, "c")]%string.
Proof. reflexivity. Qed.

Example estimateTokenCount_examples :
  estimateTokenCount "" = 0 /\ estimateTokenCount "abcd" = 1
  /\ estimateTokenCount "abcde" = 2.
Proof. repeat split. Qed.

Example formatTime_examples :
  formatTime (Fin 0) = "00:00.000"%string
  /\ formatTime (Fin (753 # 10)) = "01:15.300"%string
  /\ formatTime (Fin (7323 # 2)) = "01:01:01.500"%string.
Proof. repeat split; vm_compute; reflexivity. Qed.

Example matchCount_examples :
  RegExp.matchCount "aaa" "aaaaaaa" = Some 2
  /\ RegExp.matchCount "a.c" "abc adc a c" = Some 3
  /\ RegExp.matchCount "c++" "c++ code" = None.
Proof. repeat split. Qed.

(** Three messages of 1, 10 and 2 tokens under a budget of 5: the oldest
    conversation message goes. *)
Example trimContextToTokenLimit_drops_oldest :
  trimContextToTokenLimit [sample_system; sample_question; sample_reply] 5
  = Some [sample_system; sample_reply].
Proof. reflexivity. Qed.

(** A query of words of at most two characters returns the first
    [maxSegments] segments, whatever the matching of regular expressions. *)
Lemma findRelevantTranscriptSegments_no_words
    (regexMatchCount : string -> string -> option nat) (query : string)
    (transcript : list TranscriptItem.t) (maxSegments : nat) :
  queryWordsOf (JS.toLowerCase query) = [] ->
  findRelevantTranscriptSegments regexMatchCount query transcript maxSegments
  = Some (take maxSegments transcript).
Proof.
  intros Hwords. unfold findRelevantTranscriptSegments. by rewrite Hwords.
Qed.

(** ** Token budgeter: lemmas *)

Section TokenLemmas.

Implicit Types (m sys : ContextMessage.t) (l rest : list ContextMessage.t).


Lemma fold_tokens_acc l (a : nat) :
  fold_left
    (fun total msg => total + estimateTokenCount (ContextMessage.content msg)) l a
  = a + calculateContextTokens l.
Proof.
  unfold calculateContextTokens.
  revert a; induction l as [|m l IH]; intros a; simpl; [lia|].
  rewrite (IH (a + _)), (IH (estimateTokenCount _)). lia.
Qed.

Lemma calculateContextTokens_cons m l :
  calculateContextTokens (m :: l)
  = estimateTokenCount (ContextMessage.content m) + calculateContextTokens l.
Proof.
  unfold calculateContextTokens at 1. simpl. rewrite fold_tokens_acc. lia.
Qed.

(** The loop stops at the first suffix that fits, or at the last message. *)
Lemma trimLoop_spec sys maxTokens l :
  exists k,
    trimLoop sys maxTokens l = drop k l
    /\ k <= length l - 1
    /\ (forall j, j < k ->
          (maxTokens < Z.of_nat (calculateContextTokens (sys :: drop j l)))%Z)
    /\ ((Z.of_nat (calculateContextTokens (sys :: drop k l)) <= maxTokens)%Z
        \/ length (drop k l) <= 1).
Proof.
  induction l as [|m l IH].
  - exists 0. simpl. repeat split; [lia | intros; lia | right; lia].
  - cbn [trimLoop].
    destruct (maxTokens <? _)%Z eqn:Hover; cbn [andb].
    + destruct (1 <? length (m :: l)) eqn:Hlen.
      * destruct IH as (k & Hk & Hle & Hmin & Hstop).
        apply Nat.ltb_lt in Hlen. simpl in Hlen.
        exists (S k). cbn [drop]. repeat split; try assumption.
        -- simpl. lia.
        -- intros [|j] Hj.
           ++ cbn [drop]. rewrite calculateContextTokens_cons.
              apply Z.ltb_lt in Hover. exact Hover.
           ++ cbn [drop]. apply Hmin. lia.
      * apply Nat.ltb_ge in Hlen.
        exists 0. cbn [drop]. repeat split; [lia | intros; lia | right; exact Hlen].
    + apply Z.ltb_ge in Hover.
      exists 0. cbn [drop]. repeat split; [lia | intros; lia | left].
      rewrite calculateContextTokens_cons. exact Hover.
Qed.

Lemma trimLoop_short sys maxTokens l :
  length l <= 1 -> trimLoop sys maxTokens l = l.
Proof.
  destruct l as [|m l]; [reflexivity|]. intros Hlen. cbn [trimLoop].
  replace (1 <? length (m :: l)) with false
    by (symmetry; apply Nat.ltb_ge; exact Hlen).
  rewrite andb_false_r. reflexivity.
Qed.

Lemma slice_last_drop {A} (l : list A) :
  JS.slice_from (-1) l = drop (length l - 1) l.
Proof.
  unfold JS.slice_from. cbn [Z.ltb Z.compare]. f_equal. lia.
Qed.

Lemma drop_short_is_last {A} (l : list A) k :
  k <= length l - 1 -> length (drop k l) <= 1 -> drop k l = drop (length l - 1) l.
Proof.
  intros Hk Hlen. rewrite length_drop in Hlen.
  destruct l as [|x l]; [by rewrite !drop_nil|].
  simpl in *. f_equal. lia.
Qed.

End TokenLemmas.

(** ** Token budgeter: the claims *)

(** C1, as stated, fails: with the system message (1 token) and one user
    message (10 tokens) under a budget of 5, removing the user message would
    reach the budget, but the loop never shifts out the last conversation
    message and the list comes back whole, 11 tokens. *)
Lemma trimContextToTokenLimit_keeps_latest_over_budget :
  ContextMessage.role sample_system = system
  /\ ~ fits_whenever_achievable [sample_system; sample_question] 5.
Proof.
  split; [reflexivity|]. intros Hclaim.
  destruct Hclaim as (trimmed & Htrim & Hfit).
  - exists [sample_system]. split.
    + apply rns_keep, rns_drop; [discriminate | apply rns_nil].
    + vm_compute. discriminate.
  - vm_compute in Htrim. injection Htrim as <-.
    vm_compute in Hfit. apply Hfit. reflexivity.
Qed.

(** C1, amended: when the first message together with the most recent of
    the other messages is within the budget, the result is the first message
    followed by the longest suffix of the others that fits: it is within
    the budget, and every longer suffix is over it (the oldest messages go
    first). *)
Theorem trimContextToTokenLimit_fits_keeping_latest
    (sys : ContextMessage.t) (rest : list ContextMessage.t) (maxTokens : Z) :
  (Z.of_nat (calculateContextTokens (sys :: JS.slice_from (-1) rest))
   <= maxTokens)%Z ->
  exists k,
    trimContextToTokenLimit (sys :: rest) maxTokens = Some (sys :: drop k rest)
    /\ (Z.of_nat (calculateContextTokens (sys :: drop k rest)) <= maxTokens)%Z
    /\ forall j, j < k ->
         (maxTokens < Z.of_nat (calculateContextTokens (sys :: drop j rest)))%Z.
Proof.
  intros Hlast. unfold trimContextToTokenLimit.
  destruct (Z.of_nat (calculateContextTokens (sys :: rest)) <=? maxTokens)%Z
    eqn:Hall.
  - apply Z.leb_le in Hall. exists 0. cbn [drop].
    repeat split; [exact Hall | intros; lia].
  - destruct (trimLoop_spec sys maxTokens rest) as (k & -> & Hk & Hmin & Hstop).
    exists k. repeat split; [|exact Hmin].
    destruct Hstop as [Hfit|Hshort]; [exact Hfit|].
    rewrite (drop_short_is_last rest k Hk Hshort), <- slice_last_drop.
    exact Hlast.
Qed.

Lemma trimContextToTokenLimit_fits_keeping_latest_witness :
  exists k,
    trimContextToTokenLimit [sample_system; sample_question; sample_reply] 5
    = Some (sample_system :: drop k [sample_question; sample_reply])
    /\ (Z.of_nat (calculateContextTokens
                    (sample_system :: drop k [sample_question; sample_reply]))
        <= 5)%Z
    /\ forall j, j < k ->
         (5 < Z.of_nat (calculateContextTokens
                          (sample_system :: drop j [sample_question; sample_reply])))%Z.
Proof.
  apply (trimContextToTokenLimit_fits_keeping_latest
           sample_system [sample_question; sample_reply] 5).
  vm_compute. discriminate.
Defined.

(** C5: trimming is idempotent.  The list the call returns is returned
    unchanged by the call on it with the same budget.  The call returns a
    list for every input but the empty list with a negative budget, where
    the source throws. *)
Theorem trimContextToTokenLimit_idempotent
    (messages : list ContextMessage.t) (maxTokens : Z) :
  match trimContextToTokenLimit messages maxTokens with
  | Some trimmed => trimContextToTokenLimit trimmed maxTokens = Some trimmed
  | None => messages = [] /\ (maxTokens < 0)%Z
  end.
Proof.
  unfold trimContextToTokenLimit at 1.
  destruct (Z.of_nat (calculateContextTokens messages) <=? maxTokens)%Z eqn:Hall.
  - unfold trimContextToTokenLimit. by rewrite Hall.
  - destruct messages as [|sys rest].
    { apply Z.leb_gt in Hall. cbn in Hall. split; [reflexivity | lia]. }
    unfold trimContextToTokenLimit.
    destruct (Z.of_nat (calculateContextTokens
                          (sys :: trimLoop sys maxTokens rest)) <=? maxTokens)%Z
      eqn:Hout; [reflexivity|].
    destruct (trimLoop_spec sys maxTokens rest) as (k & Hk & _ & _ & Hstop).
    rewrite Hk in *. destruct Hstop as [Hfit|Hshort].
    + apply Z.leb_gt in Hout. lia.
    + by rewrite trimLoop_short.
Qed.

(** C9: on a non-empty list the call returns the first message followed
    by a suffix of the others, each message as it was; the result is never
    empty. *)
Theorem trimContextToTokenLimit_first_then_suffix
    (sys : ContextMessage.t) (rest : list ContextMessage.t) (maxTokens : Z) :
  exists trimmed k,
    trimContextToTokenLimit (sys :: rest) maxTokens = Some trimmed
    /\ k <= length rest
    /\ trimmed = sys :: drop k rest
    /\ trimmed <> [].
Proof.
  unfold trimContextToTokenLimit.
  destruct (Z.of_nat (calculateContextTokens (sys :: rest)) <=? maxTokens)%Z.
  - exists (sys :: rest), 0. cbn [drop]. repeat split; [lia | discriminate].
  - destruct (trimLoop_spec sys maxTokens rest) as (k & -> & Hk & _).
    exists (sys :: drop k rest), k. repeat split; [lia | discriminate].
Qed.

(** ** Context builder: lemmas and claims *)

Lemma string_length_append (s1 s2 : string) :
  String.length (s1 +:+ s2) = String.length s1 + String.length s2.
Proof. induction s1 as [|c s1 IH]; simpl; [reflexivity | by rewrite IH]. Qed.

Lemma string_length_substring0 (count : nat) (s : string) :
  String.length (String.substring 0 count s) = Nat.min count (String.length s).
Proof.
  revert s. induction count as [|count IH]; intros s.
  - by destruct s.
  - destruct s as [|c s]; simpl; [reflexivity | by rewrite IH].
Qed.

Lemma truncationMarker_length : String.length truncationMarker = 43.
Proof. reflexivity. Qed.

(** C10: the string returned by [formatTranscriptContext] has at most 50000
    characters.  A rendering longer than that is cut to its first 49900
    characters and the marker of 43 characters is appended, 49943 in all;
    a shorter one is returned as it is. *)
Theorem formatTranscriptContext_length_bound
    (parseFloat : string -> JSNumber) (transcript : list TranscriptItem.t) :
  (Z.of_nat (String.length (formatTranscriptContext parseFloat transcript))
   <= 50000)%Z
  /\ ((50000 < Z.of_nat (String.length (renderTranscript parseFloat transcript)))%Z ->
      formatTranscriptContext parseFloat transcript
      = JS.substring0 49900 (renderTranscript parseFloat transcript)
        +:+ truncationMarker
      /\ Z.of_nat (String.length
                     (JS.substring0 49900 (renderTranscript parseFloat transcript)))
         = 49900%Z
      /\ Z.of_nat (String.length (formatTranscriptContext parseFloat transcript))
         = 49943%Z)
  /\ ((Z.of_nat (String.length (renderTranscript parseFloat transcript)) <= 50000)%Z ->
      formatTranscriptContext parseFloat transcript
      = renderTranscript parseFloat transcript).
Proof.
  unfold formatTranscriptContext, MAX_TRANSCRIPT_CHARS.
  set (rendered := renderTranscript parseFloat transcript).
  replace (50000 - 100)%Z with 49900%Z by reflexivity.
  assert (Hcut : (50000 < Z.of_nat (String.length rendered))%Z ->
                 Z.of_nat (String.length (JS.substring0 49900 rendered)) = 49900%Z).
  { intros Hlong. unfold JS.substring0. rewrite string_length_substring0. lia. }
  destruct (50000 <? Z.of_nat (String.length rendered))%Z eqn:Hlong.
  - apply Z.ltb_lt in Hlong. specialize (Hcut Hlong).
    rewrite string_length_append, truncationMarker_length, Nat2Z.inj_add, Hcut.
    repeat split; try reflexivity; try lia.
  - apply Z.ltb_ge in Hlong. repeat split; try lia; reflexivity.
Qed.

Lemma slice_last_20 {A} (l : list A) :
  JS.slice_from (- MAX_CONTEXT_MESSAGES) l = drop (length l - 20) l.
Proof.
  unfold JS.slice_from, MAX_CONTEXT_MESSAGES.
  destruct (Z.ltb_spec (Z.opp 20) 0) as [_|Hpos]; [f_equal|]; lia.
Qed.

(** C6: with the system prompt included, the context is one message of role
    [system] followed by the last 20 stored messages (all of them when there
    are at most 20), each with the role and the content of the stored
    message, in their stored order; with 25 stored messages these are the
    messages after the first five, 21 messages in all. *)
Theorem buildConversationContext_system_then_recent
    (parseFloat : string -> JSNumber) (session : ChatSession.t) :
  exists recent,
    buildConversationContext parseFloat session true
    = ContextMessage.mk system (systemContent parseFloat session) :: recent
    /\ length recent = Nat.min 20 (length (ChatSession.messages session))
    /\ (forall i,
          i < length recent ->
          exists stored,
            ChatSession.messages session
              !! (length (ChatSession.messages session) - length recent + i)
            = Some stored
            /\ recent !! i
               = Some (ContextMessage.mk (ChatMessage.role stored)
                         (ChatMessage.content stored)))
    /\ map ContextMessage.role recent
       = map ChatMessage.role
           (drop (length (ChatSession.messages session) - 20)
                 (ChatSession.messages session))
    /\ map ContextMessage.content recent
       = map ChatMessage.content
           (drop (length (ChatSession.messages session) - 20)
                 (ChatSession.messages session))
    /\ (length (ChatSession.messages session) <= 20 ->
        map ContextMessage.role recent
        = map ChatMessage.role (ChatSession.messages session)
        /\ map ContextMessage.content recent
           = map ChatMessage.content (ChatSession.messages session))
    /\ (length (ChatSession.messages session) = 25 ->
        map ContextMessage.role recent
        = map ChatMessage.role (drop 5 (ChatSession.messages session))
        /\ map ContextMessage.content recent
           = map ChatMessage.content (drop 5 (ChatSession.messages session))
        /\ length (buildConversationContext parseFloat session true) = 21).
Proof.
  unfold buildConversationContext. rewrite slice_last_20. cbn [app].
  set (messages := ChatSession.messages session).
  set (stored := drop (length messages - 20) messages).
  assert (Hlength : length stored = Nat.min 20 (length messages))
    by (unfold stored; rewrite length_drop; lia).
  assert (Hroles : map ContextMessage.role (map toContextMessage stored)
                   = map ChatMessage.role stored)
    by (rewrite map_map; apply map_ext; reflexivity).
  assert (Hcontents : map ContextMessage.content (map toContextMessage stored)
                      = map ChatMessage.content stored)
    by (rewrite map_map; apply map_ext; reflexivity).
  exists (map toContextMessage stored).
  split; [reflexivity|]. rewrite length_map.
  split; [exact Hlength|]. split.
  { intros i Hi.
    destruct (lookup_lt_is_Some_2 stored i Hi) as [m Hm].
    exists m. split.
    - unfold stored in Hm. rewrite lookup_drop in Hm.
      rewrite <- Hm. f_equal. lia.
    - change (map toContextMessage stored) with (toContextMessage <$> stored).
      by rewrite list_lookup_fmap, Hm. }
  split; [exact Hroles|]. split; [exact Hcontents|]. split.
  - intros Hle. rewrite Hroles, Hcontents. unfold stored.
    replace (length messages - 20) with 0 by lia. by split.
  - intros Hlen. rewrite Hroles, Hcontents. unfold stored. rewrite Hlen.
    repeat split. cbn [length]. rewrite length_map, length_drop. lia.
Qed.

(** ** Session clean-up: the claim *)

(** C8: a clean-up at time [now] deletes exactly the sessions whose
    [updatedAt] is strictly before [now - maxAge], leaves every other entry
    of the store as it was, and returns the number of sessions deleted. *)
Theorem cleanupOldSessions_removes_exactly_expired
    (now : Z) (sessions : gmap string ChatSession.t) (maxAge : Z) :
  (forall sessionId,
     (cleanupOldSessions now sessions maxAge).1 !! sessionId
     = match sessions !! sessionId with
       | Some session =>
           if decide (expired now maxAge session) then None else Some session
       | None => None
       end)
  /\ (cleanupOldSessions now sessions maxAge).2
     = size (filter (fun entry => expired now maxAge entry.2) sessions)
  /\ (cleanupOldSessions now sessions maxAge).2
     = size sessions - size (cleanupOldSessions now sessions maxAge).1.
Proof.
  set (old := fun entry : string * ChatSession.t => expired now maxAge entry.2).
  assert (Hinv :
    (forall sessionId,
       (cleanupOldSessions now sessions maxAge).1 !! sessionId
       = match sessions !! sessionId with
         | Some session =>
             if decide (expired now maxAge session) then None
             else sessions !! sessionId
         | None => sessions !! sessionId
         end)
    /\ (cleanupOldSessions now sessions maxAge).2 = size (filter old sessions)).
  { unfold cleanupOldSessions.
    apply (map_fold_weak_ind (fun state visited =>
      (forall sessionId,
         state.1 !! sessionId
         = match visited !! sessionId with
           | Some session =>
               if decide (expired now maxAge session) then None
               else sessions !! sessionId
           | None => sessions !! sessionId
           end)
      /\ state.2 = size (filter old visited))).
    - split; [intros k; by rewrite lookup_empty|].
      by rewrite map_filter_empty, map_size_empty.
    - intros i x visited [kept count] Hfresh [Hlook Hcount]. cbn [fst snd] in *.
      unfold cleanupStep. cbn [fst snd].
      destruct (maxAge <? now - ChatSession.updatedAt x)%Z eqn:Hage.
      + apply Z.ltb_lt in Hage.
        assert (Hexp : expired now maxAge x) by (unfold expired; lia).
        cbn [fst snd]. split.
        * intros k. destruct (decide (i = k)) as [<-|Hne].
          -- rewrite lookup_delete_eq, lookup_insert_eq. by rewrite decide_True.
          -- rewrite lookup_delete_ne, lookup_insert_ne by done. apply Hlook.
        * rewrite map_filter_insert_True by exact Hexp.
          rewrite map_size_insert_None; [by rewrite Hcount|].
          apply map_lookup_filter_None. by left.
      + apply Z.ltb_ge in Hage.
        assert (Hexp : ~ expired now maxAge x) by (unfold expired; lia).
        split.
        * intros k. destruct (decide (i = k)) as [<-|Hne].
          -- rewrite lookup_insert_eq, decide_False by exact Hexp.
             rewrite Hlook, Hfresh. reflexivity.
          -- rewrite lookup_insert_ne by done. apply Hlook.
        * rewrite map_filter_insert_False by exact Hexp.
          by rewrite delete_id. }
  destruct Hinv as [Hlook Hcount].
  assert (Hkept : (cleanupOldSessions now sessions maxAge).1
                  = filter (fun entry => ~ old entry) sessions).
  { apply map_eq. intros k. rewrite Hlook, map_lookup_filter.
    destruct (sessions !! k) as [s|]; [|reflexivity]. cbn.
    unfold old. cbn. destruct (decide (expired now maxAge s)).
    - by rewrite option_guard_False by tauto.
    - by rewrite option_guard_True. }
  split; [|split].
  - intros k. rewrite Hlook. by destruct (sessions !! k).
  - exact Hcount.
  - rewrite Hcount, Hkept.
    rewrite <- (map_filter_union_complement old sessions) at 2.
    rewrite map_size_disj_union by apply map_disjoint_filter_complement. lia.
Qed.

(** ** Sorting: lemmas *)

Section SortLemmas.

Context {A : Type} (compare : A -> A -> Z).

Lemma insertBy_Permutation (x : A) (l : list A) :
  JS.insertBy compare x l ≡ₚ x :: l.
Proof.
  induction l as [|y l IH]; cbn [JS.insertBy]; [reflexivity|].
  destruct (compare x y <=? 0)%Z; [reflexivity|].
  rewrite IH. apply Permutation_swap.
Qed.

Lemma sort_Permutation (l : list A) : JS.sort compare l ≡ₚ l.
Proof.
  induction l as [|x l IH]; [reflexivity|].
  cbn. fold (JS.sort compare l). by rewrite insertBy_Permutation, IH.
Qed.

Lemma sort_length (l : list A) : length (JS.sort compare l) = length l.
Proof. apply Permutation_length, sort_Permutation. Qed.

Hypothesis compare_trans :
  forall a b c, (compare a b <= 0 -> compare b c <= 0 -> compare a c <= 0)%Z.
Hypothesis compare_total : forall a b, (compare a b <= 0 \/ compare b a <= 0)%Z.

Lemma insertBy_sorted (x : A) (l : list A) :
  StronglySorted (fun a b => (compare a b <= 0)%Z) l ->
  StronglySorted (fun a b => (compare a b <= 0)%Z) (JS.insertBy compare x l).
Proof.
  induction 1 as [|y l Hsorted IH Hy]; cbn [JS.insertBy].
  - repeat constructor.
  - destruct (compare x y <=? 0)%Z eqn:Hxy.
    + apply Z.leb_le in Hxy. constructor; [by constructor|].
      constructor; [exact Hxy|].
      eapply Forall_impl; [exact Hy|]. intros z Hyz. cbn in *. eauto.
    + apply Z.leb_gt in Hxy. constructor; [exact IH|].
      rewrite insertBy_Permutation. constructor; [|exact Hy].
      destruct (compare_total x y); lia.
Qed.

Lemma sort_sorted (l : list A) :
  StronglySorted (fun a b => (compare a b <= 0)%Z) (JS.sort compare l).
Proof.
  induction l as [|x l IH]; [constructor|].
  cbn. fold (JS.sort compare l). by apply insertBy_sorted.
Qed.

End SortLemmas.

(** A list sorted on a key that is taken from a list strictly sorted on
    that key is a sublist of it. *)
Section SortedSublist.

Context {A : Type} (key : A -> nat).

Lemma strictly_sorted_key_inj (l : list A) (x y : A) :
  StronglySorted (fun a b => key a < key b) l ->
  x ∈ l -> y ∈ l -> key x = key y -> x = y.
Proof.
  induction 1 as [|z l Hsorted IH Hz]; [by intros ?%elem_of_nil|].
  rewrite Forall_forall in Hz.
  intros [->|Hx]%elem_of_cons [->|Hy]%elem_of_cons Hkey; auto.
  - specialize (Hz _ Hy). lia.
  - specialize (Hz _ Hx). lia.
Qed.

Lemma sublist_StronglySorted (R : relation A) (l1 l2 : list A) :
  l1 `sublist_of` l2 -> StronglySorted R l2 -> StronglySorted R l1.
Proof.
  induction 1 as [|x l1 l2 Hsub IH|x l1 l2 Hsub IH]; intros Hsorted.
  - constructor.
  - apply StronglySorted_cons in Hsorted as [Hx Hsorted].
    constructor; [by apply IH|].
    rewrite Forall_forall in *. intros z Hz. apply Hx.
    by eapply elem_of_sublist.
  - apply StronglySorted_cons in Hsorted as [_ Hsorted]. by apply IH.
Qed.

Lemma StronglySorted_weaken (R1 R2 : relation A) (l : list A) :
  (forall x y, R1 x y -> R2 x y) -> StronglySorted R1 l -> StronglySorted R2 l.
Proof.
  intros Himpl. induction 1 as [|x l Hsorted IH Hx]; constructor; [exact IH|].
  eapply Forall_impl; [exact Hx|]. intros y. apply Himpl.
Qed.

Lemma sorted_submseteq_sublist (picked all : list A) :
  picked ⊆+ all ->
  StronglySorted (fun a b => key a < key b) all ->
  StronglySorted (fun a b => key a <= key b) picked ->
  picked `sublist_of` all.
Proof.
  intros Hsub Hall Hpicked.
  destruct (proj1 (submseteq_sublist_r _ _) Hsub) as (chosen & Hperm & Hchosen).
  assert (picked = chosen) as ->; [|exact Hchosen].
  apply (StronglySorted_unique_strong (fun a b => key a <= key b));
    [|exact Hpicked| |exact Hperm].
  - intros x1 x2 Hx1 Hx2 H12 H21.
    apply (strictly_sorted_key_inj all); [exact Hall| | |lia].
    + by eapply elem_of_submseteq.
    + by eapply elem_of_sublist.
  - apply (StronglySorted_weaken (fun a b => key a < key b)); [intros; lia|].
    by eapply sublist_StronglySorted.
Qed.

End SortedSublist.

(** ** Relevance scorer: lemmas and claims *)

Lemma filter_none {A} (P : A -> Prop) `{forall x, Decision (P x)} (l : list A) :
  Forall (fun x => ~ P x) l -> filter P l = [].
Proof.
  induction 1 as [|x l Hx Hl IH]; [reflexivity|].
  rewrite filter_cons, decide_False by exact Hx. exact IH.
Qed.

Section Scorer.

Context (regexMatchCount : string -> string -> option nat).
Context (queryLower : string) (queryWords : list string).

Lemma countKeywordMatches_None (segmentText : string) (words : list string)
    (score : nat) :
  countKeywordMatches regexMatchCount segmentText words score = None ->
  exists word, word ∈ words /\ regexMatchCount word segmentText = None.
Proof.
  revert score. induction words as [|word words IH]; intros score; cbn.
  - discriminate.
  - destruct (regexMatchCount word segmentText) as [matches|] eqn:Hword.
    + intros (w & Hw & Hnone)%IH. exists w. split; [by right | exact Hnone].
    + intros _. exists word. split; [by left | exact Hword].
Qed.

Lemma segmentScore_None (segment : TranscriptItem.t) :
  segmentScore regexMatchCount queryLower queryWords segment = None ->
  exists word,
    word ∈ queryWords
    /\ regexMatchCount word (JS.toLowerCase (TranscriptItem.text segment)) = None.
Proof.
  unfold segmentScore.
  destruct (countKeywordMatches _ _ _ _) eqn:Hcount; [discriminate|].
  intros _. by eapply countKeywordMatches_None.
Qed.

(** The scored segments are the segments of the transcript in order, each
    with its score and with its position as index. *)
Lemma scoreSegments_spec (index : nat) (transcript : list TranscriptItem.t) :
  match scoreSegments regexMatchCount queryLower queryWords index transcript with
  | Some scored =>
      map ScoredSegment.segment scored = transcript
      /\ Forall (fun item =>
                   segmentScore regexMatchCount queryLower queryWords
                     (ScoredSegment.segment item)
                   = Some (ScoredSegment.score item)) scored
      /\ StronglySorted
           (fun a b => ScoredSegment.index a < ScoredSegment.index b) scored
      /\ Forall (fun item => index <= ScoredSegment.index item) scored
  | None =>
      exists segment,
        segment ∈ transcript
        /\ segmentScore regexMatchCount queryLower queryWords segment = None
  end.
Proof.
  revert index. induction transcript as [|segment rest IH]; intros index.
  - cbn. repeat split; constructor.
  - cbn [scoreSegments].
    destruct (segmentScore _ _ _ segment) as [score|] eqn:Hscore.
    + specialize (IH (S index)).
      destruct (scoreSegments _ _ _ (S index) rest) as [scored|].
      * destruct IH as (Hmap & Hscores & Hsorted & Hlow).
        split; [cbn; by rewrite Hmap|].
        split; [by constructor|].
        split.
        -- constructor; [exact Hsorted|].
           eapply Forall_impl; [exact Hlow|]. cbn. intros; lia.
        -- constructor; [cbn; lia|].
           eapply Forall_impl; [exact Hlow|]. cbn. intros; lia.
      * destruct IH as (seg & Hin & Hnone). exists seg. split; [by right|done].
    + exists segment. split; [by left|done].
Qed.

(** The selection keeps at most [maxSegments] of the scored segments, in
    the order of the transcript. *)
Lemma selectTopSegments_spec (scored : list ScoredSegment.t) (maxSegments : nat) :
  StronglySorted (fun a b => ScoredSegment.index a < ScoredSegment.index b) scored ->
  length (selectTopSegments scored maxSegments) <= maxSegments
  /\ selectTopSegments scored maxSegments
     `sublist_of` map ScoredSegment.segment scored.
Proof.
  intros Hsorted. unfold selectTopSegments, JS.slice_to.
  set (positive := filter (fun item => 0 < ScoredSegment.score item) scored).
  set (top := take maxSegments (JS.sort byScoreDescending positive)).
  split.
  - rewrite length_map, sort_length. unfold top. rewrite length_take. lia.
  - apply (fmap_sublist ScoredSegment.segment).
    apply (sorted_submseteq_sublist ScoredSegment.index); [|exact Hsorted|].
    + rewrite sort_Permutation. unfold top.
      etrans; [apply submseteq_take|]. rewrite sort_Permutation.
      apply sublist_submseteq, sublist_filter.
    + apply (StronglySorted_weaken (fun a b => (byIndex a b <= 0)%Z)).
      * unfold byIndex. intros; lia.
      * apply sort_sorted; unfold byIndex; intros; lia.
Qed.

End Scorer.

(** C7: the call returns at most [maxSegments] segments, and they follow
    one another as in the transcript (they are a sublist of it).  It throws
    only when a query word is refused as a regular expression.  When the
    query has words and every segment scores 0, nothing is returned. *)
Theorem findRelevantTranscriptSegments_bounded_in_order
    (regexMatchCount : string -> string -> option nat)
    (query : string) (transcript : list TranscriptItem.t) (maxSegments : nat) :
  match findRelevantTranscriptSegments regexMatchCount query transcript
          maxSegments with
  | Some found =>
      length found <= maxSegments /\ found `sublist_of` transcript
  | None =>
      exists word segment,
        word ∈ queryWordsOf (JS.toLowerCase query)
        /\ segment ∈ transcript
        /\ regexMatchCount word (JS.toLowerCase (TranscriptItem.text segment))
           = None
  end
  /\ (queryWordsOf (JS.toLowerCase query) <> [] ->
      (forall segment,
         segment ∈ transcript ->
         segmentScore regexMatchCount (JS.toLowerCase query)
           (queryWordsOf (JS.toLowerCase query)) segment = Some 0) ->
      findRelevantTranscriptSegments regexMatchCount query transcript maxSegments
      = Some []).
Proof.
  unfold findRelevantTranscriptSegments.
  set (queryLower := JS.toLowerCase query).
  set (queryWords := queryWordsOf queryLower).
  pose proof (scoreSegments_spec regexMatchCount queryLower queryWords 0 transcript)
    as Hscored.
  destruct (length queryWords =? 0) eqn:Hwords.
  - split.
    + unfold JS.slice_to. split; [rewrite length_take; lia | apply sublist_take].
    + apply Nat.eqb_eq in Hwords. intros Hne. by destruct queryWords.
  - destruct (scoreSegments _ _ _ 0 transcript) as [scored|].
    + destruct Hscored as (Hmap & Hscores & Hsorted & _). split.
      * destruct (selectTopSegments_spec scored maxSegments Hsorted) as [Hlen Hsub].
        split; [exact Hlen | by rewrite <- Hmap].
      * intros _ Hzero. f_equal. unfold selectTopSegments.
        replace (filter _ scored) with (@nil ScoredSegment.t);
          [by destruct maxSegments|].
        symmetry. apply filter_none.
        rewrite Forall_forall in *. intros item Hitem Hpos.
        specialize (Hscores item Hitem).
        rewrite Hzero in Hscores.
        -- injection Hscores as Hscore. lia.
        -- rewrite <- Hmap. by apply list_elem_of_fmap_2.
    + destruct Hscored as (segment & Hin & Hnone). split.
      * destruct (segmentScore_None _ _ _ _ Hnone) as (word & Hword & Hthrow).
        by exists word, segment.
      * intros _ Hzero. rewrite Hzero in Hnone; [discriminate | exact Hin].
Qed.

(** ** Transcript formatter: the example of the specification *)

(** C4: on the transcript of the example, [text_only] gives [hello world].
    The first [srt] block has the index line [1] and the text line [hello],
    but its time line is [00:00,000 --> 00:02,000]: [formatTime] leaves the
    hours out below one hour, so the line is not the
    [00:00:00,000 --> 00:00:02,000] of the claim.  Segments that reach the
    renderer without [startTime] and [endTime] print [undefined] there. *)
Theorem formatTranscriptOutput_example :
  formatTranscriptOutput example_transcript TEXT_ONLY = OutString "hello world"
  /\ formatTranscriptOutput example_transcript SRT
     = OutString
         (JS.join JS.newline
            [ "1"; "00:00,000 --> 00:02,000"; "hello"; "";
              "2"; "00:02,000 --> 00:05,000"; "world"; "" ])
  /\ imap srtBlock example_transcript !! 0
     = Some (JS.join JS.newline ["1"; "00:00,000 --> 00:02,000"; "hello"; ""])
  /\ imap srtBlock example_transcript !! 0
     <> Some (JS.join JS.newline
                ["1"; "00:00:00,000 --> 00:00:02,000"; "hello"; ""])
  /\ imap srtBlock example_transcript_untimed !! 0
     = Some (JS.join JS.newline ["1"; "undefined --> undefined"; "hello"; ""]).
Proof.
  repeat split; try (vm_compute; reflexivity).
  vm_compute. discriminate.
Qed.

(** ** Chat turn: [updatedAt] *)

Lemma pushUserMessage_updatedAt (session : ChatSession.t) (uuid message : string)
    (now : Z) :
  ChatSession.updatedAt (pushUserMessage session uuid message now)
  = ChatSession.updatedAt session
  /\ length (ChatSession.messages (pushUserMessage session uuid message now))
     = S (length (ChatSession.messages session)).
Proof.
  split; [reflexivity|]. cbn. rewrite length_app. cbn. lia.
Qed.

Lemma pushAssistantMessage_updatedAt (session : ChatSession.t)
    (uuid assistantContent : string) (now now' : Z) :
  ChatSession.updatedAt
    (pushAssistantMessage session uuid assistantContent now now') = now'.
Proof. reflexivity. Qed.

(** C2: appending the user message of a turn does not touch [updatedAt].
    A session last updated at time 1000 receives a user message at time
    5000 and the completion call fails: the stored log has grown by the user
    message, and [updatedAt] is still 1000.  When the call succeeds the
    field is set, by the assistant branch only. *)
Theorem chatTurn_user_message_leaves_updatedAt (parseFloat : string -> JSNumber) :
  (chatTurn parseFloat failing_env sample_session "hello").2 = CompletionFailed
  /\ map ChatMessage.role
       (ChatSession.messages
          (chatTurn parseFloat failing_env sample_session "hello").1)
     = [user]
  /\ map ChatMessage.timestamp
       (ChatSession.messages
          (chatTurn parseFloat failing_env sample_session "hello").1)
     = [5000%Z]
  /\ ChatSession.updatedAt
       (chatTurn parseFloat failing_env sample_session "hello").1
     = 1000%Z
  /\ ChatSession.updatedAt
       (chatTurn parseFloat replying_env sample_session "hello").1
     = 6001%Z.
Proof. repeat split; vm_compute; reflexivity. Qed.

(** ** Relevance scorer: the score of a word with a wildcard *)

(** C3: the query word [3.5] is compiled as a pattern whose dot matches any
    character.  On the segment text [Version 305 is out] the source counts
    one match and scores 1, and the segment is returned; the word does not
    occur in the text, and the score of the claim is 0 whichever way
    occurrences are counted. *)
Theorem segmentScore_reads_word_as_pattern :
  queryWordsOf (JS.toLowerCase "3.5") = ["3.5"%string]
  /\ segmentScore RegExp.matchCount (JS.toLowerCase "3.5")
       (queryWordsOf (JS.toLowerCase "3.5")) sample_segment
     = Some 1
  /\ spec_relevanceScore occurrences "3.5" sample_segment = 0
  /\ spec_relevanceScore occurrencesOverlapping "3.5" sample_segment = 0
  /\ findRelevantTranscriptSegments RegExp.matchCount "3.5" [sample_segment] 10
     = Some [sample_segment].
Proof. repeat split; vm_compute; reflexivity. Qed.

(** ** Relevance scorer: words without syntax characters

    On a query whose words contain no syntax character of regular
    expressions, the pattern built from a word matches the word itself, and
    the score of the source is the one of the specification, with
    occurrences counted from the left without overlap. *)

Lemma isWhiteSpace_toLowerCaseChar (c : ascii) :
  JS.isWhiteSpace (JS.toLowerCaseChar c) = JS.isWhiteSpace c.
Proof. destruct c as [[] [] [] [] [] [] [] []]; reflexivity. Qed.

Lemma startsWithWhiteSpace_toLowerCase (s : string) :
  JS.startsWithWhiteSpace (JS.toLowerCase s) = JS.startsWithWhiteSpace s.
Proof. destruct s; [reflexivity | apply isWhiteSpace_toLowerCaseChar]. Qed.

Lemma toLowerCase_length (s : string) :
  String.length (JS.toLowerCase s) = String.length s.
Proof. induction s as [|c s IH]; cbn; [reflexivity | by rewrite IH]. Qed.

Lemma splitWhiteSpace_toLowerCase (s : string) :
  JS.splitWhiteSpace (JS.toLowerCase s)
  = map JS.toLowerCase (JS.splitWhiteSpace s).
Proof.
  induction s as [|c s IH]; [reflexivity|].
  cbn [JS.toLowerCase JS.splitWhiteSpace].
  rewrite isWhiteSpace_toLowerCaseChar, startsWithWhiteSpace_toLowerCase, IH.
  destruct (JS.isWhiteSpace c).
  - by destruct (JS.startsWithWhiteSpace s).
  - by destruct (JS.splitWhiteSpace s).
Qed.

Lemma queryWordsOf_toLowerCase (query : string) :
  queryWordsOf (JS.toLowerCase query)
  = map JS.toLowerCase
      (filter (fun token => 2 < String.length token) (JS.splitWhiteSpace query)).
Proof.
  unfold queryWordsOf. rewrite splitWhiteSpace_toLowerCase.
  induction (JS.splitWhiteSpace query) as [|piece pieces IH]; [reflexivity|].
  cbn [map]. rewrite !filter_cons, toLowerCase_length, IH.
  by destruct (decide (2 < String.length piece)).
Qed.

Lemma compile_plain (word : string) :
  isPlainWord word = true ->
  RegExp.compile word = Some (map RegExp.Char (list_ascii_of_string word)).
Proof.
  induction word as [|c word IH]; [reflexivity|].
  cbn [isPlainWord RegExp.compile list_ascii_of_string map].
  intros [Hc Hword]%andb_true_iff. rewrite (IH Hword).
  unfold RegExp.compileChar.
  destruct (Ascii.eqb c ".") eqn:Hdot.
  - apply Ascii.eqb_eq in Hdot. subst c. discriminate.
  - apply negb_true_iff in Hc. by rewrite Hc.
Qed.

Lemma matchesAt_plain (word text : string) :
  RegExp.matchesAt (map RegExp.Char (list_ascii_of_string word)) text
  = String.prefix word text.
Proof.
  revert text. induction word as [|c word IH]; intros text.
  - by destruct text.
  - destruct text as [|d text]; [reflexivity|].
    cbn [list_ascii_of_string map RegExp.matchesAt RegExp.atomMatches String.prefix].
    rewrite IH. destruct (Ascii.eqb_spec c d) as [->|Hne].
    + by destruct (ascii_dec d d).
    + by destruct (ascii_dec c d).
Qed.

Lemma countFrom_plain (word text : string) (skip : nat) :
  RegExp.countFrom (map RegExp.Char (list_ascii_of_string word)) text skip
  = occurrencesFrom word text skip.
Proof.
  assert (Hlen : length (map RegExp.Char (list_ascii_of_string word))
                 = String.length word).
  { rewrite length_map. induction word; cbn; congruence. }
  revert skip. induction text as [|d text IH]; intros skip.
  - cbn. by rewrite matchesAt_plain.
  - cbn [RegExp.countFrom occurrencesFrom]. destruct skip as [|skip]; [|apply IH].
    rewrite matchesAt_plain, Hlen, !IH. reflexivity.
Qed.

Lemma matchCount_plain (word text : string) :
  isPlainWord word = true ->
  RegExp.matchCount word text = Some (occurrences word text).
Proof.
  intros Hplain. unfold RegExp.matchCount, occurrences.
  by rewrite compile_plain, countFrom_plain.
Qed.

Lemma countKeywordMatches_plain (segmentText : string) (words : list string)
    (score : nat) :
  Forall (fun word => isPlainWord word = true) words ->
  countKeywordMatches RegExp.matchCount segmentText words score
  = Some (score
          + foldr (fun word total => occurrences word segmentText + total)
                  0 words).
Proof.
  intros Hplain. revert score.
  induction Hplain as [|word words Hword Hwords IH]; intros score; cbn.
  - f_equal. lia.
  - rewrite (matchCount_plain _ _ Hword), IH. f_equal. lia.
Qed.

(** X30: for a query without syntax characters in its words, the source
    computes the score of the specification: the occurrences of each word,
    counted without overlap, plus 5 when the segment includes the query. *)
Theorem segmentScore_plain_query (query : string) (segment : TranscriptItem.t) :
  Forall (fun word => isPlainWord word = true)
         (queryWordsOf (JS.toLowerCase query)) ->
  segmentScore RegExp.matchCount (JS.toLowerCase query)
    (queryWordsOf (JS.toLowerCase query)) segment
  = Some (spec_relevanceScore occurrences query segment).
Proof.
  intros Hplain. unfold segmentScore, spec_relevanceScore.
  rewrite (countKeywordMatches_plain _ _ _ Hplain), queryWordsOf_toLowerCase.
  f_equal. cbn [Nat.add].
  set (tokens := filter _ (JS.splitWhiteSpace query)).
  replace (foldr _ 0 (map JS.toLowerCase tokens))
    with (foldr (fun token total =>
                   occurrences (JS.toLowerCase token)
                     (JS.toLowerCase (TranscriptItem.text segment)) + total)
                0 tokens)
    by (induction tokens as [|t ts IH]; cbn; congruence).
  destruct (JS.includes _ _); lia.
Qed.

(** ** Token budgeter: further properties *)

(** On a non-empty list the call returns the first message and the suffix
    of the others that starts at the first place where the total fits, the
    last message at the latest. *)
Lemma trimContextToTokenLimit_cons_spec
    (sys : ContextMessage.t) (rest : list ContextMessage.t) (maxTokens : Z) :
  exists k,
    trimContextToTokenLimit (sys :: rest) maxTokens = Some (sys :: drop k rest)
    /\ k <= length rest - 1
    /\ (forall j, j < k ->
          (maxTokens < Z.of_nat (calculateContextTokens (sys :: drop j rest)))%Z)
    /\ ((Z.of_nat (calculateContextTokens (sys :: drop k rest)) <= maxTokens)%Z
        \/ length (drop k rest) <= 1).
Proof.
  unfold trimContextToTokenLimit.
  destruct (Z.of_nat (calculateContextTokens (sys :: rest)) <=? maxTokens)%Z
    eqn:Hall.
  - apply Z.leb_le in Hall. exists 0. cbn [drop].
    repeat split; [lia | intros; lia | by left].
  - destruct (trimLoop_spec sys maxTokens rest) as (k & -> & Hk & Hmin & Hstop).
    exists k. repeat split; assumption.
Qed.

Lemma last_drop_lt {A} (l : list A) (k : nat) :
  k < length l -> last (drop k l) = last l.
Proof.
  intros Hk. rewrite <- (take_drop k l) at 2. rewrite last_app.
  destruct (last (drop k l)) eqn:Hlast; [reflexivity|].
  apply last_None, drop_nil_inv in Hlast. lia.
Qed.

(** X1: the most recent message is never trimmed away: the last message of
    the result is the last message of the input. *)
Theorem trimContextToTokenLimit_keeps_latest_message
    (sys : ContextMessage.t) (rest : list ContextMessage.t) (maxTokens : Z) :
  exists trimmed,
    trimContextToTokenLimit (sys :: rest) maxTokens = Some trimmed
    /\ last trimmed = last (sys :: rest).
Proof.
  destruct (trimContextToTokenLimit_cons_spec sys rest maxTokens)
    as (k & -> & Hk & _).
  eexists; split; [reflexivity|].
  destruct rest as [|m rest]; [by rewrite drop_nil|].
  rewrite (last_cons sys (drop k (m :: rest))), (last_cons sys (m :: rest)).
  rewrite last_drop_lt by (cbn in *; lia). reflexivity.
Qed.

(** X2: the result is within the budget, or it is the first message with
    the most recent of the others and nothing else. *)
Theorem trimContextToTokenLimit_fits_or_minimal
    (sys : ContextMessage.t) (rest : list ContextMessage.t) (maxTokens : Z) :
  exists trimmed,
    trimContextToTokenLimit (sys :: rest) maxTokens = Some trimmed
    /\ ((Z.of_nat (calculateContextTokens trimmed) <= maxTokens)%Z
        \/ (trimmed = sys :: JS.slice_from (-1) rest /\ length trimmed <= 2)).
Proof.
  destruct (trimContextToTokenLimit_cons_spec sys rest maxTokens)
    as (k & -> & Hk & _ & [Hfit|Hshort]).
  - eexists; split; [reflexivity | by left].
  - eexists; split; [reflexivity | right]. split; [|cbn; lia].
    by rewrite (drop_short_is_last rest k Hk Hshort), slice_last_drop.
Qed.

(** X3: a larger budget keeps at least the messages a smaller one keeps:
    the suffix kept under [maxTokens1] starts no earlier than the one kept
    under [maxTokens2]. *)
Theorem trimContextToTokenLimit_budget_monotone
    (sys : ContextMessage.t) (rest : list ContextMessage.t)
    (maxTokens1 maxTokens2 : Z) :
  (maxTokens1 <= maxTokens2)%Z ->
  exists k1 k2,
    k2 <= k1
    /\ trimContextToTokenLimit (sys :: rest) maxTokens1 = Some (sys :: drop k1 rest)
    /\ trimContextToTokenLimit (sys :: rest) maxTokens2 = Some (sys :: drop k2 rest).
Proof.
  intros Hle.
  destruct (trimContextToTokenLimit_cons_spec sys rest maxTokens1)
    as (k1 & -> & Hk1 & _ & Hstop1).
  destruct (trimContextToTokenLimit_cons_spec sys rest maxTokens2)
    as (k2 & -> & Hk2 & Hmin2 & _).
  exists k1, k2. split; [|split; reflexivity].
  destruct (decide (k2 <= k1)) as [|Hgt]; [assumption|].
  specialize (Hmin2 k1 ltac:(lia)).
  destruct Hstop1 as [Hfit|Hshort]; [lia|].
  rewrite length_drop in Hshort. lia.
Qed.

Lemma trimContextToTokenLimit_budget_monotone_witness :
  exists k1 k2,
    k2 <= k1
    /\ trimContextToTokenLimit [sample_system; sample_question; sample_reply] 5
       = Some (sample_system :: drop k1 [sample_question; sample_reply])
    /\ trimContextToTokenLimit [sample_system; sample_question; sample_reply] 13
       = Some (sample_system :: drop k2 [sample_question; sample_reply]).
Proof.
  apply (trimContextToTokenLimit_budget_monotone
           sample_system [sample_question; sample_reply] 5 13).
  lia.
Defined.

(** ** Relevance scorer: further properties *)

Section ScorerSelection.

Context (regexMatchCount : string -> string -> option nat).
Context (queryLower : string) (queryWords : list string).

(** The scored segments that pass the filter are the segments of the
    transcript with a positive score. *)
Lemma positive_scored_segments (scored : list ScoredSegment.t) :
  Forall (fun item =>
            segmentScore regexMatchCount queryLower queryWords
              (ScoredSegment.segment item)
            = Some (ScoredSegment.score item)) scored ->
  map ScoredSegment.segment
      (filter (fun item => 0 < ScoredSegment.score item) scored)
  = filter (hasPositiveScore regexMatchCount queryLower queryWords)
           (map ScoredSegment.segment scored).
Proof.
  induction 1 as [|item scored Hitem Hscored IH]; [reflexivity|].
  assert (Hiff : hasPositiveScore regexMatchCount queryLower queryWords
                   (ScoredSegment.segment item)
                 <-> 0 < ScoredSegment.score item).
  { unfold hasPositiveScore. by rewrite Hitem. }
  cbn [map]. rewrite !filter_cons.
  destruct (decide (0 < ScoredSegment.score item)),
    (decide (hasPositiveScore regexMatchCount queryLower queryWords
               (ScoredSegment.segment item)));
    cbn [map]; rewrite ?IH; tauto.
Qed.

(** The segments selected are scored segments that passed the filter. *)
Lemma selected_submseteq (scored : list ScoredSegment.t) (maxSegments : nat) :
  JS.sort byIndex
    (JS.slice_to maxSegments
       (JS.sort byScoreDescending
          (filter (fun item => 0 < ScoredSegment.score item) scored)))
  ⊆+ filter (fun item => 0 < ScoredSegment.score item) scored.
Proof.
  rewrite sort_Permutation. unfold JS.slice_to.
  etrans; [apply submseteq_take|]. by rewrite sort_Permutation.
Qed.

(** With room for every segment that passed the filter, the selection is
    all of them in the order of the transcript. *)
Lemma selectTopSegments_all (scored : list ScoredSegment.t) (maxSegments : nat) :
  StronglySorted (fun a b => ScoredSegment.index a < ScoredSegment.index b) scored ->
  length (filter (fun item => 0 < ScoredSegment.score item) scored) <= maxSegments ->
  selectTopSegments scored maxSegments
  = map ScoredSegment.segment
        (filter (fun item => 0 < ScoredSegment.score item) scored).
Proof.
  intros Hsorted Hroom. unfold selectTopSegments, JS.slice_to. f_equal.
  set (positive := filter (fun item => 0 < ScoredSegment.score item) scored) in *.
  assert (Hpositive :
            StronglySorted
              (fun a b => ScoredSegment.index a < ScoredSegment.index b) positive).
  { eapply sublist_StronglySorted; [apply sublist_filter | exact Hsorted]. }
  rewrite take_ge by (by rewrite sort_length).
  apply (StronglySorted_unique_strong
           (fun a b => ScoredSegment.index a <= ScoredSegment.index b)).
  - intros x1 x2 Hx1 Hx2 H12 H21.
    apply (strictly_sorted_key_inj ScoredSegment.index positive);
      [exact Hpositive| |exact Hx2|lia].
    by rewrite !sort_Permutation in Hx1.
  - apply (StronglySorted_weaken (fun a b => (byIndex a b <= 0)%Z)).
    + unfold byIndex. intros; lia.
    + apply sort_sorted; unfold byIndex; intros; lia.
  - apply (StronglySorted_weaken
             (fun a b => ScoredSegment.index a < ScoredSegment.index b));
      [intros; lia | exact Hpositive].
  - by rewrite !sort_Permutation.
Qed.

End ScorerSelection.

Lemma findRelevantTranscriptSegments_scored
    (regexMatchCount : string -> string -> option nat)
    (query : string) (transcript found : list TranscriptItem.t)
    (maxSegments : nat) :
  queryWordsOf (JS.toLowerCase query) <> [] ->
  findRelevantTranscriptSegments regexMatchCount query transcript maxSegments
  = Some found ->
  exists scored,
    found = selectTopSegments scored maxSegments
    /\ map ScoredSegment.segment scored = transcript
    /\ Forall (fun item =>
                 segmentScore regexMatchCount (JS.toLowerCase query)
                   (queryWordsOf (JS.toLowerCase query))
                   (ScoredSegment.segment item)
                 = Some (ScoredSegment.score item)) scored
    /\ StronglySorted
         (fun a b => ScoredSegment.index a < ScoredSegment.index b) scored.
Proof.
  intros Hwords. unfold findRelevantTranscriptSegments.
  destruct (length (queryWordsOf (JS.toLowerCase query)) =? 0) eqn:Hlen.
  { apply Nat.eqb_eq in Hlen. by destruct (queryWordsOf (JS.toLowerCase query)). }
  pose proof (scoreSegments_spec regexMatchCount (JS.toLowerCase query)
                (queryWordsOf (JS.toLowerCase query)) 0 transcript) as Hspec.
  destruct (scoreSegments _ _ _ 0 transcript) as [scored|]; [|discriminate].
  intros [= <-]. destruct Hspec as (Hmap & Hscores & Hsorted & _).
  by exists scored.
Qed.

(** X4: when the query has words, every segment returned has a positive
    score. *)
Theorem findRelevantTranscriptSegments_positive_scores
    (regexMatchCount : string -> string -> option nat)
    (query : string) (transcript found : list TranscriptItem.t)
    (maxSegments : nat) :
  queryWordsOf (JS.toLowerCase query) <> [] ->
  findRelevantTranscriptSegments regexMatchCount query transcript maxSegments
  = Some found ->
  Forall (hasPositiveScore regexMatchCount (JS.toLowerCase query)
            (queryWordsOf (JS.toLowerCase query))) found.
Proof.
  intros Hwords Hfound.
  destruct (findRelevantTranscriptSegments_scored _ _ _ _ _ Hwords Hfound)
    as (scored & -> & Hmap & Hscores & Hsorted).
  unfold selectTopSegments. rewrite Forall_forall.
  intros segment (item & -> & Hitem)%list_elem_of_fmap.
  pose proof (elem_of_submseteq _ _ _ Hitem (selected_submseteq scored maxSegments))
    as [Hpos Hin]%list_elem_of_filter.
  rewrite Forall_forall in Hscores. unfold hasPositiveScore.
  by rewrite (Hscores _ Hin).
Qed.

Lemma findRelevantTranscriptSegments_positive_scores_witness :
  Forall (hasPositiveScore RegExp.matchCount (JS.toLowerCase "rust")
            (queryWordsOf (JS.toLowerCase "rust")))
         [TranscriptItem.mk "5" "2" "rust, Rust and more rust"].
Proof.
  apply (findRelevantTranscriptSegments_positive_scores
           RegExp.matchCount "rust" sample_transcript _ 1).
  - vm_compute. discriminate.
  - vm_compute. reflexivity.
Defined.

(** X5: when the query has words and [maxSegments] leaves room for every
    segment with a positive score, the result is exactly those segments, in
    the order of the transcript. *)
Theorem findRelevantTranscriptSegments_all_when_room
    (regexMatchCount : string -> string -> option nat)
    (query : string) (transcript found : list TranscriptItem.t)
    (maxSegments : nat) :
  queryWordsOf (JS.toLowerCase query) <> [] ->
  findRelevantTranscriptSegments regexMatchCount query transcript maxSegments
  = Some found ->
  length (filter (hasPositiveScore regexMatchCount (JS.toLowerCase query)
                    (queryWordsOf (JS.toLowerCase query))) transcript)
  <= maxSegments ->
  found = filter (hasPositiveScore regexMatchCount (JS.toLowerCase query)
                    (queryWordsOf (JS.toLowerCase query))) transcript.
Proof.
  intros Hwords Hfound Hroom.
  destruct (findRelevantTranscriptSegments_scored _ _ _ _ _ Hwords Hfound)
    as (scored & -> & <- & Hscores & Hsorted).
  rewrite <- (positive_scored_segments _ _ _ _ Hscores) in *.
  rewrite length_map in Hroom. by apply selectTopSegments_all.
Qed.

Lemma findRelevantTranscriptSegments_all_when_room_witness :
  [ TranscriptItem.mk "0" "2" "Rust is fast";
    TranscriptItem.mk "5" "2" "rust, Rust and more rust" ]
  = filter (hasPositiveScore RegExp.matchCount (JS.toLowerCase "rust")
              (queryWordsOf (JS.toLowerCase "rust"))) sample_transcript.
Proof.
  apply (findRelevantTranscriptSegments_all_when_room
           RegExp.matchCount "rust" sample_transcript _ 10).
  - vm_compute. discriminate.
  - vm_compute. reflexivity.
  - vm_compute. lia.
Defined.

(** The sort by score puts every segment of the first [maxSegments] at or
    above every later one. *)
Lemma top_scores_dominate (positive : list ScoredSegment.t) (maxSegments : nat)
    (kept left_out : ScoredSegment.t) :
  kept ∈ take maxSegments (JS.sort byScoreDescending positive) ->
  left_out ∈ drop maxSegments (JS.sort byScoreDescending positive) ->
  ScoredSegment.score left_out <= ScoredSegment.score kept.
Proof.
  intros Hkept Hleft.
  assert (Hsorted : StronglySorted (fun a b => (byScoreDescending a b <= 0)%Z)
                      (take maxSegments (JS.sort byScoreDescending positive)
                       ++ drop maxSegments (JS.sort byScoreDescending positive))).
  { rewrite take_drop. apply sort_sorted; unfold byScoreDescending; intros; lia. }
  pose proof (StronglySorted_app_1_elem_of _ _ _ _ _ Hsorted Hkept Hleft) as Hle.
  unfold byScoreDescending in Hle. lia.
Qed.

(** X6: the selection is by score: when the query has words, a segment of
    the transcript that is not returned scores no more than any segment
    that is returned. *)
Theorem findRelevantTranscriptSegments_keeps_best
    (regexMatchCount : string -> string -> option nat)
    (query : string) (transcript found : list TranscriptItem.t)
    (maxSegments : nat) (kept left_out : TranscriptItem.t)
    (keptScore leftScore : nat) :
  queryWordsOf (JS.toLowerCase query) <> [] ->
  findRelevantTranscriptSegments regexMatchCount query transcript maxSegments
  = Some found ->
  kept ∈ found ->
  left_out ∈ transcript ->
  left_out ∉ found ->
  segmentScore regexMatchCount (JS.toLowerCase query)
    (queryWordsOf (JS.toLowerCase query)) kept = Some keptScore ->
  segmentScore regexMatchCount (JS.toLowerCase query)
    (queryWordsOf (JS.toLowerCase query)) left_out = Some leftScore ->
  leftScore <= keptScore.
Proof.
  intros Hwords Hfound Hkept Hleft Hnot HkeptScore HleftScore.
  destruct (findRelevantTranscriptSegments_scored _ _ _ _ _ Hwords Hfound)
    as (scored & -> & <- & Hscores & Hsorted).
  rewrite Forall_forall in Hscores. unfold selectTopSegments in *.
  set (positive := filter (fun item => 0 < ScoredSegment.score item) scored) in *.
  apply list_elem_of_fmap in Hkept as (keptItem & -> & HkeptItem).
  apply list_elem_of_fmap in Hleft as (leftItem & -> & HleftItem).
  rewrite sort_Permutation in HkeptItem. unfold JS.slice_to in *.
  assert (ScoredSegment.score keptItem = keptScore) as <-.
  { assert (keptItem ∈ scored) as Hin.
    { assert (keptItem ∈ JS.sort byScoreDescending positive) as Hs
        by (eapply elem_of_sublist; [exact HkeptItem | apply sublist_take]).
      rewrite sort_Permutation in Hs.
      by apply list_elem_of_filter in Hs as [_ ?]. }
    rewrite (Hscores _ Hin) in HkeptScore. by injection HkeptScore. }
  assert (ScoredSegment.score leftItem = leftScore) as <-.
  { rewrite (Hscores _ HleftItem) in HleftScore. by injection HleftScore. }
  destruct (decide (0 < ScoredSegment.score leftItem)) as [Hpos|]; [|lia].
  assert (leftItem ∈ JS.sort byScoreDescending positive) as Hsortedin.
  { rewrite sort_Permutation. by apply list_elem_of_filter. }
  rewrite <- (take_drop maxSegments (JS.sort byScoreDescending positive)) in Hsortedin.
  apply elem_of_app in Hsortedin as [Htop|Hrest].
  - exfalso. apply Hnot. apply list_elem_of_fmap_2. by rewrite sort_Permutation.
  - by eapply top_scores_dominate.
Qed.

Lemma findRelevantTranscriptSegments_keeps_best_witness : 6 <= 8.
Proof.
  apply (findRelevantTranscriptSegments_keeps_best
           RegExp.matchCount "rust" sample_transcript
           [TranscriptItem.mk "5" "2" "rust, Rust and more rust"] 1
           (TranscriptItem.mk "5" "2" "rust, Rust and more rust")
           (TranscriptItem.mk "0" "2" "Rust is fast")).
  - vm_compute. discriminate.
  - vm_compute. reflexivity.
  - apply list_elem_of_singleton. reflexivity.
  - apply list_elem_of_here.
  - intros Hin%list_elem_of_singleton. discriminate.
  - vm_compute. reflexivity.
  - vm_compute. reflexivity.
Defined.

Lemma segmentScore_plain_query_witness :
  segmentScore RegExp.matchCount (JS.toLowerCase "more Rust")
    (queryWordsOf (JS.toLowerCase "more Rust"))
    (TranscriptItem.mk "5" "2" "rust, Rust and more rust")
  = Some (spec_relevanceScore occurrences "more Rust"
            (TranscriptItem.mk "5" "2" "rust, Rust and more rust")).
Proof.
  apply (segmentScore_plain_query "more Rust"
           (TranscriptItem.mk "5" "2" "rust, Rust and more rust")).
  repeat constructor.
Defined.

Lemma findRelevantTranscriptSegments_Some
    (regexMatchCount : string -> string -> option nat)
    (query : string) (transcript found : list TranscriptItem.t)
    (maxSegments : nat) :
  findRelevantTranscriptSegments regexMatchCount query transcript maxSegments
  = Some found ->
  length found <= maxSegments /\ found `sublist_of` transcript.
Proof.
  unfold findRelevantTranscriptSegments.
  destruct (length (queryWordsOf (JS.toLowerCase query)) =? 0).
  - intros [= <-]. unfold JS.slice_to.
    split; [rewrite length_take; lia | apply sublist_take].
  - pose proof (scoreSegments_spec regexMatchCount (JS.toLowerCase query)
                  (queryWordsOf (JS.toLowerCase query)) 0 transcript) as Hspec.
    destruct (scoreSegments _ _ _ 0 transcript) as [scored|]; [|discriminate].
    intros [= <-]. destruct Hspec as (<- & _ & Hsorted & _).
    by apply selectTopSegments_spec.
Qed.

Lemma slice_last_10 {A} (l : list A) :
  JS.slice_from (-10) l = drop (length l - 10) l.
Proof.
  unfold JS.slice_from.
  destruct (Z.ltb_spec (-10) 0) as [_|Hpos]; [f_equal|]; lia.
Qed.

(** X7: the enhanced context never has an empty transcript when the session
    has segments: without a relevant segment it falls back to the first 20.
    Its segments are at most 20 segments of the session, in their order, and
    its previous messages are the last 10 stored messages (all of them when
    there are fewer).  There is no context only when the search throws. *)
Theorem createEnhancedContext_spec
    (regexMatchCount : string -> string -> option nat)
    (session : ChatSession.t) (userQuery : string) :
  match createEnhancedContext regexMatchCount session userQuery with
  | Some context =>
      ChatContext.transcript context `sublist_of` ChatSession.transcript session
      /\ length (ChatContext.transcript context) <= 20
      /\ (ChatSession.transcript session <> [] ->
          ChatContext.transcript context <> [])
      /\ ChatContext.previousMessages context
         = drop (length (ChatSession.messages session) - 10)
                (ChatSession.messages session)
      /\ length (ChatContext.previousMessages context) <= 10
  | None =>
      findRelevantTranscriptSegments regexMatchCount userQuery
        (ChatSession.transcript session) 15 = None
  end.
Proof.
  unfold createEnhancedContext.
  destruct (findRelevantTranscriptSegments _ _ _ 15) as [relevant|] eqn:Hfind;
    [|reflexivity].
  apply findRelevantTranscriptSegments_Some in Hfind as [Hlen Hsub].
  cbn [ChatContext.transcript ChatContext.previousMessages].
  rewrite slice_last_10, length_drop.
  split; [|split; [|split; [|split; [reflexivity | lia]]]].
  - destruct (0 <? length relevant); [exact Hsub | apply sublist_take].
  - destruct (0 <? length relevant); [lia|].
    unfold JS.slice_to. rewrite length_take. lia.
  - intros Hsegments. destruct (0 <? length relevant) eqn:Hany.
    + apply Nat.ltb_lt in Hany. destruct relevant; [cbn in Hany; lia | discriminate].
    + by destruct (ChatSession.transcript session).
Qed.

(** ** Context builder and chat turn: further properties *)

Lemma recent_messages_last (messages : list ChatMessage.t) (m : ChatMessage.t) :
  let recent :=
    map toContextMessage (JS.slice_from (- MAX_CONTEXT_MESSAGES) (messages ++ [m])) in
  last recent = Some (toContextMessage m)
  /\ 0 < length recent <= 20.
Proof.
  cbn zeta. rewrite slice_last_20, length_map, length_drop, length_app. cbn [length].
  split; [|lia].
  change (map toContextMessage ?l) with (toContextMessage <$> l).
  rewrite fmap_last, last_drop_lt by (rewrite length_app; cbn; lia).
  by rewrite last_snoc.
Qed.

(** X8: the context has at most 21 messages with the system prompt and at
    most 20 without it, and it ends with the role and the content of the
    most recent stored message. *)
Theorem buildConversationContext_bounded
    (parseFloat : string -> JSNumber) (session : ChatSession.t)
    (includeSystemPrompt : bool) :
  length (buildConversationContext parseFloat session includeSystemPrompt)
  <= (if includeSystemPrompt then 21 else 20)
  /\ match last (ChatSession.messages session) with
     | Some m =>
         last (buildConversationContext parseFloat session includeSystemPrompt)
         = Some (ContextMessage.mk (ChatMessage.role m) (ChatMessage.content m))
     | None =>
         buildConversationContext parseFloat session includeSystemPrompt
         = if includeSystemPrompt
           then [ContextMessage.mk system (systemContent parseFloat session)]
           else []
     end.
Proof.
  unfold buildConversationContext. rewrite slice_last_20.
  split.
  - rewrite length_app, length_map, length_drop.
    destruct includeSystemPrompt; cbn [length]; lia.
  - destruct (last (ChatSession.messages session)) as [m|] eqn:Hlast.
    + apply last_Some in Hlast as [older Hlast]. rewrite Hlast.
      change (map toContextMessage ?l) with (toContextMessage <$> l).
      rewrite last_app, fmap_last, last_drop_lt by (rewrite length_app; cbn; lia).
      by rewrite last_snoc.
    + apply last_None in Hlast. rewrite Hlast. cbn. by rewrite app_nil_r.
Qed.

(** X9: the completion call of a turn gets a context of at most 21 messages
    that begins with the system message and ends with the user message of
    the turn; the turn is decided by the validation of the session and by
    the answer to that context, and it never fails on the trimming. *)
Theorem chatTurn_completion_context
    (parseFloat : string -> JSNumber) (env : TurnEnv)
    (session : ChatSession.t) (message : string) :
  exists context,
    head context
    = Some (ContextMessage.mk system
              (systemContent parseFloat
                 (pushUserMessage session (userUuid env) message (userClock env))))
    /\ last context = Some (ContextMessage.mk user message)
    /\ length context <= 21
    /\ chatTurn parseFloat env session message
       = let session1 :=
           pushUserMessage session (userUuid env) message (userClock env) in
         if negb (validateChatSession session1).1
         then (session1, InvalidSession (validateChatSession session1).2)
         else
           match complete env context with
           | None => (session1, CompletionFailed)
           | Some assistantContent =>
               if String.eqb assistantContent "" then (session1, CompletionFailed)
               else
                 (pushAssistantMessage session1 (assistantUuid env)
                    assistantContent (assistantClock env) (updateClock env),
                  Replied assistantContent)
           end.
Proof.
  unfold chatTurn. cbn zeta.
  set (session1 := pushUserMessage session (userUuid env) message (userClock env)).
  unfold buildConversationContext. cbn [app].
  set (recent := map toContextMessage
                   (JS.slice_from (- MAX_CONTEXT_MESSAGES)
                                  (ChatSession.messages session1))).
  assert (Hrecent : last recent = Some (ContextMessage.mk user message)
                    /\ 0 < length recent <= 20).
  { apply (recent_messages_last (ChatSession.messages session)
             (userMessageOf session (userUuid env) message (userClock env))). }
  destruct Hrecent as [Hlast Hlen].
  destruct (trimContextToTokenLimit_cons_spec
              (ContextMessage.mk system (systemContent parseFloat session1))
              recent 12000) as (k & -> & Hk & _).
  exists (ContextMessage.mk system (systemContent parseFloat session1)
            :: drop k recent).
  split; [reflexivity|]. split; [|split; [|reflexivity]].
  - rewrite last_cons, last_drop_lt by lia. by rewrite Hlast.
  - cbn [length]. rewrite length_drop. lia.
Qed.






(** X11: a turn only appends to the stored log.  It appends the user message
    whatever the outcome, and the assistant message after it exactly when
    the turn is answered; the other fields of the session, [updatedAt]
    apart, are unchanged. *)
Theorem chatTurn_append_only
    (parseFloat : string -> JSNumber) (env : TurnEnv)
    (session : ChatSession.t) (message : string) :
  ChatSession.messages (chatTurn parseFloat env session message).1
  = ChatSession.messages session
    ++ userMessageOf session (userUuid env) message (userClock env)
       :: match (chatTurn parseFloat env session message).2 with
          | Replied assistantContent =>
              [assistantMessageOf session (assistantUuid env) assistantContent
                 (assistantClock env)]
          | _ => []
          end
  /\ ChatSession.id (chatTurn parseFloat env session message).1
     = ChatSession.id session
  /\ ChatSession.videoId (chatTurn parseFloat env session message).1
     = ChatSession.videoId session
  /\ ChatSession.transcript (chatTurn parseFloat env session message).1
     = ChatSession.transcript session
  /\ ChatSession.createdAt (chatTurn parseFloat env session message).1
     = ChatSession.createdAt session.
Proof.
  unfold chatTurn. cbn zeta.
  destruct (negb _); [by repeat split|].
  destruct (trimContextToTokenLimit _ _); [|by repeat split].
  destruct (complete env _) as [answer|]; [|by repeat split].
  destruct (String.eqb answer ""); [by repeat split|].
  cbn. rewrite <- app_assoc. by repeat split.
Qed.

(** ** Session store: further properties *)

(** A turn leaves the session with the user message pushed, and with the
    assistant message pushed after it exactly when it is answered. *)
Lemma chatTurn_cases
    (parseFloat : string -> JSNumber) (env : TurnEnv)
    (session : ChatSession.t) (message : string) :
  (exists assistantContent,
     chatTurn parseFloat env session message
     = (pushAssistantMessage
          (pushUserMessage session (userUuid env) message (userClock env))
          (assistantUuid env) assistantContent (assistantClock env)
          (updateClock env),
        Replied assistantContent))
  \/ ((chatTurn parseFloat env session message).1
      = pushUserMessage session (userUuid env) message (userClock env)
      /\ forall assistantContent,
           (chatTurn parseFloat env session message).2 <> Replied assistantContent).
Proof.
  unfold chatTurn. cbn zeta.
  destruct (negb _); [by right|].
  destruct (trimContextToTokenLimit _ _); [|by right].
  destruct (complete env _) as [answer|]; [|by right].
  destruct (String.eqb answer ""); [by right|].
  left. by exists answer.
Qed.

(** The clean-up keeps the sessions that are not expired and counts the
    others. *)
Lemma cleanupOldSessions_eq
    (now : Z) (sessions : gmap string ChatSession.t) (maxAge : Z) :
  cleanupOldSessions now sessions maxAge
  = (filter (fun entry => ~ expired now maxAge entry.2) sessions,
     size (filter (fun entry => expired now maxAge entry.2) sessions)).
Proof.
  set (old := fun entry : string * ChatSession.t => expired now maxAge entry.2).
  unfold cleanupOldSessions.
  assert (Hinv :
    forall visited,
      (forall k, (map_fold (cleanupStep now maxAge) (sessions, 0) visited).1 !! k
                 = match visited !! k with
                   | Some s => if decide (expired now maxAge s) then None
                               else sessions !! k
                   | None => sessions !! k
                   end)
      /\ (map_fold (cleanupStep now maxAge) (sessions, 0) visited).2
         = size (filter old visited)).
  { intros visited. induction visited as [|i x visited Hfresh Hfirst IH]
      using map_first_key_ind.
    - rewrite map_fold_empty. split; [intros k; by rewrite lookup_empty|].
      by rewrite map_filter_empty, map_size_empty.
    - rewrite map_fold_insert_first_key by done.
      destruct IH as [Hlook Hcount]. unfold cleanupStep at 1 3.
      destruct (maxAge <? now - ChatSession.updatedAt x)%Z eqn:Hage.
      + apply Z.ltb_lt in Hage.
        assert (Hexp : expired now maxAge x) by (unfold expired; lia).
        cbn [fst snd]. split.
        * intros k. destruct (decide (i = k)) as [<-|Hne].
          -- rewrite lookup_delete_eq, lookup_insert_eq. by rewrite decide_True.
          -- rewrite lookup_delete_ne, lookup_insert_ne by done. apply Hlook.
        * rewrite map_filter_insert_True by exact Hexp.
          rewrite map_size_insert_None; [by rewrite Hcount|].
          apply map_lookup_filter_None. by left.
      + apply Z.ltb_ge in Hage.
        assert (Hexp : ~ expired now maxAge x) by (unfold expired; lia).
        split.
        * intros k. destruct (decide (i = k)) as [<-|Hne].
          -- rewrite lookup_insert_eq, decide_False by exact Hexp.
             rewrite Hlook, Hfresh. reflexivity.
          -- rewrite lookup_insert_ne by done. apply Hlook.
        * rewrite map_filter_insert_False by exact Hexp.
          by rewrite delete_id. }
  destruct (Hinv sessions) as [Hlook Hcount].
  destruct (map_fold _ _ sessions) as [kept count]. cbn [fst snd] in *.
  f_equal; [|exact Hcount].
  apply map_eq. intros k. rewrite Hlook, map_lookup_filter.
  destruct (sessions !! k) as [s|]; [|reflexivity]. cbn.
  destruct (decide (expired now maxAge s)).
  - by rewrite option_guard_False by tauto.
  - by rewrite option_guard_True.
Qed.

Lemma cleanupOldSessions_lookup
    (now : Z) (sessions : gmap string ChatSession.t) (maxAge : Z)
    (key : string) (session : ChatSession.t) :
  sessions !! key = Some session ->
  (cleanupOldSessions now sessions maxAge).1 !! key
  = if decide (expired now maxAge session) then None else Some session.
Proof.
  intros Hkey. rewrite cleanupOldSessions_eq. cbn [fst].
  rewrite map_lookup_filter, Hkey. cbn.
  destruct (decide (expired now maxAge session)).
  - by rewrite option_guard_False by tauto.
  - by rewrite option_guard_True.
Qed.

(** X12: a second clean-up at the same time and with the same age removes
    nothing and returns 0. *)
Theorem cleanupOldSessions_idempotent
    (now : Z) (sessions : gmap string ChatSession.t) (maxAge : Z) :
  cleanupOldSessions now (cleanupOldSessions now sessions maxAge).1 maxAge
  = ((cleanupOldSessions now sessions maxAge).1, 0).
Proof.
  rewrite !cleanupOldSessions_eq. cbn [fst]. f_equal.
  - apply map_eq. intros k. rewrite !map_lookup_filter.
    destruct (sessions !! k) as [s|]; [|reflexivity]. cbn.
    destruct (decide (expired now maxAge s)).
    + by rewrite option_guard_False by tauto.
    + rewrite option_guard_True by done. cbn. by rewrite option_guard_True.
  - apply map_size_empty_iff, map_eq. intros k.
    rewrite lookup_empty, !map_lookup_filter.
    destruct (sessions !! k) as [s|]; [|reflexivity]. cbn.
    destruct (decide (expired now maxAge s)).
    + by rewrite option_guard_False by tauto.
    + rewrite option_guard_True by done. cbn. by rewrite option_guard_False.
Qed.

(** X13: after an answered turn the session outlives every clean-up that
    comes no later than [maxAge] after the reading of the clock that set
    [updatedAt]. *)
Theorem cleanupOldSessions_keeps_answered_session
    (parseFloat : string -> JSNumber) (env : TurnEnv)
    (session : ChatSession.t) (message assistantContent : string)
    (chatSessions : gmap string ChatSession.t) (key : string)
    (now maxAge : Z) :
  chatSessions !! key = Some (chatTurn parseFloat env session message).1 ->
  (chatTurn parseFloat env session message).2 = Replied assistantContent ->
  (now - updateClock env <= maxAge)%Z ->
  (cleanupOldSessions now chatSessions maxAge).1 !! key
  = Some (chatTurn parseFloat env session message).1.
Proof.
  intros Hkey Hreplied Hrecent. rewrite (cleanupOldSessions_lookup _ _ _ _ _ Hkey).
  unfold expired.
  destruct (chatTurn_cases parseFloat env session message)
    as [[answer Hturn]|[_ Hnot]]; [|by destruct (Hnot assistantContent)].
  rewrite Hturn. cbn [fst]. rewrite decide_False; [reflexivity|].
  rewrite pushAssistantMessage_updatedAt. lia.
Qed.

Lemma cleanupOldSessions_keeps_answered_session_witness :
  (cleanupOldSessions 86406000
     {[ "session-1"%string :=
          (chatTurn (fun _ => Fin 0) replying_env sample_session "hello").1 ]}
     86400000).1 !! "session-1"%string
  = Some (chatTurn (fun _ => Fin 0) replying_env sample_session "hello").1.
Proof.
  apply (cleanupOldSessions_keeps_answered_session
           (fun _ => Fin 0) replying_env sample_session "hello" "hi").
  - apply lookup_singleton_eq.
  - vm_compute. reflexivity.
  - vm_compute. discriminate.
Defined.

(** X14: a turn that is not answered does not protect the session: a
    clean-up removes it as soon as the [updatedAt] it had before the turn is
    older than [maxAge], however recent the user message. *)
Theorem cleanupOldSessions_removes_unanswered_session
    (parseFloat : string -> JSNumber) (env : TurnEnv)
    (session : ChatSession.t) (message : string)
    (chatSessions : gmap string ChatSession.t) (key : string)
    (now maxAge : Z) :
  chatSessions !! key = Some (chatTurn parseFloat env session message).1 ->
  (forall assistantContent,
     (chatTurn parseFloat env session message).2 <> Replied assistantContent) ->
  (maxAge < now - ChatSession.updatedAt session)%Z ->
  (cleanupOldSessions now chatSessions maxAge).1 !! key = None.
Proof.
  intros Hkey Hnot Hold. rewrite (cleanupOldSessions_lookup _ _ _ _ _ Hkey).
  unfold expired.
  destruct (chatTurn_cases parseFloat env session message)
    as [[answer Hturn]|[Hturn _]].
  - specialize (Hnot answer). by rewrite Hturn in Hnot.
  - rewrite decide_True; [reflexivity|]. rewrite Hturn. cbn. lia.
Qed.

Lemma cleanupOldSessions_removes_unanswered_session_witness :
  (cleanupOldSessions 86402000
     {[ "session-1"%string :=
          (chatTurn (fun _ => Fin 0) failing_env sample_session "hello").1 ]}
     86400000).1 !! "session-1"%string
  = None.
Proof.
  apply (cleanupOldSessions_removes_unanswered_session
           (fun _ => Fin 0) failing_env sample_session "hello").
  - apply lookup_singleton_eq.
  - intros assistantContent. vm_compute. discriminate.
  - vm_compute. reflexivity.
Defined.

(** X15: the statistics count every stored message once: the total is the
    number of user messages plus the number of assistant messages plus the
    number of stored messages of role [system]. *)
Theorem getSessionStats_counts (session : ChatSession.t) :
  SessionStats.totalMessages (getSessionStats session)
  = SessionStats.userMessages (getSessionStats session)
    + SessionStats.assistantMessages (getSessionStats session)
    + length (filter (fun m => ChatMessage.role m = system)
                     (ChatSession.messages session)).
Proof.
  unfold getSessionStats. cbn.
  induction (ChatSession.messages session) as [|m messages IH]; [reflexivity|].
  rewrite !filter_cons. cbn [length]. rewrite IH.
  destruct (ChatMessage.role m); repeat case_decide; try done; cbn [length]; lia.
Qed.

(** X16: a turn adds one to the number of user messages, and one to the
    number of assistant messages exactly when it is answered; the
    statistics of the transcript do not change. *)
Theorem getSessionStats_after_turn
    (parseFloat : string -> JSNumber) (env : TurnEnv)
    (session : ChatSession.t) (message : string) :
  SessionStats.userMessages
    (getSessionStats (chatTurn parseFloat env session message).1)
  = S (SessionStats.userMessages (getSessionStats session))
  /\ SessionStats.assistantMessages
       (getSessionStats (chatTurn parseFloat env session message).1)
     = SessionStats.assistantMessages (getSessionStats session)
       + match (chatTurn parseFloat env session message).2 with
         | Replied _ => 1
         | _ => 0
         end
  /\ SessionStats.totalMessages
       (getSessionStats (chatTurn parseFloat env session message).1)
     = SessionStats.totalMessages (getSessionStats session)
       + match (chatTurn parseFloat env session message).2 with
         | Replied _ => 2
         | _ => 1
         end
  /\ SessionStats.transcriptSegments
       (getSessionStats (chatTurn parseFloat env session message).1)
     = SessionStats.transcriptSegments (getSessionStats session)
  /\ SessionStats.totalTranscriptLength
       (getSessionStats (chatTurn parseFloat env session message).1)
     = SessionStats.totalTranscriptLength (getSessionStats session).
Proof.
  destruct (chatTurn_cases parseFloat env session message)
    as [[answer ->]|[Hturn Hnot]].
  - cbn. rewrite !filter_app, !length_app, !filter_cons, !filter_nil. cbn.
    repeat case_decide; try done. cbn. repeat split; lia.
  - rewrite Hturn.
    assert (Hother : match (chatTurn parseFloat env session message).2 with
                     | Replied _ => False
                     | _ => True
                     end).
    { destruct (chatTurn parseFloat env session message).2; try exact I.
      by eapply Hnot. }
    destruct (chatTurn parseFloat env session message).2; try done;
      cbn; rewrite !filter_app, !length_app, !filter_cons, !filter_nil; cbn;
      repeat case_decide; try done; cbn; repeat split; lia.
Qed.

(** X20: a successful [DELETE] removes the session and nothing else: [GET]
    and a second [DELETE] with the same id answer not found, and the other
    sessions are left as they were. *)
Theorem deleteChat_removes_session
    (chatSessions : gmap string ChatSession.t) (key : string) :
  (deleteChat chatSessions (Some key)).2 = DeleteOk ->
  getChat (deleteChat chatSessions (Some key)).1 (Some key) = GetNotFound
  /\ deleteChat (deleteChat chatSessions (Some key)).1 (Some key)
     = ((deleteChat chatSessions (Some key)).1, DeleteNotFound)
  /\ forall other,
       other <> key ->
       getChat (deleteChat chatSessions (Some key)).1 (Some other)
       = getChat chatSessions (Some other).
Proof.
  unfold deleteChat, getChat.
  destruct (String.eqb key ""); [discriminate|].
  destruct (String.length (JS.trim key) =? 0); [discriminate|].
  destruct (chatSessions !! key) eqn:Hkey; [|discriminate].
  intros _. cbn [fst snd]. rewrite lookup_delete_eq.
  repeat split. intros other Hother.
  by rewrite lookup_delete_ne.
Qed.

Lemma deleteChat_removes_session_witness :
  getChat (deleteChat {[ "session-1"%string := sample_session ]}
             (Some "session-1"%string)).1 (Some "session-1"%string)
  = GetNotFound
  /\ deleteChat (deleteChat {[ "session-1"%string := sample_session ]}
                   (Some "session-1"%string)).1 (Some "session-1"%string)
     = ((deleteChat {[ "session-1"%string := sample_session ]}
           (Some "session-1"%string)).1, DeleteNotFound)
  /\ forall other,
       other <> "session-1"%string ->
       getChat (deleteChat {[ "session-1"%string := sample_session ]}
                  (Some "session-1"%string)).1 (Some other)
       = getChat {[ "session-1"%string := sample_session ]} (Some other).
Proof.
  apply (deleteChat_removes_session
           {[ "session-1"%string := sample_session ]} "session-1").
  vm_compute. reflexivity.
Defined.

(** ** Fetching with fallback languages: properties *)

Section Fallback.

Context (getSubtitles : nat -> string -> SubtitleOutcome).
Context (languageNameOf : string -> string).
Context (videoId preferredLang : string) (langsToTry : list string).

(** The loop stops at the first call that returns captions or fails at the
    level of the video; the calls before it failed at the level of the
    language. *)
Lemma tryLanguages_spec (calls : nat) (remaining : list string) :
  exists made,
    (tryLanguages getSubtitles languageNameOf videoId preferredLang langsToTry
       calls remaining).2 = calls + made
    /\ made <= length remaining
    /\ (forall i lang, i < made - 1 -> remaining !! i = Some lang ->
          languageLevelFailure getSubtitles videoId (calls + i) lang)
    /\ match (tryLanguages getSubtitles languageNameOf videoId preferredLang
                langsToTry calls remaining).1 with
       | FallbackOk transcript lang name attempted =>
           0 < made
           /\ remaining !! (made - 1) = Some lang
           /\ getSubtitles (calls + (made - 1)) lang = Captions transcript
           /\ transcript <> []
           /\ name = languageNameOf lang
           /\ attempted
              = JS.slice_to (Z.to_nat (indexOf lang langsToTry + 1)) langsToTry
       | FallbackError error =>
           (isVideoLevel (YouTubeTranscriptError.code error) = true
            /\ 0 < made
            /\ exists lang,
                 remaining !! (made - 1) = Some lang
                 /\ fetchTranscript (getSubtitles (calls + (made - 1)) lang)
                      videoId lang = inr error)
           \/ (YouTubeTranscriptError.code error = LANGUAGE_NOT_AVAILABLE
               /\ YouTubeTranscriptError.language error = preferredLang
               /\ YouTubeTranscriptError.videoId error = videoId
               /\ made = length remaining
               /\ forall i lang, remaining !! i = Some lang ->
                    languageLevelFailure getSubtitles videoId (calls + i) lang)
       end.
Proof.
  revert calls. induction remaining as [|lang rest IH]; intros calls.
  - exists 0. cbn [tryLanguages fst snd length].
    split; [lia|]. split; [lia|]. split; [intros; lia|].
    right. split; [reflexivity|]. split; [reflexivity|]. split; [reflexivity|].
    split; [reflexivity|]. intros i l Hl. by rewrite lookup_nil in Hl.
  - cbn [tryLanguages].
    destruct (fetchTranscript (getSubtitles calls lang) videoId lang)
      as [transcript|error] eqn:Hfetch.
    + exists 1. cbn [fst snd length]. replace (1 - 1) with 0 by lia.
      rewrite Nat.add_0_r.
      split; [lia|]. split; [lia|]. split; [intros; lia|].
      assert (Hcaptions : getSubtitles calls lang = Captions transcript
                          /\ transcript <> []).
      { unfold fetchTranscript in Hfetch.
        destruct (getSubtitles calls lang) as [captions| |]; try discriminate.
        destruct (length captions =? 0) eqn:Hlen; [discriminate|].
        injection Hfetch as <-. apply Nat.eqb_neq in Hlen.
        split; [reflexivity | by destruct captions]. }
      destruct Hcaptions as [Hcaptions Hnonempty].
      split; [lia|]. split; [reflexivity|]. split; [exact Hcaptions|].
      split; [exact Hnonempty|]. split; reflexivity.
    + destruct (isVideoLevel (YouTubeTranscriptError.code error)) eqn:Hlevel.
      * exists 1. cbn [fst snd length]. replace (1 - 1) with 0 by lia.
        rewrite Nat.add_0_r.
        split; [lia|]. split; [lia|]. split; [intros; lia|].
        left. split; [exact Hlevel|]. split; [lia|]. by exists lang.
      * destruct (IH (S calls)) as (made & Hcalls & Hmade & Hbefore & Hresult).
        assert (Hfirst : languageLevelFailure getSubtitles videoId calls lang)
          by (by exists error).
        exists (S made). rewrite Hcalls. split; [lia|]. split; [cbn; lia|].
        split.
        -- intros [|i] l Hi Hl.
           ++ injection Hl as <-. by rewrite Nat.add_0_r.
           ++ replace (calls + S i) with (S calls + i) by lia.
              apply Hbefore; [lia | exact Hl].
        -- destruct (tryLanguages _ _ _ _ _ (S calls) rest).1
             as [transcript l name attempted|failure].
           ++ destruct Hresult as (Hpos & Hl & Hcaptions & Hrest).
              replace (S made - 1) with (S (made - 1)) by lia.
              replace (calls + S (made - 1)) with (S calls + (made - 1)) by lia.
              split; [lia|]. split; [exact Hl|]. split; [exact Hcaptions|].
              exact Hrest.
           ++ destruct Hresult
                as [(Hvideo & Hpos & l & Hl & Hfail)
                   |(Hcode & Hlang & Hvid & Hall & Hfails)].
              ** left. replace (S made - 1) with (S (made - 1)) by lia.
                 replace (calls + S (made - 1)) with (S calls + (made - 1)) by lia.
                 split; [exact Hvideo|]. split; [lia|]. by exists l.
              ** right. split; [exact Hcode|]. split; [exact Hlang|].
                 split; [exact Hvid|]. split; [cbn; lia|].
                 intros [|i] l Hl.
                 --- injection Hl as <-. by rewrite Nat.add_0_r.
                 --- replace (calls + S i) with (S calls + i) by lia.
                     by apply Hfails.
Qed.

End Fallback.

Lemma indexOfFrom_spec (x : string) (arr : list string) (from : Z) :
  x ∈ arr ->
  exists i,
    indexOfFrom x arr from = (from + Z.of_nat i)%Z
    /\ arr !! i = Some x
    /\ forall j, j < i -> arr !! j <> Some x.
Proof.
  revert from. induction arr as [|y arr IH]; intros from Hin.
  - by apply elem_of_nil in Hin.
  - cbn [indexOfFrom]. destruct (String.eqb_spec y x) as [->|Hne].
    + exists 0. repeat split; [lia | intros; lia].
    + apply elem_of_cons in Hin as [->|Hin]; [done|].
      destruct (IH (from + 1)%Z Hin) as (i & Hi & Hlook & Hfirst).
      exists (S i). repeat split; [lia | exact Hlook |].
      intros [|j] Hj; cbn; [congruence | apply Hfirst; lia].
Qed.

Lemma fetchTranscriptWithFallback_spec
    (getSubtitles : nat -> string -> SubtitleOutcome)
    (languageNameOf : string -> string)
    (videoId preferredLang : string) (fallbackLangs : list string) :
  exists made,
    (fetchTranscriptWithFallback getSubtitles languageNameOf videoId
       preferredLang fallbackLangs).2 = made
    /\ made <= length (langsToTryOf preferredLang fallbackLangs)
    /\ (forall i lang,
          i < made - 1 ->
          langsToTryOf preferredLang fallbackLangs !! i = Some lang ->
          languageLevelFailure getSubtitles videoId i lang)
    /\ match (fetchTranscriptWithFallback getSubtitles languageNameOf videoId
                preferredLang fallbackLangs).1 with
       | FallbackOk transcript lang name attempted =>
           0 < made
           /\ langsToTryOf preferredLang fallbackLangs !! (made - 1) = Some lang
           /\ getSubtitles (made - 1) lang = Captions transcript
           /\ transcript <> []
           /\ name = languageNameOf lang
           /\ attempted
              = JS.slice_to
                  (Z.to_nat
                     (indexOf lang (langsToTryOf preferredLang fallbackLangs) + 1))
                  (langsToTryOf preferredLang fallbackLangs)
       | FallbackError error =>
           (isVideoLevel (YouTubeTranscriptError.code error) = true
            /\ 0 < made
            /\ exists lang,
                 langsToTryOf preferredLang fallbackLangs !! (made - 1) = Some lang
                 /\ fetchTranscript (getSubtitles (made - 1) lang) videoId lang
                    = inr error)
           \/ (YouTubeTranscriptError.code error = LANGUAGE_NOT_AVAILABLE
               /\ YouTubeTranscriptError.language error = preferredLang
               /\ YouTubeTranscriptError.videoId error = videoId
               /\ made = length (langsToTryOf preferredLang fallbackLangs)
               /\ forall i lang,
                    langsToTryOf preferredLang fallbackLangs !! i = Some lang ->
                    languageLevelFailure getSubtitles videoId i lang)
       end.
Proof.
  unfold fetchTranscriptWithFallback.
  destruct (tryLanguages_spec getSubtitles languageNameOf videoId preferredLang
              (langsToTryOf preferredLang fallbackLangs) 0
              (langsToTryOf preferredLang fallbackLangs))
    as (made & Hcalls & Hmade & Hbefore & Hresult).
  exists made. split; [exact Hcalls|]. split; [exact Hmade|].
  split; [exact Hbefore | exact Hresult].
Qed.

Lemma take_succ_last {A} (l : list A) (i : nat) (x : A) :
  l !! i = Some x -> last (take (S i) l) = Some x.
Proof. intros Hi. by rewrite (take_S_r _ _ _ Hi), last_snoc. Qed.

(** X21: a transcript returned by the fetch with fallback is never empty.
    It is what the last call of [getSubtitles] returned, for the language
    reported; every earlier call failed at the level of its language; and
    the languages reported as attempted are the languages to try up to the
    reported one. *)
Theorem fetchTranscriptWithFallback_success
    (getSubtitles : nat -> string -> SubtitleOutcome)
    (languageNameOf : string -> string)
    (videoId preferredLang : string) (fallbackLangs : list string)
    (transcript : list TranscriptItem.t) (language name : string)
    (attempted : list string) (calls : nat) :
  fetchTranscriptWithFallback getSubtitles languageNameOf videoId preferredLang
    fallbackLangs
  = (FallbackOk transcript language name attempted, calls) ->
  transcript <> []
  /\ 0 < calls
  /\ langsToTryOf preferredLang fallbackLangs !! (calls - 1) = Some language
  /\ getSubtitles (calls - 1) language = Captions transcript
  /\ (forall i lang,
        i < calls - 1 ->
        langsToTryOf preferredLang fallbackLangs !! i = Some lang ->
        languageLevelFailure getSubtitles videoId i lang)
  /\ attempted `prefix_of` langsToTryOf preferredLang fallbackLangs
  /\ last attempted = Some language.
Proof.
  intros Hfetch.
  destruct (fetchTranscriptWithFallback_spec getSubtitles languageNameOf videoId
              preferredLang fallbackLangs)
    as (made & Hcalls & Hmade & Hbefore & Hresult).
  rewrite Hfetch in Hcalls, Hresult. cbn [fst snd] in *. subst made.
  destruct Hresult as (Hpos & Hlang & Hcaptions & Hnonempty & _ & ->).
  split; [exact Hnonempty|]. split; [exact Hpos|]. split; [exact Hlang|].
  split; [exact Hcaptions|]. split; [exact Hbefore|].
  assert (Hin : language ∈ langsToTryOf preferredLang fallbackLangs)
    by (by eapply list_elem_of_lookup_2).
  destruct (indexOfFrom_spec language _ 0 Hin) as (i & Hindex & Hi & _).
  unfold indexOf, JS.slice_to. rewrite Hindex.
  replace (Z.to_nat (0 + Z.of_nat i + 1)) with (S i) by lia.
  split; [apply prefix_take | by apply take_succ_last].
Qed.

Lemma fetchTranscriptWithFallback_success_witness :
  [TranscriptItem.mk "0" "2" "hola"] <> []
  /\ 0 < 2
  /\ langsToTryOf "en" ["en"; "es"; "fr"; "de"]%string !! (2 - 1)
     = Some "es"%string
  /\ spanish_getSubtitles (2 - 1) "es" = Captions [TranscriptItem.mk "0" "2" "hola"]
  /\ (forall i lang,
        i < 2 - 1 ->
        langsToTryOf "en" ["en"; "es"; "fr"; "de"]%string !! i = Some lang ->
        languageLevelFailure spanish_getSubtitles "dQw4w9WgXcQ" i lang)
  /\ ["en"; "es"]%string `prefix_of` langsToTryOf "en" ["en"; "es"; "fr"; "de"]%string
  /\ last ["en"; "es"]%string = Some "es"%string.
Proof.
  apply (fetchTranscriptWithFallback_success spanish_getSubtitles (fun lang => lang)
           "dQw4w9WgXcQ" "en" ["en"; "es"; "fr"; "de"]%string
           [TranscriptItem.mk "0" "2" "hola"] "es" "es" ["en"; "es"]%string 2).
  vm_compute. reflexivity.
Defined.

Lemma fetchTranscript_error_videoId (outcome : SubtitleOutcome)
    (videoId lang : string) (error : YouTubeTranscriptError.t) :
  fetchTranscript outcome videoId lang = inr error ->
  YouTubeTranscriptError.videoId error = videoId
  /\ YouTubeTranscriptError.language error = lang.
Proof.
  unfold fetchTranscript.
  destruct outcome as [captions| |thrown].
  - destruct (length captions =? 0); [|discriminate]. by intros [= <-].
  - by intros [= <-].
  - intros [= <-]. unfold parseTranscriptError.
    repeat (destruct (_ || _); [by split|]). by split.
Qed.

(** X22: the fetch with fallback throws five codes only: the four codes of
    the level of the video, from the call that stopped the search, and
    [LANGUAGE_NOT_AVAILABLE] when every language was tried.  It never
    reports a network error, a rate limit or an unknown error, and the
    transcript route answers its errors with status 404 or 403. *)
Theorem fetchTranscriptWithFallback_error_codes
    (getSubtitles : nat -> string -> SubtitleOutcome)
    (languageNameOf : string -> string)
    (videoId preferredLang : string) (fallbackLangs : list string)
    (error : YouTubeTranscriptError.t) (calls : nat) :
  fetchTranscriptWithFallback getSubtitles languageNameOf videoId preferredLang
    fallbackLangs
  = (FallbackError error, calls) ->
  YouTubeTranscriptError.code error
    ∈ [VIDEO_NOT_FOUND; PRIVATE_VIDEO; REGION_BLOCKED; NO_CAPTIONS_AVAILABLE;
       LANGUAGE_NOT_AVAILABLE]
  /\ (getStatusCodeForError (YouTubeTranscriptError.code error) = 404%Z
      \/ getStatusCodeForError (YouTubeTranscriptError.code error) = 403%Z)
  /\ YouTubeTranscriptError.videoId error = videoId.
Proof.
  intros Hfetch.
  destruct (fetchTranscriptWithFallback_spec getSubtitles languageNameOf videoId
              preferredLang fallbackLangs)
    as (made & Hcalls & Hmade & Hbefore & Hresult).
  rewrite Hfetch in Hresult. cbn [fst] in Hresult.
  destruct Hresult as [(Hvideo & _ & lang & _ & Herror)|(Hcode & _ & Hvid & _)].
  - apply fetchTranscript_error_videoId in Herror as [Hvid _].
    destruct (YouTubeTranscriptError.code error);
      try (vm_compute in Hvideo; discriminate);
      (split; [repeat constructor | split; [cbn; auto | exact Hvid]]).
  - rewrite Hcode. split; [repeat constructor|]. split; [by left | exact Hvid].
Qed.

Lemma fetchTranscriptWithFallback_error_codes_witness :
  LANGUAGE_NOT_AVAILABLE
    ∈ [VIDEO_NOT_FOUND; PRIVATE_VIDEO; REGION_BLOCKED; NO_CAPTIONS_AVAILABLE;
       LANGUAGE_NOT_AVAILABLE]
  /\ (getStatusCodeForError LANGUAGE_NOT_AVAILABLE = 404%Z
      \/ getStatusCodeForError LANGUAGE_NOT_AVAILABLE = 403%Z)
  /\ "dQw4w9WgXcQ"%string = "dQw4w9WgXcQ"%string.
Proof.
  apply (fetchTranscriptWithFallback_error_codes failing_getSubtitles
           (fun lang => lang) "dQw4w9WgXcQ" "en" ["en"; "es"; "fr"; "de"]%string
           (YouTubeTranscriptError.mk
              "No transcript available for video dQw4w9WgXcQ in any of the attempted languages: en, es, fr, de"
              LANGUAGE_NOT_AVAILABLE "dQw4w9WgXcQ" "en") 4).
  vm_compute. reflexivity.
Defined.

Lemma tryLanguages_exhausted
    (getSubtitles : nat -> string -> SubtitleOutcome)
    (languageNameOf : string -> string)
    (videoId preferredLang : string) (langsToTry : list string)
    (calls : nat) (remaining : list string) :
  (forall i lang, remaining !! i = Some lang ->
                  languageLevelFailure getSubtitles videoId (calls + i) lang) ->
  tryLanguages getSubtitles languageNameOf videoId preferredLang langsToTry
    calls remaining
  = (FallbackError
       (YouTubeTranscriptError.mk
          ("No transcript available for video " +:+ videoId
           +:+ " in any of the attempted languages: "
           +:+ JS.join ", " langsToTry)
          LANGUAGE_NOT_AVAILABLE videoId preferredLang),
     calls + length remaining).
Proof.
  revert calls. induction remaining as [|lang rest IH]; intros calls Hfail.
  - cbn. by rewrite Nat.add_0_r.
  - cbn [tryLanguages].
    destruct (Hfail 0 lang eq_refl) as (error & Herror & Hlevel).
    rewrite Nat.add_0_r in Herror. rewrite Herror, Hlevel, IH.
    + cbn [length]. f_equal. lia.
    + intros i l Hl. replace (S calls + i) with (calls + S i) by lia.
      by apply Hfail.
Qed.

(** X23: when the call for every language fails at the level of the
    language (language not available, but also a network error, a rate
    limit or an unknown error), the error thrown has the code
    [LANGUAGE_NOT_AVAILABLE] and names the preferred language, after one
    call for each language to try. *)
Theorem fetchTranscriptWithFallback_all_fail
    (getSubtitles : nat -> string -> SubtitleOutcome)
    (languageNameOf : string -> string)
    (videoId preferredLang : string) (fallbackLangs : list string) :
  (forall i lang,
     langsToTryOf preferredLang fallbackLangs !! i = Some lang ->
     languageLevelFailure getSubtitles videoId i lang) ->
  fetchTranscriptWithFallback getSubtitles languageNameOf videoId preferredLang
    fallbackLangs
  = (FallbackError
       (YouTubeTranscriptError.mk
          ("No transcript available for video " +:+ videoId
           +:+ " in any of the attempted languages: "
           +:+ JS.join ", " (langsToTryOf preferredLang fallbackLangs))
          LANGUAGE_NOT_AVAILABLE videoId preferredLang),
     length (langsToTryOf preferredLang fallbackLangs)).
Proof.
  intros Hfail. unfold fetchTranscriptWithFallback.
  by rewrite tryLanguages_exhausted.
Qed.

Lemma fetchTranscriptWithFallback_all_fail_witness :
  fetchTranscriptWithFallback failing_getSubtitles (fun lang => lang)
    "dQw4w9WgXcQ" "en" ["en"; "es"; "fr"; "de"]%string
  = (FallbackError
       (YouTubeTranscriptError.mk
          ("No transcript available for video " +:+ "dQw4w9WgXcQ"
           +:+ " in any of the attempted languages: "
           +:+ JS.join ", " (langsToTryOf "en" ["en"; "es"; "fr"; "de"]%string))
          LANGUAGE_NOT_AVAILABLE "dQw4w9WgXcQ" "en"),
     length (langsToTryOf "en" ["en"; "es"; "fr"; "de"]%string)).
Proof.
  apply (fetchTranscriptWithFallback_all_fail failing_getSubtitles
           (fun lang => lang) "dQw4w9WgXcQ" "en" ["en"; "es"; "fr"; "de"]%string).
  intros i lang _.
  exists (parseTranscriptError (ThrownError "Request timeout") "dQw4w9WgXcQ" lang).
  split; [reflexivity | vm_compute; reflexivity].
Defined.

(** X24: when the call for the preferred language returns an empty list of
    captions, or nothing, the search ends there: the error is
    [NO_CAPTIONS_AVAILABLE] for the preferred language and no fallback
    language is tried. *)
Theorem fetchTranscriptWithFallback_empty_captions
    (getSubtitles : nat -> string -> SubtitleOutcome)
    (languageNameOf : string -> string)
    (videoId preferredLang : string) (fallbackLangs : list string) :
  getSubtitles 0 preferredLang = Captions []
  \/ getSubtitles 0 preferredLang = NoCaptions ->
  fetchTranscriptWithFallback getSubtitles languageNameOf videoId preferredLang
    fallbackLangs
  = (FallbackError
       (YouTubeTranscriptError.mk
          ("No captions found for video " +:+ videoId +:+ " in language "
           +:+ preferredLang)
          NO_CAPTIONS_AVAILABLE videoId preferredLang),
     1).
Proof.
  unfold fetchTranscriptWithFallback, langsToTryOf. cbn [tryLanguages].
  by intros [-> | ->].
Qed.

Lemma fetchTranscriptWithFallback_empty_captions_witness :
  fetchTranscriptWithFallback sample_getSubtitles (fun lang => lang)
    "dQw4w9WgXcQ" "en" ["en"; "es"; "fr"; "de"]%string
  = (FallbackError
       (YouTubeTranscriptError.mk
          ("No captions found for video " +:+ "dQw4w9WgXcQ" +:+ " in language "
           +:+ "en")
          NO_CAPTIONS_AVAILABLE "dQw4w9WgXcQ" "en"),
     1).
Proof.
  apply (fetchTranscriptWithFallback_empty_captions sample_getSubtitles
           (fun lang => lang) "dQw4w9WgXcQ" "en" ["en"; "es"; "fr"; "de"]%string).
  left. reflexivity.
Defined.

(** X25: the fetch with fallback calls [getSubtitles] at least once and at
    most once more than there are fallback languages; the preferred language
    comes first and is not tried a second time. *)
Theorem fetchTranscriptWithFallback_calls
    (getSubtitles : nat -> string -> SubtitleOutcome)
    (languageNameOf : string -> string)
    (videoId preferredLang : string) (fallbackLangs : list string) :
  1 <= (fetchTranscriptWithFallback getSubtitles languageNameOf videoId
          preferredLang fallbackLangs).2
    <= S (length fallbackLangs)
  /\ langsToTryOf preferredLang fallbackLangs !! 0 = Some preferredLang
  /\ forall i, 0 < i ->
       langsToTryOf preferredLang fallbackLangs !! i <> Some preferredLang.
Proof.
  destruct (fetchTranscriptWithFallback_spec getSubtitles languageNameOf videoId
              preferredLang fallbackLangs)
    as (made & -> & Hmade & _ & Hresult).
  assert (Hlen : length (langsToTryOf preferredLang fallbackLangs)
                 <= S (length fallbackLangs)).
  { unfold langsToTryOf. cbn [length].
    pose proof (length_filter (fun lang => lang <> preferredLang) fallbackLangs).
    lia. }
  split; [|split; [reflexivity|]].
  - split; [|lia].
    destruct (fetchTranscriptWithFallback _ _ _ _ _).1.
    + destruct Hresult as [Hpos _]. lia.
    + destruct Hresult as [(_ & Hpos & _)|(_ & _ & _ & -> & _)]; [lia|].
      unfold langsToTryOf. cbn [length]. lia.
  - intros [|i] Hi Hlook; [lia|]. unfold langsToTryOf in Hlook. cbn in Hlook.
    apply list_elem_of_lookup_2, list_elem_of_filter in Hlook as [Hne _].
    by apply Hne.
Qed.

(** ** Transcript formatter: further properties *)

Lemma trimEnd_cons (c : ascii) (s : string) :
  JS.trimEnd (String c s)
  = match JS.trimEnd s with
    | EmptyString =>
        if JS.isWhiteSpace c then EmptyString else String c EmptyString
    | String _ _ as kept => String c kept
    end.
Proof. reflexivity. Qed.

Lemma trimEnd_idempotent (s : string) : JS.trimEnd (JS.trimEnd s) = JS.trimEnd s.
Proof.
  induction s as [|c s IH]; [reflexivity|]. rewrite trimEnd_cons.
  destruct (JS.trimEnd s) as [|d kept] eqn:Hkept.
  - destruct (JS.isWhiteSpace c) eqn:Hc; [reflexivity|]. cbn. by rewrite Hc.
  - by rewrite trimEnd_cons, IH.
Qed.

Lemma trimStart_fixed (s : string) :
  JS.startsWithWhiteSpace s = false -> JS.trimStart s = s.
Proof. destruct s as [|c s]; [reflexivity|]. cbn. by intros ->. Qed.

Lemma trimStart_starts (s : string) :
  JS.startsWithWhiteSpace (JS.trimStart s) = false.
Proof.
  induction s as [|c s IH]; [reflexivity|]. cbn [JS.trimStart].
  destruct (JS.isWhiteSpace c) eqn:Hc; [exact IH | cbn; exact Hc].
Qed.

Lemma trimEnd_starts (s : string) :
  JS.startsWithWhiteSpace s = false ->
  JS.startsWithWhiteSpace (JS.trimEnd s) = false.
Proof.
  destruct s as [|c s]; [reflexivity|]. cbn. intros Hc.
  destruct (JS.trimEnd s); [by rewrite Hc | exact Hc].
Qed.

Lemma trim_idempotent (s : string) : JS.trim (JS.trim s) = JS.trim s.
Proof.
  unfold JS.trim.
  rewrite (trimStart_fixed (JS.trimEnd (JS.trimStart s)))
    by apply trimEnd_starts, trimStart_starts.
  apply trimEnd_idempotent.
Qed.

Lemma trimStart_chars (s : string) (c : ascii) :
  In c (list_ascii_of_string (JS.trimStart s)) -> In c (list_ascii_of_string s).
Proof.
  induction s as [|d s IH]; [done|]. cbn [JS.trimStart].
  destruct (JS.isWhiteSpace d); [|done]. intros Hin. right. by apply IH.
Qed.

Lemma trimEnd_chars (s : string) (c : ascii) :
  In c (list_ascii_of_string (JS.trimEnd s)) -> In c (list_ascii_of_string s).
Proof.
  induction s as [|d s IH]; [done|]. cbn [JS.trimEnd].
  destruct (JS.trimEnd s) as [|e kept].
  - destruct (JS.isWhiteSpace d); [done|]. cbn. tauto.
  - cbn [list_ascii_of_string]. intros [->|Hin]; [by left | right; by apply IH].
Qed.

Lemma replaceAll_chars (from to : ascii) (s : string) :
  from <> to -> ~ In from (list_ascii_of_string (JS.replaceAll from to s)).
Proof.
  intros Hne. induction s as [|d s IH]; [by intros []|].
  cbn. intros [Heq|Hin]; [|by apply IH].
  destruct (Ascii.eqb_spec d from); congruence.
Qed.

(** X26: the items [formatTranscriptData] builds.  There is one for each raw
    item, in order; each has its start and end times rendered, its end is
    its start plus its duration, and its text has no line feed and no white
    space at either end (trimming it again changes nothing). *)
Theorem formatTranscriptData_items
    (parseFloat : string -> JSNumber) (rawTranscript : list TranscriptItem.t) :
  length (formatTranscriptData parseFloat rawTranscript) = length rawTranscript
  /\ Forall (fun item =>
               FormattedTranscriptItem.startTime item
               = Some (formatTime (FormattedTranscriptItem.start item))
               /\ FormattedTranscriptItem.endTime item
                  = Some (formatTime (FormattedTranscriptItem.end_ item))
               /\ FormattedTranscriptItem.end_ item
                  = Num.add (FormattedTranscriptItem.start item)
                            (FormattedTranscriptItem.duration item)
               /\ JS.trim (FormattedTranscriptItem.text item)
                  = FormattedTranscriptItem.text item
               /\ ~ In (ascii_of_nat 10)
                       (list_ascii_of_string (FormattedTranscriptItem.text item)))
            (formatTranscriptData parseFloat rawTranscript).
Proof.
  unfold formatTranscriptData. split; [apply length_map|].
  apply Forall_forall. intros item (raw & -> & _)%list_elem_of_fmap.
  unfold formatItem. cbn.
  split; [reflexivity|]. split; [reflexivity|]. split; [reflexivity|].
  split; [apply trim_idempotent|].
  intros Hin. unfold JS.trim in Hin.
  apply trimEnd_chars, trimStart_chars in Hin.
  by apply replaceAll_chars in Hin.
Qed.

Lemma string_prefix_append (p rest : string) : String.prefix p (p +:+ rest) = true.
Proof.
  induction p as [|c p IH]; [by destruct rest|].
  change (String c p +:+ rest) with (String c (p +:+ rest)). cbn [String.prefix].
  destruct (ascii_dec c c); [exact IH | done].
Qed.

Lemma string_append_assoc (a b c : string) : (a +:+ b) +:+ c = a +:+ (b +:+ c).
Proof.
  induction a as [|x a IH]; [reflexivity|].
  change (String x ((a +:+ b) +:+ c) = String x (a +:+ (b +:+ c))). by f_equal.
Qed.

(** X27: the numbered formats count the segments from 1, in order: the
    [srt] output is the blocks joined by a line feed, one block for each
    segment, and block [i] begins with the line [i + 1]; the [segments]
    output has the ids [1, ..., n] and the texts of the segments. *)
Theorem formatTranscriptOutput_numbering
    (transcript : list FormattedTranscriptItem.t) :
  (exists blocks,
     formatTranscriptOutput transcript SRT = OutString (JS.join JS.newline blocks)
     /\ length blocks = length transcript
     /\ forall i block,
          blocks !! i = Some block ->
          String.prefix (Num.decimal (Z.of_nat (i + 1)) +:+ JS.newline) block
          = true)
  /\ (exists items,
        formatTranscriptOutput transcript SEGMENTS = OutSegments items
        /\ map SegmentItem.id items = seq 1 (length transcript)
        /\ map SegmentItem.text items
           = map FormattedTranscriptItem.text transcript).
Proof.
  split.
  - exists (imap srtBlock transcript). split; [reflexivity|].
    split; [apply length_imap|].
    intros i block Hblock. rewrite list_lookup_imap in Hblock.
    destruct (transcript !! i) as [item|]; [|discriminate].
    injection Hblock as <-. unfold srtBlock.
    rewrite <- string_append_assoc. apply string_prefix_append.
  - eexists. split; [reflexivity|].
    change (map ?f ?l) with (f <$> l). rewrite !fmap_imap. split.
    + rewrite <- fmap_S_seq, <- (imap_seq_0 transcript S).
      apply imap_ext. intros i item _. cbn. lia.
    + by rewrite <- imap_const.
Qed.

Lemma string_of_uint_no_dot (d : Decimal.uint) :
  ~ In "."%char (list_ascii_of_string (NilEmpty.string_of_uint d)).
Proof.
  induction d; cbn; [tauto|..]; intros [Hdot|Hin]; try discriminate; done.
Qed.

Lemma decimal_no_dot (z : Z) :
  ~ In "."%char (list_ascii_of_string (Num.decimal z)).
Proof.
  unfold Num.decimal, NilZero.string_of_int.
  destruct (Z.to_int z) as [d|d].
  - unfold NilZero.string_of_uint.
    destruct d; try apply string_of_uint_no_dot.
    cbn. intros [Hdot|[]]. discriminate.
  - unfold NilZero.string_of_uint. cbn [list_ascii_of_string].
    intros [Hdot|Hin]; [discriminate|]. revert Hin.
    destruct d; try apply string_of_uint_no_dot.
    cbn. intros [Hdot|[]]. discriminate.
Qed.

Lemma toString_no_dot (n : option Z) :
  ~ In "."%char (list_ascii_of_string (Num.toString n)).
Proof.
  destruct n as [z|]; [apply decimal_no_dot|].
  cbn. intros [H|[H|[H|[]]]]; discriminate.
Qed.

Lemma list_ascii_of_string_append (s1 s2 : string) :
  list_ascii_of_string (s1 +:+ s2)
  = (list_ascii_of_string s1 ++ list_ascii_of_string s2)%list.
Proof.
  induction s1 as [|c s1 IH]; [reflexivity|].
  change (String c s1 +:+ s2) with (String c (s1 +:+ s2)). cbn. by f_equal.
Qed.

Lemma padStart_no_dot (target : nat) (s : string) :
  ~ In "."%char (list_ascii_of_string s) ->
  ~ In "."%char (list_ascii_of_string (JS.padStart target "0" s)).
Proof.
  intros Hs. unfold JS.padStart. rewrite list_ascii_of_string_append.
  intros [Hpad|Hin]%in_app_or; [|by apply Hs].
  induction (target - String.length s) as [|n IH]; [done|].
  cbn in Hpad. destruct Hpad as [Hdot|Hpad]; [discriminate | by apply IH].
Qed.

Lemma replaceFirst_append (from to : ascii) (s1 s2 : string) :
  ~ In from (list_ascii_of_string s1) ->
  JS.replaceFirst from to (s1 +:+ s2) = s1 +:+ JS.replaceFirst from to s2.
Proof.
  induction s1 as [|c s1 IH]; [reflexivity|]. intros Hs1.
  change (String c s1 +:+ ?s) with (String c (s1 +:+ s)).
  cbn [JS.replaceFirst]. destruct (Ascii.eqb_spec c from) as [->|Hne].
  - exfalso. apply Hs1. by left.
  - rewrite IH; [reflexivity|]. intros Hin. apply Hs1. by right.
Qed.

(** X28: the two renderings of a time for [srt], for a time that is [NaN]
    or a finite time from 0 to below 10^21 seconds (where the hours print in
    plain decimal).  The download of the page always prints the hours; the
    server prints [formatTime] with a comma, which has the hours only when
    they are positive.  So the time of the page is the time of the server
    when the hours are positive, and the hours field followed by the time of
    the server otherwise. *)
Theorem pageFormatTime_vs_formatTime (seconds : JSNumber) :
  match seconds with
  | NaN => True
  | Fin q => (0 <= q)%Q /\ (q < inject_Z (10 ^ 21))%Q
  end ->
  pageFormatTime seconds
  = (if Num.isPositive (Num.floor (Num.divBy 3600 seconds)) then ""
     else JS.padStart 2 "0" (Num.toString (Num.floor (Num.divBy 3600 seconds)))
          +:+ ":")
    +:+ commaTime (Some (formatTime seconds)).
Proof.
  intros _. unfold pageFormatTime, formatTime, commaTime.
  set (hours := JS.padStart 2 "0"
                  (Num.toString (Num.floor (Num.divBy 3600 seconds)))).
  set (minutes := JS.padStart 2 "0"
                    (Num.toString
                       (Num.floor (Num.divBy 60 (Num.remBy 3600 seconds))))).
  set (secs := JS.padStart 6 "0" (Num.toFixed3 (Num.remBy 60 seconds))).
  assert (Hhours : ~ In "."%char (list_ascii_of_string hours))
    by apply padStart_no_dot, toString_no_dot.
  assert (Hminutes : ~ In "."%char (list_ascii_of_string minutes))
    by apply padStart_no_dot, toString_no_dot.
  assert (Hcolon : ~ In "."%char (list_ascii_of_string ":"))
    by (cbn; intros [H|[]]; discriminate).
  destruct (Num.isPositive (Num.floor (Num.divBy 3600 seconds))).
  - change ("" +:+ ?s) with s.
    by rewrite !replaceFirst_append.
  - rewrite !replaceFirst_append by assumption.
    by rewrite !string_append_assoc.
Qed.

Lemma pageFormatTime_vs_formatTime_witness :
  pageFormatTime (Fin (7323 # 2))
  = (if Num.isPositive (Num.floor (Num.divBy 3600 (Fin (7323 # 2)))) then ""
     else JS.padStart 2 "0"
            (Num.toString (Num.floor (Num.divBy 3600 (Fin (7323 # 2)))))
          +:+ ":")
    +:+ commaTime (Some (formatTime (Fin (7323 # 2)))).
Proof.
  apply (pageFormatTime_vs_formatTime (Fin (7323 # 2))).
  split.
  - vm_compute. discriminate.
  - vm_compute. reflexivity.
Defined.

Example pageFormatTime_examples :
  pageFormatTime (Fin 0) = "00:00:00,000"%string
  /\ pageFormatTime (Fin 2) = "00:00:02,000"%string
  /\ pageFormatTime (Fin (7323 # 2)) = "01:01:01,500"%string.
Proof. repeat split; vm_compute; reflexivity. Qed.

(** ** [formatTime] below one hour *)

Lemma Qfloor_range (x : Q) (lo hi : Z) :
  (inject_Z lo <= x)%Q -> (x < inject_Z hi)%Q -> (lo <= Qfloor x < hi)%Z.
Proof.
  intros Hlo Hhi.
  pose proof (Qfloor_le x) as Hfloor.
  pose proof (Qlt_floor x) as Hceil. rewrite inject_Z_plus in Hceil.
  change (inject_Z 1) with 1%Q in Hceil.
  split.
  - apply Z.lt_succ_r. rewrite Zlt_Qlt. unfold Z.succ. rewrite inject_Z_plus.
    change (inject_Z 1) with 1%Q. lra.
  - rewrite Zlt_Qlt. lra.
Qed.

Lemma truncate_nonneg (x : Q) : (0 <= x)%Q -> Num.truncate x = Qfloor x.
Proof.
  intros Hx. unfold Num.truncate.
  by rewrite (proj2 (Qle_bool_iff 0 x) Hx).
Qed.

Lemma decimal_length_small (z : Z) :
  (0 <= z < 100)%Z -> 1 <= String.length (Num.decimal z) <= 2.
Proof.
  intros Hz.
  assert (Hall : forallb
                   (fun n =>
                      (1 <=? String.length (Num.decimal (Z.of_nat n)))
                      && (String.length (Num.decimal (Z.of_nat n)) <=? 2))
                   (seq 0 100) = true) by (vm_compute; reflexivity).
  rewrite forallb_forall in Hall. specialize (Hall (Z.to_nat z)).
  rewrite Z2Nat.id in Hall by lia.
  destruct (andb_prop _ _ (Hall ltac:(apply in_seq; lia))) as [H1 H2].
  apply Nat.leb_le in H1, H2. lia.
Qed.

Lemma decimal_length_fraction (z : Z) :
  (0 <= z < 1000)%Z -> String.length (Num.decimal z) <= 3.
Proof.
  intros Hz.
  assert (Hall : forallb
                   (fun n => String.length (Num.decimal (Z.of_nat n)) <=? 3)
                   (seq 0 1000) = true) by (vm_compute; reflexivity).
  rewrite forallb_forall in Hall. specialize (Hall (Z.to_nat z)).
  rewrite Z2Nat.id in Hall by lia.
  apply Nat.leb_le, Hall, in_seq. lia.
Qed.

Lemma repeatChar_length (n : nat) (c : ascii) :
  String.length (JS.repeatChar n c) = n.
Proof. induction n as [|n IH]; cbn; [reflexivity | by rewrite IH]. Qed.

Lemma padStart_length (target : nat) (c : ascii) (s : string) :
  String.length (JS.padStart target c s) = Nat.max target (String.length s).
Proof.
  unfold JS.padStart. rewrite string_length_append, repeatChar_length. lia.
Qed.

Lemma string_get_append (s1 s2 : string) (c : ascii) :
  String.get (String.length s1) (s1 +:+ String c s2) = Some c.
Proof.
  induction s1 as [|d s1 IH]; [reflexivity|].
  change (String d s1 +:+ ?s) with (String d (s1 +:+ s)). exact IH.
Qed.

(** X29: below one hour [formatTime] prints no hours: for a finite time
    from 0 up to, but not including, 3600 seconds the result has exactly 9
    characters, two for the minutes, a colon, two for the seconds, a dot and
    three decimals. *)
Theorem formatTime_below_one_hour (q : Q) :
  (0 <= q)%Q -> (q < 3600)%Q ->
  String.length (formatTime (Fin q)) = 9
  /\ String.get 2 (formatTime (Fin q)) = Some ":"%char
  /\ String.get 5 (formatTime (Fin q)) = Some "."%char.
Proof.
  intros Hlow Hhigh. unfold formatTime.
  cbn [Num.divBy Num.remBy Num.floor Num.toString Num.isPositive Num.toFixed3].
  assert (Hhours : Qfloor (q / inject_Z 3600) = 0%Z).
  { assert (0 <= Qfloor (q / inject_Z 3600) < 1)%Z; [|lia].
    apply Qfloor_range; unfold Qdiv;
      change (/ inject_Z 3600)%Q with (1 # 3600)%Q;
      [change (inject_Z 0) with 0%Q | change (inject_Z 1) with 1%Q]; lra. }
  assert (Htrunc : Num.truncate (q / inject_Z 3600) = 0%Z).
  { rewrite truncate_nonneg; [exact Hhours|].
    unfold Qdiv. change (/ inject_Z 3600)%Q with (1 # 3600)%Q. lra. }
  rewrite Hhours, Htrunc. change (0 <? 0)%Z with false. cbn iota.
  change (inject_Z (3600 * 0)) with 0%Q.
  set (minutes := Qfloor ((q - 0) / inject_Z 60)).
  assert (Hminutes : (0 <= minutes < 100)%Z).
  { apply Qfloor_range; unfold Qdiv;
      change (/ inject_Z 60)%Q with (1 # 60)%Q;
      [change (inject_Z 0) with 0%Q | change (inject_Z 100) with 100%Q]; lra. }
  set (whole := Qfloor (q / inject_Z 60)).
  assert (Hwhole : (inject_Z whole <= q * (1 # 60)
                    /\ q * (1 # 60) < inject_Z whole + 1)%Q).
  { pose proof (Qfloor_le (q / inject_Z 60)) as H1.
    pose proof (Qlt_floor (q / inject_Z 60)) as H2.
    rewrite inject_Z_plus in H2. change (inject_Z 1) with 1%Q in H2.
    unfold Qdiv in H1, H2. change (/ inject_Z 60)%Q with (1 # 60)%Q in H1, H2.
    by split. }
  assert (Htrunc60 : Num.truncate (q / inject_Z 60) = whole).
  { apply truncate_nonneg. unfold Qdiv.
    change (/ inject_Z 60)%Q with (1 # 60)%Q. lra. }
  rewrite Htrunc60.
  set (secs := (q - inject_Z (60 * whole))%Q).
  assert (Hsecs : (0 <= secs /\ secs < 60)%Q).
  { unfold secs. rewrite inject_Z_mult. change (inject_Z 60) with 60%Q.
    destruct Hwhole. split; lra. }
  rewrite (proj2 (Qle_bool_iff 0 secs) (proj1 Hsecs)).
  unfold Num.toFixed3_nonneg.
  set (n := Qfloor (secs * 1000 + (1 # 2))).
  assert (Hn : (0 <= n < 60001)%Z).
  { apply Qfloor_range;
      [change (inject_Z 0) with 0%Q | change (inject_Z 60001) with 60001%Q];
      destruct Hsecs; lra. }
  pose proof (decimal_length_small minutes Hminutes) as Hlm.
  assert (Hlw : 1 <= String.length (Num.decimal (n / 1000)) <= 2).
  { apply decimal_length_small. split; [apply Z.div_pos|apply Z.div_lt_upper_bound]; lia. }
  assert (Hlf : String.length (Num.decimal (n mod 1000)) <= 3).
  { apply decimal_length_fraction. apply Z.mod_pos_bound. lia. }
  set (mm := JS.padStart 2 "0" (Num.decimal minutes)).
  set (fraction := JS.padStart 3 "0" (Num.decimal (n mod 1000))).
  assert (Hmm : String.length mm = 2) by (unfold mm; rewrite padStart_length; lia).
  assert (Hfraction : String.length fraction = 3)
    by (unfold fraction; rewrite padStart_length; lia).
  unfold JS.padStart.
  set (zeros := JS.repeatChar _ "0").
  set (ss := zeros +:+ Num.decimal (n / 1000)).
  assert (Hss : String.length ss = 2).
  { unfold ss, zeros. rewrite string_length_append, repeatChar_length,
      !string_length_append, Hfraction. cbn [String.length]. lia. }
  replace (mm +:+ ":" +:+ zeros +:+ Num.decimal (n / 1000) +:+ "." +:+ fraction)
    with (mm +:+ String ":" (ss +:+ String "." fraction))
    by (unfold ss; by rewrite !string_append_assoc).
  split; [|split].
  - rewrite string_length_append. cbn [String.length].
    rewrite string_length_append. cbn [String.length]. lia.
  - transitivity (String.get (String.length mm)
                    (mm +:+ String ":" (ss +:+ String "." fraction)));
      [by rewrite Hmm | apply string_get_append].
  - replace (mm +:+ String ":" (ss +:+ String "." fraction))
      with ((mm +:+ ":" +:+ ss) +:+ String "." fraction)
      by (by rewrite !string_append_assoc).
    transitivity (String.get (String.length (mm +:+ ":" +:+ ss))
                    ((mm +:+ ":" +:+ ss) +:+ String "." fraction));
      [|apply string_get_append].
    rewrite !string_length_append, Hmm, Hss. reflexivity.
Qed.

Lemma formatTime_below_one_hour_witness :
  String.length (formatTime (Fin (753 # 10))) = 9
  /\ String.get 2 (formatTime (Fin (753 # 10))) = Some ":"%char
  /\ String.get 5 (formatTime (Fin (753 # 10))) = Some "."%char.
Proof.
  apply (formatTime_below_one_hour (753 # 10)).
  - vm_compute. discriminate.
  - vm_compute. reflexivity.
Defined.

(** ** The [POST] handler: further properties *)

(** A request without validation errors has a message and a video
    identifier that are strings; the message is not empty and the identifier
    has the format of a video identifier. *)
Lemma validateRequest_valid (body : ChatRequest.t) :
  validateRequest body = [] ->
  exists message videoId,
    ChatRequest.message body = JString message
    /\ ChatRequest.videoId body = JString videoId
    /\ message <> ""%string
    /\ String.length message <= 4000
    /\ isVideoIdFormat videoId = true.
Proof.
  unfold validateRequest. intros Hvalid.
  apply app_eq_nil in Hvalid as [Hmessage Hrest].
  apply app_eq_nil in Hrest as [HvideoId _].
  destruct (ChatRequest.message body) as [| | | |message|]; try discriminate.
  destruct (ChatRequest.videoId body) as [| | | |videoId|]; try discriminate.
  exists message, videoId.
  destruct (String.eqb_spec message "") as [|Hne]; [discriminate|].
  destruct (String.length (JS.trim message) =? 0); [discriminate|].
  destruct (Nat.ltb_spec 4000 (String.length message)); [discriminate|].
  destruct (String.eqb videoId ""); [discriminate|].
  destruct (isVideoIdFormat videoId); [|discriminate].
  repeat split; [exact Hne | lia].
Qed.

(** The validation reads the video identifier only to check its format. *)
Lemma validateRequest_videoId (body : ChatRequest.t) (videoId' : string) :
  validateRequest body = [] ->
  isVideoIdFormat videoId' = true ->
  validateRequest
    (ChatRequest.mk (ChatRequest.message body) (JString videoId')
       (ChatRequest.sessionId body) (ChatRequest.model body)
       (ChatRequest.temperature body) (ChatRequest.maxTokens body))
  = [].
Proof.
  unfold validateRequest. cbn [ChatRequest.message ChatRequest.videoId
    ChatRequest.sessionId ChatRequest.model ChatRequest.temperature
    ChatRequest.maxTokens].
  intros Hvalid Hformat.
  apply app_eq_nil in Hvalid as [-> Hrest].
  apply app_eq_nil in Hrest as [_ ->].
  rewrite Hformat.
  destruct (String.eqb_spec videoId' "") as [->|_]; [discriminate|].
  reflexivity.
Qed.

(** The store after the clean-up of [POST], key by key. *)
Lemma sweepSessions_lookup (env : PostEnv.t)
    (chatSessions : gmap string ChatSession.t) (key : string) :
  sweepSessions env chatSessions !! key
  = match chatSessions !! key with
    | Some session =>
        if PostEnv.sweeps env
           && (DEFAULT_MAX_AGE
               <? PostEnv.sweepClock env - ChatSession.updatedAt session)%Z
        then None else Some session
    | None => None
    end.
Proof.
  unfold sweepSessions. destruct (PostEnv.sweeps env); cbn [andb].
  - destruct (chatSessions !! key) as [session|] eqn:Hkey.
    + rewrite (cleanupOldSessions_lookup _ _ _ _ _ Hkey). unfold expired.
      destruct (Z.ltb_spec DEFAULT_MAX_AGE
                  (PostEnv.sweepClock env - ChatSession.updatedAt session));
        case_decide; try reflexivity; lia.
    + rewrite cleanupOldSessions_eq. cbn [fst].
      by rewrite map_lookup_filter, Hkey.
  - by destruct (chatSessions !! key).
Qed.

(** [POST] on a request without validation errors. *)
Lemma postChat_valid
    (parseFloat : string -> JSNumber) (languageNameOf : string -> string)
    (env : PostEnv.t) (chatSessions : gmap string ChatSession.t)
    (body : ChatRequest.t) (message videoId : string) :
  validateRequest body = [] ->
  ChatRequest.message body = JString message ->
  ChatRequest.videoId body = JString videoId ->
  postChat parseFloat languageNameOf env chatSessions (BodyValue body)
  = match findSession (sweepSessions env chatSessions)
            (ChatRequest.sessionId body) with
    | Some (key, session) =>
        (<[key := (chatTurn parseFloat (PostEnv.turn env) session message).1]>
           (sweepSessions env chatSessions),
         turnResponse (PostEnv.turn env) session
           (chatTurn parseFloat (PostEnv.turn env) session message).2)
    | None =>
        match (fetchTranscriptWithFallback (PostEnv.getSubtitles env)
                 languageNameOf videoId "en" ["en"; "es"; "fr"; "de"]).1 with
        | FallbackError error =>
            (sweepSessions env chatSessions,
             PostFetchFailed
               (transcriptFailure (YouTubeTranscriptError.message error)).1
               (transcriptFailure (YouTubeTranscriptError.message error)).2)
        | FallbackOk transcript _ _ _ =>
            (<[PostEnv.sessionUuid env :=
                 (chatTurn parseFloat (PostEnv.turn env)
                    (newSession env videoId transcript) message).1]>
               (sweepSessions env chatSessions),
             turnResponse (PostEnv.turn env) (newSession env videoId transcript)
               (chatTurn parseFloat (PostEnv.turn env)
                  (newSession env videoId transcript) message).2)
        end
    end.
Proof.
  intros Hvalid Hmessage HvideoId. unfold postChat.
  rewrite Hvalid, Hmessage, HvideoId. cbn [length Nat.ltb Nat.leb].
  destruct (findSession _ _) as [[key session]|]; [reflexivity|].
  by destruct (fetchTranscriptWithFallback _ _ _ _ _).1.
Qed.

(** The session a request names is found after the clean-up exactly under
    its key. *)
Lemma findSession_Some (chatSessions : gmap string ChatSession.t)
    (sessionId : JSValue) (key : string) (session : ChatSession.t) :
  findSession chatSessions sessionId = Some (key, session) ->
  sessionId = JString key /\ key <> ""%string
  /\ chatSessions !! key = Some session.
Proof.
  unfold findSession.
  destruct sessionId as [| |b|[q|negative]|s|]; cbn [truthy];
    try discriminate; try (destruct b; discriminate);
    try (destruct (negb _); discriminate).
  destruct (String.eqb_spec s "") as [|Hne]; cbn [negb]; [discriminate|].
  destruct (chatSessions !! s) as [found|] eqn:Hfound; [|discriminate].
  intros [= <- <-]. by repeat split.
Qed.

(** A turn answers with the identifier of its session exactly when the
    completion answered. *)
Lemma turnResponse_sessionId (env : TurnEnv) (session : ChatSession.t)
    (result : TurnResult) :
  responseSessionId (turnResponse env session result)
  = match result with
    | Replied _ => Some (ChatSession.id session)
    | _ => None
    end.
Proof. by destruct result. Qed.

(** A named session that the clean-up leaves is the session [POST] finds. *)
Lemma findSession_live (env : PostEnv.t)
    (chatSessions : gmap string ChatSession.t) (key : string)
    (session : ChatSession.t) :
  key <> ""%string ->
  chatSessions !! key = Some session ->
  (PostEnv.sweeps env = true ->
   (PostEnv.sweepClock env - ChatSession.updatedAt session <= DEFAULT_MAX_AGE)%Z) ->
  findSession (sweepSessions env chatSessions) (JString key)
  = Some (key, session).
Proof.
  intros Hkey Hstored Hlive. unfold findSession. cbn [truthy].
  apply String.eqb_neq in Hkey. rewrite Hkey. cbn [negb].
  rewrite sweepSessions_lookup, Hstored.
  destruct (PostEnv.sweeps env); cbn [andb]; [|reflexivity].
  destruct (Z.ltb_spec DEFAULT_MAX_AGE
              (PostEnv.sweepClock env - ChatSession.updatedAt session));
    [specialize (Hlive eq_refl); lia | reflexivity].
Qed.

(** A named session that the clean-up removes, or that the store does not
    hold, is not found. *)
Lemma findSession_None (env : PostEnv.t)
    (chatSessions : gmap string ChatSession.t) (sessionId : JSValue) :
  (forall key session,
     sessionId = JString key -> key <> ""%string ->
     chatSessions !! key = Some session ->
     PostEnv.sweeps env = true
     /\ (DEFAULT_MAX_AGE
         < PostEnv.sweepClock env - ChatSession.updatedAt session)%Z) ->
  findSession (sweepSessions env chatSessions) sessionId = None.
Proof.
  intros Hgone.
  destruct (findSession _ _) as [[key session]|] eqn:Hfound; [|reflexivity].
  apply findSession_Some in Hfound as (-> & Hkey & Hswept).
  rewrite sweepSessions_lookup in Hswept.
  destruct (chatSessions !! key) as [stored|] eqn:Hstored; [|discriminate].
  destruct (Hgone key stored eq_refl Hkey Hstored) as [Hsweeps Hold].
  rewrite Hsweeps in Hswept. cbn [andb] in Hswept.
  destruct (Z.ltb_spec DEFAULT_MAX_AGE
              (PostEnv.sweepClock env - ChatSession.updatedAt stored));
    [discriminate | lia].
Qed.

(** X17: a valid request that names a stored session which the clean-up of
    the request leaves (there is no clean-up, or the session is not older
    than 24 hours) runs its turn on that session and stores the result under
    the same key.  The response carries the identifier of the session
    exactly when the completion answered.  No session is created, and the
    outcome depends neither on the [videoId] of the request, as long as it
    has the format of one, nor on what [getSubtitles] would answer. *)
Theorem postChat_existing_session
    (parseFloat : string -> JSNumber) (languageNameOf : string -> string)
    (env : PostEnv.t) (chatSessions : gmap string ChatSession.t)
    (body : ChatRequest.t) (key : string) (session : ChatSession.t) :
  validateRequest body = [] ->
  ChatRequest.sessionId body = JString key ->
  key <> ""%string ->
  chatSessions !! key = Some session ->
  (PostEnv.sweeps env = true ->
   (PostEnv.sweepClock env - ChatSession.updatedAt session <= DEFAULT_MAX_AGE)%Z) ->
  exists message,
    ChatRequest.message body = JString message
    /\ (postChat parseFloat languageNameOf env chatSessions (BodyValue body)).1
         !! key
       = Some (chatTurn parseFloat (PostEnv.turn env) session message).1
    /\ responseSessionId
         (postChat parseFloat languageNameOf env chatSessions (BodyValue body)).2
       = match (chatTurn parseFloat (PostEnv.turn env) session message).2 with
         | Replied _ => Some (ChatSession.id session)
         | _ => None
         end
    /\ (forall assistantContent,
          (chatTurn parseFloat (PostEnv.turn env) session message).2
          = Replied assistantContent ->
          (postChat parseFloat languageNameOf env chatSessions (BodyValue body)).2
          = PostReplied
              (ChatMessage.mk (assistantUuid (PostEnv.turn env)) assistant
                 assistantContent (assistantClock (PostEnv.turn env))
                 (Some (ChatSession.videoId session))
                 (Some (ChatSession.videoTitle session)))
              (ChatSession.id session))
    /\ (forall other,
          is_Some ((postChat parseFloat languageNameOf env chatSessions
                      (BodyValue body)).1 !! other) ->
          is_Some (chatSessions !! other))
    /\ (forall videoId' languageNameOf' getSubtitles' sessionUuid'
               createdClock' updatedClock',
          isVideoIdFormat videoId' = true ->
          postChat parseFloat languageNameOf'
            (PostEnv.mk (PostEnv.sweeps env) (PostEnv.sweepClock env)
               getSubtitles' sessionUuid' createdClock' updatedClock'
               (PostEnv.turn env))
            chatSessions
            (BodyValue
               (ChatRequest.mk (ChatRequest.message body) (JString videoId')
                  (ChatRequest.sessionId body) (ChatRequest.model body)
                  (ChatRequest.temperature body) (ChatRequest.maxTokens body)))
          = postChat parseFloat languageNameOf env chatSessions (BodyValue body)).
Proof.
  intros Hvalid HsessionId Hkey Hstored Hlive.
  destruct (validateRequest_valid body Hvalid)
    as (message & videoId & Hmessage & HvideoId & _).
  exists message. split; [exact Hmessage|].
  pose proof (findSession_live env chatSessions key session Hkey Hstored Hlive)
    as Hfound.
  assert (Hpost :
    postChat parseFloat languageNameOf env chatSessions (BodyValue body)
    = (<[key := (chatTurn parseFloat (PostEnv.turn env) session message).1]>
         (sweepSessions env chatSessions),
       turnResponse (PostEnv.turn env) session
         (chatTurn parseFloat (PostEnv.turn env) session message).2)).
  { rewrite (postChat_valid _ _ _ _ _ _ _ Hvalid Hmessage HvideoId).
    by rewrite HsessionId, Hfound. }
  rewrite Hpost. cbn [fst snd].
  split; [apply lookup_insert_eq|].
  split; [apply turnResponse_sessionId|].
  split; [by intros assistantContent ->|].
  split.
  - intros other. destruct (decide (other = key)) as [->|Hother].
    + by rewrite Hstored.
    + rewrite lookup_insert_ne by done. rewrite sweepSessions_lookup.
      destruct (chatSessions !! other); [done|]. by intros [? ?].
  - intros videoId' languageNameOf' getSubtitles' sessionUuid' createdClock'
      updatedClock' Hformat.
    rewrite (postChat_valid _ _ _ _ _ message videoId'
               (validateRequest_videoId body videoId' Hvalid Hformat)
               Hmessage eq_refl).
    cbn [ChatRequest.sessionId]. rewrite HsessionId.
    change (sweepSessions (PostEnv.mk _ _ _ _ _ _ _) chatSessions)
      with (sweepSessions env chatSessions).
    by rewrite Hfound.
Qed.

Lemma postChat_existing_session_witness :
  exists message,
    ChatRequest.message sample_followup = JString message
    /\ (postChat (fun _ => Fin 0) (fun lang => lang) sample_post
          {[ "session-1"%string := sample_session ]}
          (BodyValue sample_followup)).1 !! "session-1"%string
       = Some (chatTurn (fun _ => Fin 0) (PostEnv.turn sample_post)
                 sample_session message).1
    /\ responseSessionId
         (postChat (fun _ => Fin 0) (fun lang => lang) sample_post
            {[ "session-1"%string := sample_session ]}
            (BodyValue sample_followup)).2
       = match (chatTurn (fun _ => Fin 0) (PostEnv.turn sample_post)
                  sample_session message).2 with
         | Replied _ => Some (ChatSession.id sample_session)
         | _ => None
         end
    /\ (forall assistantContent,
          (chatTurn (fun _ => Fin 0) (PostEnv.turn sample_post) sample_session
             message).2
          = Replied assistantContent ->
          (postChat (fun _ => Fin 0) (fun lang => lang) sample_post
             {[ "session-1"%string := sample_session ]}
             (BodyValue sample_followup)).2
          = PostReplied
              (ChatMessage.mk (assistantUuid (PostEnv.turn sample_post))
                 assistant assistantContent
                 (assistantClock (PostEnv.turn sample_post))
                 (Some (ChatSession.videoId sample_session))
                 (Some (ChatSession.videoTitle sample_session)))
              (ChatSession.id sample_session))
    /\ (forall other,
          is_Some ((postChat (fun _ => Fin 0) (fun lang => lang) sample_post
                      {[ "session-1"%string := sample_session ]}
                      (BodyValue sample_followup)).1 !! other) ->
          is_Some (({[ "session-1"%string := sample_session ]}
                     : gmap string ChatSession.t) !! other))
    /\ (forall videoId' languageNameOf' getSubtitles' sessionUuid'
               createdClock' updatedClock',
          isVideoIdFormat videoId' = true ->
          postChat (fun _ => Fin 0) languageNameOf'
            (PostEnv.mk (PostEnv.sweeps sample_post)
               (PostEnv.sweepClock sample_post)
               getSubtitles' sessionUuid' createdClock' updatedClock'
               (PostEnv.turn sample_post))
            {[ "session-1"%string := sample_session ]}
            (BodyValue
               (ChatRequest.mk (ChatRequest.message sample_followup)
                  (JString videoId')
                  (ChatRequest.sessionId sample_followup)
                  (ChatRequest.model sample_followup)
                  (ChatRequest.temperature sample_followup)
                  (ChatRequest.maxTokens sample_followup)))
          = postChat (fun _ => Fin 0) (fun lang => lang) sample_post
              {[ "session-1"%string := sample_session ]}
              (BodyValue sample_followup)).
Proof.
  apply (postChat_existing_session (fun _ => Fin 0) (fun lang => lang)
           sample_post {[ "session-1"%string := sample_session ]}
           sample_followup "session-1" sample_session).
  - reflexivity.
  - reflexivity.
  - discriminate.
  - apply lookup_singleton_eq.
  - discriminate.
Defined.

(** X18: a valid request without a session, or whose session the store does
    not hold after the clean-up of the request (it never did, or the
    clean-up just removed it), whose fetch succeeds creates a session for
    the [videoId] of the request under the fresh identifier.  The fetched
    transcript is not empty, and [GET] with the identifier returns the
    session as the turn left it.  The response carries the identifier
    exactly when the completion answered: otherwise the session is stored
    and the client is not told its identifier. *)
Theorem postChat_creates_session
    (parseFloat : string -> JSNumber) (languageNameOf : string -> string)
    (env : PostEnv.t) (chatSessions : gmap string ChatSession.t)
    (body : ChatRequest.t) (message videoId : string)
    (transcript : list TranscriptItem.t) (language languageName : string)
    (attempted : list string) :
  validateRequest body = [] ->
  ChatRequest.message body = JString message ->
  ChatRequest.videoId body = JString videoId ->
  (forall key session,
     ChatRequest.sessionId body = JString key -> key <> ""%string ->
     chatSessions !! key = Some session ->
     PostEnv.sweeps env = true
     /\ (DEFAULT_MAX_AGE
         < PostEnv.sweepClock env - ChatSession.updatedAt session)%Z) ->
  (fetchTranscriptWithFallback (PostEnv.getSubtitles env) languageNameOf
     videoId "en" ["en"; "es"; "fr"; "de"]%string).1
  = FallbackOk transcript language languageName attempted ->
  JS.trim (PostEnv.sessionUuid env) <> ""%string ->
  exists created,
    created = (chatTurn parseFloat (PostEnv.turn env)
                 (newSession env videoId transcript) message).1
    /\ transcript <> []
    /\ getChat
         (postChat parseFloat languageNameOf env chatSessions (BodyValue body)).1
         (Some (PostEnv.sessionUuid env))
       = GetOk created (getSessionStats created)
    /\ ChatSession.id created = PostEnv.sessionUuid env
    /\ ChatSession.videoId created = videoId
    /\ ChatSession.transcript created = transcript
    /\ head (ChatSession.messages created)
       = Some (ChatMessage.mk (userUuid (PostEnv.turn env)) user message
                 (userClock (PostEnv.turn env)) (Some videoId)
                 (Some ("YouTube Video " +:+ videoId)))
    /\ responseSessionId
         (postChat parseFloat languageNameOf env chatSessions (BodyValue body)).2
       = match (chatTurn parseFloat (PostEnv.turn env)
                  (newSession env videoId transcript) message).2 with
         | Replied _ => Some (PostEnv.sessionUuid env)
         | _ => None
         end.
Proof.
  intros Hvalid Hmessage HvideoId Hgone Hfetched Huuid.
  eexists. split; [reflexivity|].
  assert (Hpost :
    postChat parseFloat languageNameOf env chatSessions (BodyValue body)
    = (<[PostEnv.sessionUuid env :=
           (chatTurn parseFloat (PostEnv.turn env)
              (newSession env videoId transcript) message).1]>
         (sweepSessions env chatSessions),
       turnResponse (PostEnv.turn env) (newSession env videoId transcript)
         (chatTurn parseFloat (PostEnv.turn env)
            (newSession env videoId transcript) message).2)).
  { rewrite (postChat_valid _ _ _ _ _ _ _ Hvalid Hmessage HvideoId).
    by rewrite (findSession_None env chatSessions _ Hgone), Hfetched. }
  rewrite Hpost. cbn [fst snd].
  split.
  { destruct (fetchTranscriptWithFallback_spec (PostEnv.getSubtitles env)
                languageNameOf videoId "en" ["en"; "es"; "fr"; "de"]%string)
      as (made & _ & _ & _ & Hresult).
    rewrite Hfetched in Hresult. tauto. }
  split.
  { unfold getChat.
    assert (PostEnv.sessionUuid env <> ""%string) as Hne
      by (intros Heq; rewrite Heq in Huuid; by apply Huuid).
    apply String.eqb_neq in Hne. rewrite Hne.
    destruct (String.length (JS.trim (PostEnv.sessionUuid env)) =? 0) eqn:Hlen.
    - apply Nat.eqb_eq in Hlen.
      destruct (JS.trim (PostEnv.sessionUuid env)); [done | discriminate].
    - by rewrite lookup_insert_eq. }
  rewrite turnResponse_sessionId.
  pose proof (chatTurn_cases parseFloat (PostEnv.turn env)
                (newSession env videoId transcript) message)
    as [[answer ->]|[-> _]]; cbn [fst snd]; repeat split.
Qed.

Lemma postChat_creates_session_witness :
  exists created,
    created = (chatTurn (fun _ => Fin 0) (PostEnv.turn sweeping_post)
                 (newSession sweeping_post "AAAAAAAAAAA"
                    [TranscriptItem.mk "0" "2" "hola"]) "hello").1
    /\ [TranscriptItem.mk "0" "2" "hola"] <> []
    /\ getChat
         (postChat (fun _ => Fin 0) (fun lang => lang) sweeping_post
            {[ "session-1"%string := sample_session ]}
            (BodyValue sample_followup)).1
         (Some (PostEnv.sessionUuid sweeping_post))
       = GetOk created (getSessionStats created)
    /\ ChatSession.id created = PostEnv.sessionUuid sweeping_post
    /\ ChatSession.videoId created = "AAAAAAAAAAA"%string
    /\ ChatSession.transcript created = [TranscriptItem.mk "0" "2" "hola"]
    /\ head (ChatSession.messages created)
       = Some (ChatMessage.mk (userUuid (PostEnv.turn sweeping_post)) user
                 "hello" (userClock (PostEnv.turn sweeping_post))
                 (Some "AAAAAAAAAAA"%string)
                 (Some ("YouTube Video " +:+ "AAAAAAAAAAA")))
    /\ responseSessionId
         (postChat (fun _ => Fin 0) (fun lang => lang) sweeping_post
            {[ "session-1"%string := sample_session ]}
            (BodyValue sample_followup)).2
       = match (chatTurn (fun _ => Fin 0) (PostEnv.turn sweeping_post)
                  (newSession sweeping_post "AAAAAAAAAAA"
                     [TranscriptItem.mk "0" "2" "hola"]) "hello").2 with
         | Replied _ => Some (PostEnv.sessionUuid sweeping_post)
         | _ => None
         end.
Proof.
  apply (postChat_creates_session (fun _ => Fin 0) (fun lang => lang)
           sweeping_post {[ "session-1"%string := sample_session ]}
           sample_followup "hello" "AAAAAAAAAAA"
           [TranscriptItem.mk "0" "2" "hola"] "es" "es"
           ["en"; "es"]%string).
  - reflexivity.
  - reflexivity.
  - reflexivity.
  - intros key session [= <-] _ Hstored.
    rewrite lookup_singleton_eq in Hstored. injection Hstored as <-.
    split; reflexivity.
  - vm_compute. reflexivity.
  - vm_compute. discriminate.
Defined.

